(** * curatorAI terminal client: streaming consumer and interaction state machine

    A shallow embedding of [frontend/js/terminal.js] (class [Terminal]) and
    of the platform functions it calls, followed by the properties of the
    stream decoder, the response aggregator, the autocomplete controller and
    the input coordinator.

    Conventions.
    - A JavaScript string is modelled by the [string] of its UTF-8 bytes.
      Every operation the source applies to strings ([split] on the line
      feed, [startsWith] and [slice] with an ASCII prefix, [trim], [+])
      commutes with that encoding.
    - A chunk of the response body is the bytes of one read;
      [TextDecoder_decode] is the [decoder.decode(value)] applied to it.
    - The markup of the page is not among the sources. [userInput] is
      taken to be an [input] element of type text, which keeps no line
      break in its value; the statements about a value assigned to it are
      made for values without line breaks, where a [textarea] keeps the
      same value.
    - An error is modelled by its message.
    - Each method of the class is a function on the record [Terminal] (the
      fields of [this] and the parts of the page they point to) or on the
      record [World] (the terminal and the browser state around it: timers,
      requests in flight, console).
    - An [async] method is cut at its [await]s: the statements up to the
      request, and the statements from the point the request settles.
      Whatever the page does between the two is a sequence of [Event]s. *)

From Stdlib Require Import String Ascii List NArith ZArith Bool Lia Arith.
Import ListNotations.
Open Scope string_scope.
Open Scope nat_scope.
Set Warnings "-register-all".

(** ** JavaScript strings *)

Module JsString.

Definition dquote : ascii := "034"%char.
Definition squote : ascii := "039"%char.
Definition backslash : ascii := "092"%char.
Definition LF : ascii := "010"%char.

(** The line feed as a one-character string. *)
Definition nl : string := String LF "".

(** Source text of a literal written with single quotes in place of double
    quotes, to keep the examples readable. *)
Fixpoint jsrc (s : string) : string :=
  match s with
  | "" => ""
  | String c r => String (if Ascii.eqb c squote then dquote else c) (jsrc r)
  end.

(** [s.startsWith(p)] *)
Fixpoint startsWith (p s : string) : bool :=
  match p, s with
  | "", _ => true
  | String a p', String b s' => Ascii.eqb a b && startsWith p' s'
  | String _ _, "" => false
  end.

(** [s.slice(n)] for a non-negative [n]. *)
Fixpoint slice (n : nat) (s : string) : string :=
  match n, s with
  | 0, _ => s
  | S n', String _ s' => slice n' s'
  | S _, "" => ""
  end.

(** [s.split('\n')]: the segments between line feeds; never empty. *)
Fixpoint split_lines (s : string) : list string :=
  match s with
  | "" => [""]
  | String c r =>
      if Ascii.eqb c LF then "" :: split_lines r
      else match split_lines r with
           | h :: t => String c h :: t
           | [] => [String c ""]
           end
  end.

(** White space and line terminators of ECMAScript, which [trim] strips:
    TAB, LF, VT, FF, CR, SP, and in UTF-8 U+00A0, U+1680, U+2000..U+200A,
    U+2028, U+2029, U+202F, U+205F, U+3000, U+FEFF. [ws_prefix s] is the
    number of bytes of the white space character [s] starts with, 0 when it
    starts with none. *)
Definition ascii_ws (c : ascii) : bool :=
  let n := nat_of_ascii c in
  ((9 <=? n) && (n <=? 13)) || (n =? 32).

Definition ws_prefix (s : string) : nat :=
  match s with
  | "" => 0
  | String c r =>
      if ascii_ws c then 1
      else
        match nat_of_ascii c, r with
        | 194, String d _ => if nat_of_ascii d =? 160 then 2 else 0
        | 225, String d (String e _) =>
            if (nat_of_ascii d =? 154) && (nat_of_ascii e =? 128) then 3 else 0
        | 226, String d (String e _) =>
            let d := nat_of_ascii d in
            let e := nat_of_ascii e in
            if (d =? 128) && (((128 <=? e) && (e <=? 138)) || (e =? 168)
                              || (e =? 169) || (e =? 175)) then 3
            else if (d =? 129) && (e =? 159) then 3 else 0
        | 227, String d (String e _) =>
            if (nat_of_ascii d =? 128) && (nat_of_ascii e =? 128) then 3 else 0
        | 239, String d (String e _) =>
            if (nat_of_ascii d =? 187) && (nat_of_ascii e =? 191) then 3 else 0
        | _, _ => 0
        end
  end.

(** [s.trimStart()], on at most [fuel] characters. *)
Fixpoint trimStart_fuel (fuel : nat) (s : string) : string :=
  match fuel with
  | 0 => s
  | S f =>
      match ws_prefix s with
      | 0 => s
      | k => trimStart_fuel f (slice k s)
      end
  end.

Definition trimStart (s : string) : string := trimStart_fuel (String.length s) s.

(** [blank s]: [s] consists of white space only, that is, [s.trim()] is the
    empty string. *)
Definition blank (s : string) : bool :=
  match trimStart s with "" => true | _ => false end.

(** [s.trimEnd()]: the shortest prefix of [s] whose remainder is blank. *)
Fixpoint trimEnd (s : string) : string :=
  match s with
  | "" => ""
  | String c r => if blank s then "" else String c (trimEnd r)
  end.

(** [s.trim()] *)
Definition trim (s : string) : string := trimEnd (trimStart s).

(** The value sanitization of an [input] element of type text: line feeds
    and carriage returns are stripped from a value assigned to it. *)
Definition is_line_break (c : ascii) : bool :=
  (nat_of_ascii c =? 10) || (nat_of_ascii c =? 13).

Fixpoint strip_newlines (s : string) : string :=
  match s with
  | "" => ""
  | String c r =>
      if is_line_break c then strip_newlines r else String c (strip_newlines r)
  end.

(** A surrogate code unit is written by the three bytes [ED A0..BF xx];
    [ED A0..AF] leads a high surrogate, [ED B0..BF] a low one. The string
    holds a lone surrogate: a high one not followed by a low one, or a low
    one not preceded by a high one. *)
Definition high_lead (b : ascii) : bool :=
  let n := nat_of_ascii b in (160 <=? n) && (n <=? 175).
Definition low_lead (b : ascii) : bool :=
  let n := nat_of_ascii b in (176 <=? n) && (n <=? 191).

Fixpoint lone_surrogate (s : string) : bool :=
  match s with
  | "" => false
  | String a r =>
      if nat_of_ascii a =? 237 then
        match r with
        | String b (String _ r') =>
            if low_lead b then true
            else if high_lead b then
              match r' with
              | String a2 (String b2 (String _ r'')) =>
                  if (nat_of_ascii a2 =? 237) && low_lead b2
                  then lone_surrogate r''
                  else true
              | _ => true
              end
            else lone_surrogate r
        | _ => lone_surrogate r
        end
      else lone_surrogate r
  end.

End JsString.
Import JsString.

(** ** JSON texts and [JSON.parse] *)

Module Json.

(** A number keeps the parts of its literal: sign, integer digits, fraction
    digits (empty when there is no fraction) and exponent (sign, digits). *)
Record numlit := mkNum {
  num_neg : bool;
  num_int : string;
  num_frac : string;
  num_exp : option (bool * string)
}.

Inductive json :=
| JNull
| JBool (b : bool)
| JNum (n : numlit)
| JStr (s : string)
| JArr (l : list json)
| JObj (l : list (string * json)).

Definition is_ws (c : ascii) : bool :=
  let n := nat_of_ascii c in (n =? 32) || (n =? 9) || (n =? 10) || (n =? 13).

Fixpoint skip_ws (s : string) : string :=
  match s with
  | String c r => if is_ws c then skip_ws r else s
  | "" => ""
  end.

Definition is_digit (c : ascii) : bool :=
  let n := nat_of_ascii c in (48 <=? n) && (n <=? 57).

Fixpoint take_digits (s : string) : string * string :=
  match s with
  | String c r =>
      if is_digit c then let (d, r') := take_digits r in (String c d, r')
      else ("", s)
  | "" => ("", "")
  end.

Definition is_empty (s : string) : bool :=
  match s with "" => true | _ => false end.

(** number = [-] int [frac] [exp] *)
Definition parse_int_part (s : string) : option (string * string) :=
  match s with
  | String c r =>
      if Ascii.eqb c "0" then Some ("0", r)
      else if is_digit c then Some (take_digits s)
      else None
  | "" => None
  end.

Definition parse_frac_part (s : string) : option (string * string) :=
  match s with
  | String "." r =>
      let (d, r') := take_digits r in
      if is_empty d then None else Some (d, r')
  | _ => Some ("", s)
  end.

Definition parse_exp_digits (neg : bool) (s : string)
  : option (option (bool * string) * string) :=
  let (d, r) := take_digits s in
  if is_empty d then None else Some (Some (neg, d), r).

Definition parse_exp_part (s : string) : option (option (bool * string) * string) :=
  match s with
  | String c r =>
      if Ascii.eqb c "e" || Ascii.eqb c "E" then
        match r with
        | String "+" r' => parse_exp_digits false r'
        | String "-" r' => parse_exp_digits true r'
        | _ => parse_exp_digits false r
        end
      else Some (None, s)
  | "" => Some (None, s)
  end.

Definition parse_number (s : string) : option (numlit * string) :=
  let (neg, s1) := match s with
                   | String "-" r => (true, r)
                   | _ => (false, s)
                   end in
  match parse_int_part s1 with
  | None => None
  | Some (i, s2) =>
      match parse_frac_part s2 with
      | None => None
      | Some (f, s3) =>
          match parse_exp_part s3 with
          | None => None
          | Some (e, s4) => Some (mkNum neg i f e, s4)
          end
      end
  end.

(** The characters of a string literal: a byte of the text, or the 16-bit
    code unit of a [\uXXXX] escape. *)
Inductive sunit :=
| Raw (c : ascii)
| Esc (u : N).

Definition hex_digit (c : ascii) : option N :=
  let n := N_of_ascii c in
  if ((48 <=? n) && (n <=? 57))%N then Some (n - 48)%N
  else if ((65 <=? n) && (n <=? 70))%N then Some (n - 55)%N
  else if ((97 <=? n) && (n <=? 102))%N then Some (n - 87)%N
  else None.

Definition hex4 (a b c d : ascii) : option N :=
  match hex_digit a, hex_digit b, hex_digit c, hex_digit d with
  | Some a, Some b, Some c, Some d => Some (((a * 16 + b) * 16 + c) * 16 + d)%N
  | _, _, _, _ => None
  end.

Definition simple_escape (c : ascii) : option ascii :=
  match nat_of_ascii c with
  | 34 => Some dquote
  | 92 => Some backslash
  | 47 => Some "/"%char
  | 98 => Some "008"%char
  | 102 => Some "012"%char
  | 110 => Some "010"%char
  | 114 => Some "013"%char
  | 116 => Some "009"%char
  | _ => None
  end.

(** The text after an opening quote, up to the closing one. *)
Fixpoint parse_string_body (s : string) : option (list sunit * string) :=
  match s with
  | "" => None
  | String c r =>
      if Ascii.eqb c dquote then Some ([], r)
      else if Ascii.eqb c backslash then
        match r with
        | String e r1 =>
            if Ascii.eqb e "u" then
              match r1 with
              | String h1 (String h2 (String h3 (String h4 r2))) =>
                  match hex4 h1 h2 h3 h4, parse_string_body r2 with
                  | Some u, Some (us, r3) => Some (Esc u :: us, r3)
                  | _, _ => None
                  end
              | _ => None
              end
            else
              match simple_escape e, parse_string_body r1 with
              | Some x, Some (us, r3) => Some (Raw x :: us, r3)
              | _, _ => None
              end
        | "" => None
        end
      else if nat_of_ascii c <? 32 then None
      else
        match parse_string_body r with
        | Some (us, r3) => Some (Raw c :: us, r3)
        | None => None
        end
  end.

(** UTF-8 bytes of a code point (a lone surrogate is written the same way). *)
Definition byte (n : N) : ascii := ascii_of_N n.

Definition utf8 (cp : N) : string :=
  (if cp <? 128 then String (byte cp) ""
   else if cp <? 2048 then
     String (byte (192 + cp / 64)) (String (byte (128 + cp mod 64)) "")
   else if cp <? 65536 then
     String (byte (224 + cp / 4096))
       (String (byte (128 + (cp / 64) mod 64))
          (String (byte (128 + cp mod 64)) ""))
   else
     String (byte (240 + cp / 262144))
       (String (byte (128 + (cp / 4096) mod 64))
          (String (byte (128 + (cp / 64) mod 64))
             (String (byte (128 + cp mod 64)) ""))))%N.

Definition is_high (u : N) : bool := ((55296 <=? u) && (u <=? 56319))%N.
Definition is_low (u : N) : bool := ((56320 <=? u) && (u <=? 57343))%N.

(** The string the units stand for; an escaped high surrogate directly
    followed by an escaped low one is one code point. *)
Fixpoint encode_units (us : list sunit) : string :=
  match us with
  | [] => ""
  | Raw c :: r => String c (encode_units r)
  | Esc h :: r =>
      match r with
      | Esc l :: r' =>
          if is_high h && is_low l
          then (utf8 (65536 + (h - 55296) * 1024 + (l - 56320))%N ++ encode_units r')%string
          else (utf8 h ++ encode_units r)%string
      | _ => (utf8 h ++ encode_units r)%string
      end
  end.

Definition parse_string (s : string) : option (string * string) :=
  match parse_string_body s with
  | Some (us, r) => Some (encode_units us, r)
  | None => None
  end.

(** Arrays and objects, over a parser [pv] of the values inside them.
    [parse_elems] starts after [[] or [,]; [parse_members] after [{] or [,].
    Each round consumes at least one character, [n] bounds the rounds. *)
Section Containers.
Variable pv : string -> option (json * string).

Fixpoint parse_elems (n : nat) (s : string) (acc : list json)
  : option (list json * string) :=
  match n with
  | 0 => None
  | S n' =>
      match pv s with
      | Some (v, r) =>
          match skip_ws r with
          | String "," r' => parse_elems n' r' (v :: acc)
          | String "]" r' => Some (rev (v :: acc), r')
          | _ => None
          end
      | None => None
      end
  end.

Fixpoint parse_members (n : nat) (s : string) (acc : list (string * json))
  : option (list (string * json) * string) :=
  match n with
  | 0 => None
  | S n' =>
      match skip_ws s with
      | String c r =>
          if Ascii.eqb c dquote then
            match parse_string r with
            | Some (k, r1) =>
                match skip_ws r1 with
                | String ":" r2 =>
                    match pv r2 with
                    | Some (v, r3) =>
                        match skip_ws r3 with
                        | String "," r4 => parse_members n' r4 ((k, v) :: acc)
                        | String "}" r4 => Some (rev ((k, v) :: acc), r4)
                        | _ => None
                        end
                    | None => None
                    end
                | _ => None
                end
            | None => None
            end
          else None
      | "" => None
      end
  end.
End Containers.

(** One value, after optional white space; [fuel] bounds the nesting. *)
Fixpoint parse_value (fuel : nat) (s : string) : option (json * string) :=
  match fuel with
  | 0 => None
  | S f =>
      match skip_ws s with
      | "" => None
      | String c r as t =>
          if Ascii.eqb c "{" then
            match skip_ws r with
            | String "}" r' => Some (JObj [], r')
            | _ =>
                match parse_members (parse_value f) (String.length r) r [] with
                | Some (m, r') => Some (JObj m, r')
                | None => None
                end
            end
          else if Ascii.eqb c "[" then
            match skip_ws r with
            | String "]" r' => Some (JArr [], r')
            | _ =>
                match parse_elems (parse_value f) (String.length r) r [] with
                | Some (l, r') => Some (JArr l, r')
                | None => None
                end
            end
          else if Ascii.eqb c dquote then
            match parse_string r with
            | Some (x, r') => Some (JStr x, r')
            | None => None
            end
          else if startsWith "true" t then Some (JBool true, slice 4 t)
          else if startsWith "false" t then Some (JBool false, slice 5 t)
          else if startsWith "null" t then Some (JNull, slice 4 t)
          else
            match parse_number t with
            | Some (n, r') => Some (JNum n, r')
            | None => None
            end
      end
  end.

(** [JSON.parse(text)]: [None] stands for the [SyntaxError] it throws. The
    nesting depth of a text is below its length. *)
Definition JSON_parse (text : string) : option json :=
  match parse_value (S (String.length text)) text with
  | Some (v, r) => if is_empty (skip_ws r) then Some v else None
  | None => None
  end.

End Json.
Import Json.

(** ** [TextDecoder.decode] *)

(** [new TextDecoder()] decodes UTF-8. [decoder.decode(value)] is called
    without the [stream] option, so each call starts afresh: a sequence of
    bytes left open at the end of a read, and any byte that cannot go on a
    sequence, gives U+FFFD, and a byte order mark at the start of the read
    is dropped. The text is again written by its UTF-8 bytes. *)
Module Utf8.

(** The bounds set for the next byte of a sequence. *)
Inductive Bounds :=
| B80_BF
| BA0_BF
| B80_9F
| B90_BF
| B80_8F.

Definition in_bounds (r : Bounds) (b : N) : bool :=
  match r with
  | B80_BF => (128 <=? b) && (b <=? 191)
  | BA0_BF => (160 <=? b) && (b <=? 191)
  | B80_9F => (128 <=? b) && (b <=? 159)
  | B90_BF => (144 <=? b) && (b <=? 191)
  | B80_8F => (128 <=? b) && (b <=? 143)
  end%N.

Record State := mkState {
  code_point : N;
  bytes_needed : nat;
  bounds : Bounds
}.

Definition clean : State := mkState 0 0 B80_BF.

Definition replacement : N := 65533.

(** A byte read while no sequence is open. *)
Definition lead (b : N) : list N * State :=
  (if b <=? 127 then ([b], clean)
   else if (194 <=? b) && (b <=? 223) then ([], mkState (N.land b 31) 1 B80_BF)
   else if (224 <=? b) && (b <=? 239) then
     ([], mkState (N.land b 15) 2
            (if b =? 224 then BA0_BF else if b =? 237 then B80_9F else B80_BF))
   else if (240 <=? b) && (b <=? 244) then
     ([], mkState (N.land b 7) 3
            (if b =? 240 then B90_BF else if b =? 244 then B80_8F else B80_BF))
   else ([replacement], clean))%N.

(** One byte: the code points emitted and the state after it. A byte out
    of bounds closes the open sequence with U+FFFD and is read again as a
    first byte. *)
Definition step (st : State) (b : N) : list N * State :=
  match bytes_needed st with
  | 0 => lead b
  | S n =>
      if in_bounds (bounds st) b then
        let cp := N.lor (N.shiftl (code_point st) 6) (N.land b 63) in
        match n with
        | 0 => ([cp], clean)
        | S _ => ([], mkState cp n B80_BF)
        end
      else let (out, st') := lead b in (replacement :: out, st')
  end.

Fixpoint feed (st : State) (bytes : string) : list N * State :=
  match bytes with
  | "" => ([], st)
  | String c r =>
      let (o1, s1) := step st (N_of_ascii c) in
      let (o2, s2) := feed s1 r in
      ((o1 ++ o2)%list, s2)
  end.

(** The end of the bytes closes an open sequence with U+FFFD. *)
Definition finish (st : State) : list N :=
  match bytes_needed st with
  | 0 => []
  | S _ => [replacement]
  end.

Definition code_points (bytes : string) : list N :=
  let (o, st) := feed clean bytes in (o ++ finish st)%list.

End Utf8.

(** U+FEFF as the first code point is not part of the text. *)
Definition drop_BOM (cps : list N) : list N :=
  match cps with
  | cp :: r => if (cp =? 65279)%N then r else cps
  | [] => []
  end.

Fixpoint encode_code_points (cps : list N) : string :=
  match cps with
  | [] => ""
  | cp :: r => (utf8 cp ++ encode_code_points r)%string
  end.

Definition TextDecoder_decode (bytes : string) : string :=
  encode_code_points (drop_BOM (Utf8.code_points bytes)).

(** ** JavaScript values parsed from JSON, and the coercions the source
    applies to them *)

Module JsValue.

(** A value read from a parsed record: [None] is [undefined]. *)
Definition jsval := option json.

Definition null : jsval := Some JNull.
Definition undefined : jsval := None.

Fixpoint all_zero (digits : string) : bool :=
  match digits with
  | "" => true
  | String c r => Ascii.eqb c "0" && all_zero r
  end.

(** Decimal digits of a natural number. *)
Fixpoint digits_to_N (acc : N) (digits : string) : N :=
  match digits with
  | "" => acc
  | String c r => digits_to_N (acc * 10 + (N_of_ascii c - 48))%N r
  end.

Definition digit_char (d : N) : ascii := ascii_of_N (48 + d).

Fixpoint N_digits (fuel : nat) (n : N) (acc : string) : string :=
  match fuel with
  | 0 => acc
  | S f =>
      let acc' := String (digit_char (n mod 10)) acc in
      if (n / 10 =? 0)%N then acc' else N_digits f (n / 10)%N acc'
  end.

Definition N_to_string (n : N) : string := N_digits (S (N.to_nat (N.log2 n))) n "".
Definition nat_to_string (n : nat) : string := N_to_string (N.of_nat n).

(** *** Numbers *)

(** The magnitude of the Number a decimal literal denotes: the binary64
    nearest to its value, ties going to the even mantissa. [B_finite M E]
    is [M x 2^E] with [0 < M < 2^53] and [-1074 <= E <= 971], [M] being at
    least [2^52] unless [E] is [-1074]. *)
Inductive binary64 :=
| B_zero
| B_finite (M : N) (E : Z)
| B_infinity.

(** [p / q] rounded to the nearest integer, ties to the even one. *)
Definition round_div (p q : N) : N :=
  let d := (p / q)%N in
  match (2 * (p mod q) ?= q)%N with
  | Lt => d
  | Gt => (d + 1)%N
  | Eq => if N.even d then d else (d + 1)%N
  end.

(** [p / q >= b ^ k] *)
Definition ge_pow (b p q : N) (k : Z) : bool :=
  if (0 <=? k)%Z then (q * b ^ Z.to_N k <=? p)%N
  else (q <=? p * b ^ Z.to_N (- k))%N.

(** The binary64 nearest to [p / q], for positive [p] and [q]. *)
Definition nearest (p q : N) : binary64 :=
  let l := (Z.of_N (N.log2 p) - Z.of_N (N.log2 q))%Z in
  let lg := if ge_pow 2 p q l then l else (l - 1)%Z in
  let E := Z.max (lg - 52) (-1074) in
  let M := if (0 <=? E)%Z then round_div p (q * 2 ^ Z.to_N E)
           else round_div (p * 2 ^ Z.to_N (- E)) q in
  let (M', E') := if (M =? 2 ^ 53)%N then ((2 ^ 52)%N, (E + 1)%Z) else (M, E) in
  if (M' =? 0)%N then B_zero
  else if (971 <? E')%Z then B_infinity
  else B_finite M' E'.

(** [m x 10^e] as a fraction. *)
Definition decimal_fraction (m : N) (e : Z) : N * N :=
  if (0 <=? e)%Z then ((m * 10 ^ Z.to_N e)%N, 1%N)
  else (m, (10 ^ Z.to_N (- e))%N).

(** The magnitude of the decimal with integer digits [int], fraction
    digits [frac] and exponent [exp]. A value of 10^400 or more is
    infinite and one below 10^-400 is zero, whatever its digits. *)
Definition read_decimal (int frac : string) (exp : option (bool * string))
  : binary64 :=
  let m := digits_to_N 0 (int ++ frac) in
  let e := match exp with
           | Some (true, d) => (- Z.of_N (digits_to_N 0 d))%Z
           | Some (false, d) => Z.of_N (digits_to_N 0 d)
           | None => 0%Z
           end in
  let e10 := (e - Z.of_nat (String.length frac))%Z in
  if (m =? 0)%N then B_zero
  else if (400 <? e10)%Z then B_infinity
  else if (Z.of_nat (String.length (int ++ frac)) + e10 <? -400)%Z then B_zero
  else let (p, q) := decimal_fraction m e10 in nearest p q.

Definition rounds_to_zero (int frac : string) (exp : option (bool * string)) : bool :=
  match read_decimal int frac exp with
  | B_zero => true
  | _ => false
  end.

Definition read_number (n : numlit) : binary64 :=
  read_decimal (num_int n) (num_frac n) (num_exp n).

(** The number is [0] or [-0]. *)
Definition num_is_zero (n : numlit) : bool :=
  rounds_to_zero (num_int n) (num_frac n) (num_exp n).

(** [ToBoolean]: the test of [if (v)] and of [v || w]. *)
Definition truthy (v : json) : bool :=
  match v with
  | JNull => false
  | JBool b => b
  | JNum n => negb (num_is_zero n)
  | JStr s => negb (is_empty s)
  | JArr _ => true
  | JObj _ => true
  end.

Definition truthy_val (v : jsval) : bool :=
  match v with
  | None => false
  | Some j => truthy j
  end.

(** [Number::toString]: the digits [s], as few as can be, and the exponent
    [n] with [s x 10^(n-k)] reading back as the number, [k] being the
    number of digits of [s]. *)
Definition same_binary64 (a b : binary64) : bool :=
  match a, b with
  | B_zero, B_zero => true
  | B_infinity, B_infinity => true
  | B_finite M E, B_finite M' E' => (M =? M')%N && (E =? E')%Z
  | _, _ => false
  end.

(** The largest [t' >= t] with [10^t' <= p / q], [fuel] steps at most. *)
Fixpoint magnitude (fuel : nat) (p q : N) (t : Z) : Z :=
  match fuel with
  | 0 => t
  | S f => if ge_pow 10 p q (t + 1) then magnitude f p q (t + 1)%Z else t
  end.

(** The digits of length [k] for [x = px / qx], whose exponent is [n], if
    there are any: of the two decimals of [k] digits around [x], one that
    reads back as [x], the nearer one if both do, the even one if they are
    as near. *)
Definition digits_of_length (x : binary64) (px qx : N) (n : Z) (k : nat)
  : option (N * Z) :=
  let t := (n - Z.of_nat k)%Z in
  let lo := if (0 <=? t)%Z then (px / (qx * 10 ^ Z.to_N t))%N
            else ((px * 10 ^ Z.to_N (- t)) / qx)%N in
  let hi := (lo + 1)%N in
  let reads (s : N) :=
    same_binary64 (let (p, q) := decimal_fraction s t in nearest p q) x in
  let side := if (0 <=? t)%Z
              then (2 * px ?= qx * (lo + hi) * 10 ^ Z.to_N t)%N
              else (2 * px * 10 ^ Z.to_N (- t) ?= qx * (lo + hi))%N in
  let up := if (hi =? 10 ^ N.of_nat k)%N then ((10 ^ N.of_nat (pred k))%N, (n + 1)%Z)
            else (hi, n) in
  match reads lo, reads hi with
  | true, true =>
      match side with
      | Lt => Some (lo, n)
      | Gt => Some up
      | Eq => if N.even lo then Some (lo, n) else Some up
      end
  | true, false => Some (lo, n)
  | false, true => Some up
  | false, false => None
  end.

Fixpoint shortest_digits (fuel : nat) (x : binary64) (px qx : N) (n : Z) (k : nat)
  : N * Z :=
  match fuel with
  | 0 => (0%N, n)
  | S f =>
      match digits_of_length x px qx n k with
      | Some r => r
      | None => shortest_digits f x px qx n (S k)
      end
  end.

Fixpoint zeros (n : nat) : string :=
  match n with
  | 0 => ""
  | S n' => String "0" (zeros n')
  end.

(** The text for the digits and the exponent [n]. *)
Definition format_number (digits : string) (n : Z) : string :=
  let k := Z.of_nat (String.length digits) in
  (if ((k <=? n) && (n <=? 21))%Z then digits ++ zeros (Z.to_nat (n - k))
   else if ((0 <? n) && (n <=? 21))%Z then
     substring 0 (Z.to_nat n) digits ++ "."
     ++ substring (Z.to_nat n) (Z.to_nat (k - n)) digits
   else if ((-6 <? n) && (n <=? 0))%Z then
     "0." ++ zeros (Z.to_nat (- n)) ++ digits
   else
     let e := (n - 1)%Z in
     let es := (if (e <? 0)%Z then "-" else "+") ++ N_to_string (Z.abs_N e) in
     match digits with
     | "" => ""
     | String d "" => String d ("e" ++ es)
     | String d r => String d ("." ++ r ++ "e" ++ es)
     end)%string.

Definition num_to_string (n : numlit) : string :=
  match read_number n with
  | B_zero => "0"
  | B_infinity => ((if num_neg n then "-" else "") ++ "Infinity")%string
  | B_finite M E =>
      let (px, qx) := if (0 <=? E)%Z then ((M * 2 ^ Z.to_N E)%N, 1%N)
                      else (M, (2 ^ Z.to_N (- E))%N) in
      let n10 := (magnitude 640 px qx (-324) + 1)%Z in
      let (s, n') := shortest_digits 17 (B_finite M E) px qx n10 1 in
      ((if num_neg n then "-" else "") ++ format_number (N_to_string s) n')%string
  end.
Arguments num_to_string : simpl never.
Arguments num_is_zero : simpl never.

(** [ToString], as applied by [+=] and by template literals, of a value
    whose conversion returns (see [convertible] below). An array is its
    elements joined by commas, [null] elements printing as nothing. *)
Fixpoint toString (v : json) : string :=
  match v with
  | JNull => "null"
  | JBool true => "true"
  | JBool false => "false"
  | JNum n => num_to_string n
  | JStr s => s
  | JArr l =>
      (fix join (first : bool) (l : list json) : string :=
         match l with
         | [] => ""
         | x :: r =>
             ((if first then "" else ",")
              ++ match x with JNull => "" | _ => toString x end
              ++ join false r)%string
         end) true l
  | JObj _ => "[object Object]"
  end.

(** [ToString] and [ToNumber] of an object go through its [toString] and
    [valueOf]. A parsed object with a member [toString] of its own hides
    the inherited method by a value that cannot be called, and the
    conversion throws a [TypeError]; so does the conversion of an array
    that holds such an object. [convertible v]: the conversion of [v]
    returns. *)
Fixpoint convertible (v : json) : bool :=
  match v with
  | JArr l => forallb convertible l
  | JObj members =>
      negb (existsb (fun m => String.eqb (fst m) "toString") members)
  | _ => true
  end.

Definition convertible_val (v : jsval) : bool :=
  match v with
  | Some j => convertible j
  | None => true
  end.

(** [v.key] on a value other than [null]: the own property of a parsed
    object (the last member with that key), [undefined] elsewhere. The keys
    read by the source are not properties of arrays or primitives. *)
Fixpoint lookup (key : string) (members : list (string * json)) : jsval :=
  match members with
  | [] => None
  | (k, v) :: r =>
      match lookup key r with
      | Some w => Some w
      | None => if String.eqb k key then Some v else None
      end
  end.

Definition get (key : string) (v : json) : jsval :=
  match v with
  | JObj members => lookup key members
  | _ => None
  end.

(** [StringToNumber(s) > 0]. *)
Fixpoint all_in (ok : ascii -> bool) (s : string) : bool :=
  match s with
  | "" => true
  | String c r => ok c && all_in ok r
  end.

Definition is_hex (c : ascii) : bool :=
  match hex_digit c with Some _ => true | None => false end.
Definition is_octal (c : ascii) : bool :=
  let n := nat_of_ascii c in (48 <=? n) && (n <=? 55).
Definition is_binary (c : ascii) : bool :=
  let n := nat_of_ascii c in (48 <=? n) && (n <=? 49).

(** An optional exponent part and nothing after it: [None] when the text
    is something else, else the exponent if there is one. *)
Definition exponent_of (s : string) : option (option (bool * string)) :=
  match s with
  | "" => Some None
  | String c r =>
      if Ascii.eqb c "e" || Ascii.eqb c "E" then
        let (neg, d) := match r with
                        | String "+" r' => (false, r')
                        | String "-" r' => (true, r')
                        | _ => (false, r)
                        end in
        if negb (is_empty d) && all_in is_digit d then Some (Some (neg, d))
        else None
      else None
  end.

(** An unsigned decimal literal with a positive value. *)
Definition decimal_gt0 (s : string) : bool :=
  if String.eqb s "Infinity" then true
  else
    let (i, r) := take_digits s in
    match r with
    | String "." r' =>
        let (f, r'') := take_digits r' in
        negb (is_empty i && is_empty f)
        && match exponent_of r'' with
           | Some e => negb (rounds_to_zero i f e)
           | None => false
           end
    | _ =>
        negb (is_empty i)
        && match exponent_of r with
           | Some e => negb (rounds_to_zero i "" e)
           | None => false
           end
    end.

Definition radix_gt0 (ok : ascii -> bool) (d : string) : bool :=
  negb (is_empty d) && all_in ok d && negb (all_zero d).

Definition string_gt0 (s : string) : bool :=
  match trim s with
  | String "+" r => decimal_gt0 r
  | String "-" _ => false
  | String "0" (String c d) as t =>
      if Ascii.eqb c "x" || Ascii.eqb c "X" then radix_gt0 is_hex d
      else if Ascii.eqb c "o" || Ascii.eqb c "O" then radix_gt0 is_octal d
      else if Ascii.eqb c "b" || Ascii.eqb c "B" then radix_gt0 is_binary d
      else decimal_gt0 t
  | t => decimal_gt0 t
  end.

(** [v > 0], for a [v] whose conversion to a number returns. *)
Definition gt0 (v : jsval) : bool :=
  match v with
  | None => false
  | Some JNull => false
  | Some (JBool b) => b
  | Some (JNum n) => negb (num_neg n) && negb (num_is_zero n)
  | Some (JStr s) => string_gt0 s
  | Some (JArr l) => string_gt0 (toString (JArr l))
  | Some (JObj _) => false
  end.

(** [v.length > 0] on a value other than [null], when the comparison
    returns. *)
Definition length_gt0 (v : json) : bool :=
  match v with
  | JArr l => 0 <? List.length l
  | JStr s => 0 <? String.length s
  | JObj members => gt0 (lookup "length" members)
  | _ => false
  end.

(** [v.length > 0] throws: the [length] member of a parsed object cannot
    be converted to a number. *)
Definition length_throws (v : json) : bool :=
  match v with
  | JObj members => negb (convertible_val (lookup "length" members))
  | _ => false
  end.

End JsValue.
Import JsValue.

(** ** The page and the fields of [Terminal] *)

(** A call either returns or throws an error with a message. *)
Inductive outcome (A : Type) :=
| Normal (a : A)
| Throws (message : string).
Arguments Normal {A} a.
Arguments Throws {A} message.

(** A [div.terminal-line] of [terminalBody]. [line_typing] marks the
    in-progress line: the one with id [typing-line], whose output span has
    id [typing-output] and which ends with the cursor span. [line_class] and
    [line_text] are the class and the text of the output span;
    [line_images] are the values assigned to the [src] of the images
    attached to the line. *)
Record Line := mkLine {
  line_typing : bool;
  line_prompt : string;
  line_class : string;
  line_text : string;
  line_images : list json
}.

(** A [div.autocomplete-item]: the [name], [size] and [year] fields of the
    artwork it was built from, and whether it carries the class
    [selected]. *)
Record Item := mkItem {
  item_artwork_name : jsval;
  item_info : string;
  item_selected : bool
}.

Record Terminal := mkTerminal {
  terminalBody : list Line;
  userInput_value : string;
  userInput_disabled : bool;
  userInput_focused : bool;
  autocompleteList_show : bool;
  autocompleteList_items : list Item;
  sessionId : jsval;
  isProcessing : bool;
  autocompleteTimeout : option nat;
  selectedIndex : Z
}.

(** The fields set by [constructor], on an empty page. *)
Definition new_Terminal : Terminal :=
  {| terminalBody := [];
     userInput_value := "";
     userInput_disabled := false;
     userInput_focused := false;
     autocompleteList_show := false;
     autocompleteList_items := [];
     sessionId := null;
     isProcessing := false;
     autocompleteTimeout := None;
     selectedIndex := (-1)%Z |}.

Definition set_terminalBody (b : list Line) (t : Terminal) : Terminal :=
  {| terminalBody := b;
     userInput_value := userInput_value t;
     userInput_disabled := userInput_disabled t;
     userInput_focused := userInput_focused t;
     autocompleteList_show := autocompleteList_show t;
     autocompleteList_items := autocompleteList_items t;
     sessionId := sessionId t;
     isProcessing := isProcessing t;
     autocompleteTimeout := autocompleteTimeout t;
     selectedIndex := selectedIndex t |}.

Definition set_userInput_value (v : string) (t : Terminal) : Terminal :=
  {| terminalBody := terminalBody t;
     userInput_value := v;
     userInput_disabled := userInput_disabled t;
     userInput_focused := userInput_focused t;
     autocompleteList_show := autocompleteList_show t;
     autocompleteList_items := autocompleteList_items t;
     sessionId := sessionId t;
     isProcessing := isProcessing t;
     autocompleteTimeout := autocompleteTimeout t;
     selectedIndex := selectedIndex t |}.

Definition set_userInput_disabled (d : bool) (t : Terminal) : Terminal :=
  {| terminalBody := terminalBody t;
     userInput_value := userInput_value t;
     userInput_disabled := d;
     userInput_focused := userInput_focused t;
     autocompleteList_show := autocompleteList_show t;
     autocompleteList_items := autocompleteList_items t;
     sessionId := sessionId t;
     isProcessing := isProcessing t;
     autocompleteTimeout := autocompleteTimeout t;
     selectedIndex := selectedIndex t |}.

Definition set_userInput_focused (f : bool) (t : Terminal) : Terminal :=
  {| terminalBody := terminalBody t;
     userInput_value := userInput_value t;
     userInput_disabled := userInput_disabled t;
     userInput_focused := f;
     autocompleteList_show := autocompleteList_show t;
     autocompleteList_items := autocompleteList_items t;
     sessionId := sessionId t;
     isProcessing := isProcessing t;
     autocompleteTimeout := autocompleteTimeout t;
     selectedIndex := selectedIndex t |}.

Definition set_show (s : bool) (t : Terminal) : Terminal :=
  {| terminalBody := terminalBody t;
     userInput_value := userInput_value t;
     userInput_disabled := userInput_disabled t;
     userInput_focused := userInput_focused t;
     autocompleteList_show := s;
     autocompleteList_items := autocompleteList_items t;
     sessionId := sessionId t;
     isProcessing := isProcessing t;
     autocompleteTimeout := autocompleteTimeout t;
     selectedIndex := selectedIndex t |}.

Definition set_items (l : list Item) (t : Terminal) : Terminal :=
  {| terminalBody := terminalBody t;
     userInput_value := userInput_value t;
     userInput_disabled := userInput_disabled t;
     userInput_focused := userInput_focused t;
     autocompleteList_show := autocompleteList_show t;
     autocompleteList_items := l;
     sessionId := sessionId t;
     isProcessing := isProcessing t;
     autocompleteTimeout := autocompleteTimeout t;
     selectedIndex := selectedIndex t |}.

Definition set_sessionId (v : jsval) (t : Terminal) : Terminal :=
  {| terminalBody := terminalBody t;
     userInput_value := userInput_value t;
     userInput_disabled := userInput_disabled t;
     userInput_focused := userInput_focused t;
     autocompleteList_show := autocompleteList_show t;
     autocompleteList_items := autocompleteList_items t;
     sessionId := v;
     isProcessing := isProcessing t;
     autocompleteTimeout := autocompleteTimeout t;
     selectedIndex := selectedIndex t |}.

Definition set_isProcessing (p : bool) (t : Terminal) : Terminal :=
  {| terminalBody := terminalBody t;
     userInput_value := userInput_value t;
     userInput_disabled := userInput_disabled t;
     userInput_focused := userInput_focused t;
     autocompleteList_show := autocompleteList_show t;
     autocompleteList_items := autocompleteList_items t;
     sessionId := sessionId t;
     isProcessing := p;
     autocompleteTimeout := autocompleteTimeout t;
     selectedIndex := selectedIndex t |}.

Definition set_autocompleteTimeout (i : option nat) (t : Terminal) : Terminal :=
  {| terminalBody := terminalBody t;
     userInput_value := userInput_value t;
     userInput_disabled := userInput_disabled t;
     userInput_focused := userInput_focused t;
     autocompleteList_show := autocompleteList_show t;
     autocompleteList_items := autocompleteList_items t;
     sessionId := sessionId t;
     isProcessing := isProcessing t;
     autocompleteTimeout := i;
     selectedIndex := selectedIndex t |}.

Definition set_selectedIndex (i : Z) (t : Terminal) : Terminal :=
  {| terminalBody := terminalBody t;
     userInput_value := userInput_value t;
     userInput_disabled := userInput_disabled t;
     userInput_focused := userInput_focused t;
     autocompleteList_show := autocompleteList_show t;
     autocompleteList_items := autocompleteList_items t;
     sessionId := sessionId t;
     isProcessing := isProcessing t;
     autocompleteTimeout := autocompleteTimeout t;
     selectedIndex := i |}.

(** [userInput.focus()]: a disabled element does not take the focus. *)
Definition focus (t : Terminal) : Terminal :=
  if userInput_disabled t then t else set_userInput_focused true t.

(** The fixed texts of the source. *)
Definition prompt_user : string := "사용자>".
Definition prompt_adam : string := "아담>".
Definition no_response : string := "응답이 없습니다.".
Definition error_prefix : string := "오류가 발생했습니다: ".
Definition label_error : string := "오류:".
Definition label_session : string := "세션 생성 실패:".
Definition label_autocomplete : string := "자동완성 오류:".

(** Messages of the [TypeError]s and of the [URIError] the platform throws
    (wording of V8). *)
Definition forEach_not_function (what : string) : string :=
  (what ++ ".forEach is not a function")%string.
Definition cannot_convert : string := "Cannot convert object to primitive value".
Definition uri_malformed : string := "URI malformed".
Definition read_of_null (prop : string) : string :=
  ("Cannot read properties of null (reading '" ++ prop ++ "')")%string.
Definition json_syntax_error : string := "Unexpected token in JSON".

(** ** Display log: [addLine], [addTypingLine], [updateTypingLine],
    [removeTypingLine] *)

(** [addLine(text, className, images)], [images] being [null] ([None]) or a
    parsed value. The test [images.length > 0] throws when the length
    cannot be converted; [images.forEach] exists on arrays only; [img.src =
    imageUrl] converts each element to a string and throws at one that
    cannot be converted. The line is appended after the images were
    attached, so a call that throws leaves the log as it was.
    [scrollToBottom] has no part in the model. *)
Definition addLine (text className : string) (images : option json)
    (t : Terminal) : outcome Terminal :=
  let prompt :=
    if String.eqb className "output user" then prompt_user else prompt_adam in
  let append (imgs : list json) :=
    set_terminalBody
      (terminalBody t ++ [mkLine false prompt className text imgs]) t in
  match images with
  | None => Normal (append [])
  | Some v =>
      if truthy v then
        if length_throws v then Throws cannot_convert
        else if length_gt0 v then
          match v with
          | JArr l =>
              if forallb convertible l then Normal (append l)
              else Throws cannot_convert
          | _ => Throws (forEach_not_function "images")
          end
        else Normal (append [])
      else Normal (append [])
  end.

(** [addLine] without images, which cannot throw. *)
Definition addLine_plain (text className : string) (t : Terminal) : Terminal :=
  match addLine text className None t with
  | Normal t' => t'
  | Throws _ => t
  end.

Definition typing_line : Line := mkLine true prompt_adam "output" "" [].

Definition addTypingLine (t : Terminal) : Terminal :=
  set_terminalBody (terminalBody t ++ [typing_line]) t.

(** [getElementById('typing-output')] is the output span of the first line
    with the typing ids. *)
Fixpoint update_first_typing (text : string) (b : list Line) : list Line :=
  match b with
  | [] => []
  | l :: r =>
      if line_typing l
      then mkLine true (line_prompt l) (line_class l) text (line_images l) :: r
      else l :: update_first_typing text r
  end.

Definition updateTypingLine (text : string) (t : Terminal) : Terminal :=
  set_terminalBody (update_first_typing text (terminalBody t)) t.

Fixpoint remove_first_typing (b : list Line) : list Line :=
  match b with
  | [] => []
  | l :: r => if line_typing l then r else l :: remove_first_typing r
  end.

Definition removeTypingLine (t : Terminal) : Terminal :=
  set_terminalBody (remove_first_typing (terminalBody t)) t.

(** ** Autocomplete list: [showAutocomplete], [hideAutocomplete],
    [navigateAutocomplete] *)

Definition hideAutocomplete (t : Terminal) : Terminal :=
  set_selectedIndex (-1) (set_show false t).

(** [`${artwork.size || ''} ${artwork.year || ''}`.trim()] *)
Definition or_empty (v : jsval) : string :=
  match v with
  | Some j => if truthy j then toString j else ""
  | None => ""
  end.

Definition info_text (artwork : json) : string :=
  trim (or_empty (get "size" artwork) ++ " " ++ or_empty (get "year" artwork))%string.

(** [`${v || ''}`] throws: [v] is truthy and cannot be converted. *)
Definition or_empty_throws (v : jsval) : bool :=
  match v with
  | Some j => truthy j && negb (convertible j)
  | None => false
  end.

(** Building the item of [artwork] throws a [TypeError] for a name, or a
    truthy size or year, that cannot be converted to a string. *)
Definition item_throws (artwork : json) : bool :=
  negb (convertible_val (get "name" artwork))
  || or_empty_throws (get "size" artwork)
  || or_empty_throws (get "year" artwork).

(** The body of [artworks.forEach]: one item appended for each artwork;
    reading [artwork.name] of a [null] element throws, and so does the
    conversion of a name, size or year that cannot be converted, the items
    appended so far staying in the list. The result is the state left
    behind and the message of the error thrown, if any. *)
Fixpoint append_items (artworks : list json) (t : Terminal) : Terminal * option string :=
  match artworks with
  | [] => (t, None)
  | JNull :: _ => (t, Some (read_of_null "name"))
  | a :: r =>
      if item_throws a then (t, Some cannot_convert)
      else
        append_items r
          (set_items (autocompleteList_items t
                      ++ [mkItem (get "name" a) (info_text a) false]) t)
  end.

(** [showAutocomplete(artworks)]; [forEach] exists on arrays only. *)
Definition showAutocomplete (artworks : json) (t : Terminal) : Terminal * option string :=
  let t1 := set_selectedIndex (-1) (set_items [] t) in
  match artworks with
  | JArr l =>
      match append_items l t1 with
      | (t2, None) => (set_show true t2, None)
      | (t2, Some m) => (t2, Some m)
      end
  | _ => (t1, Some (forEach_not_function "artworks"))
  end.

(** [items[i].classList.add/remove('selected')] *)
Fixpoint set_selected (i : nat) (b : bool) (items : list Item) : list Item :=
  match items, i with
  | [], _ => []
  | x :: r, 0 => mkItem (item_artwork_name x) (item_info x) b :: r
  | x :: r, S i' => x :: set_selected i' b r
  end.

Definition navigateAutocomplete (direction : Z) (t : Terminal) : Terminal :=
  let items := autocompleteList_items t in
  let len := Z.of_nat (List.length items) in
  if (len =? 0)%Z then t
  else
    let items1 :=
      if ((0 <=? selectedIndex t) && (selectedIndex t <? len))%Z
      then set_selected (Z.to_nat (selectedIndex t)) false items
      else items in
    let i1 := (selectedIndex t + direction)%Z in
    let i2 := if (i1 <? 0)%Z then (len - 1)%Z else i1 in
    let i3 := if (i2 >=? len)%Z then 0%Z else i2 in
    set_selectedIndex i3 (set_items (set_selected (Z.to_nat i3) true items1) t).

(** [items[this.selectedIndex]] *)
Definition item_at (i : Z) (items : list Item) : option Item :=
  if (i <? 0)%Z then None else nth_error items (Z.to_nat i).

(** What [item.dataset.name] reads after [item.dataset.name = v], and the
    string [userInput.value = v] passes to the element. *)
Definition dataset_string (v : jsval) : string :=
  match v with
  | None => "undefined"
  | Some j => toString j
  end.

Definition value_string (v : jsval) : string :=
  match v with
  | None => "undefined"
  | Some JNull => ""
  | Some j => toString j
  end.

(** [userInput.value = v] for a string [v]: the element keeps the
    sanitized value. *)
Definition assign_userInput_value (v : string) (t : Terminal) : Terminal :=
  set_userInput_value (strip_newlines v) t.

(** ** The streaming loop of [handleInput] *)

Module Decoder.

(** The locals [fullResponse] and [imageUrls]. *)
Record Acc := mkAcc {
  fullResponse : string;
  imageUrls : json
}.

Definition acc0 : Acc := mkAcc "" (JArr []).

(** [fullResponse += json.token] throws: the token is truthy and cannot
    be converted to a string. *)
Definition token_throws (j : json) : bool :=
  match get "token" j with
  | Some tok => truthy tok && negb (convertible tok)
  | None => false
  end.

(** The statements inside the inner [try] for a parsed record [j]: the
    state after them and whether [break] was reached. Reading [json.token]
    of [null] throws, and so does appending a token that cannot be
    converted; the [catch] swallows the error before anything was done,
    and the rest of the record is not looked at. *)
Definition process_record (j : json) (s : Acc * Terminal) : (Acc * Terminal) * bool :=
  match j with
  | JNull => (s, false)
  | _ =>
      if token_throws j then (s, false)
      else
        let (a, t) := s in
        let s1 :=
          match get "token" j with
          | Some tok =>
              if truthy tok then
                let full := (fullResponse a ++ toString tok)%string in
                (mkAcc full (imageUrls a), updateTypingLine full t)
              else (a, t)
          | None => (a, t)
          end in
        let s2 :=
          match get "images" j with
          | Some imgs =>
              if truthy imgs then (mkAcc (fullResponse (fst s1)) imgs, snd s1)
              else s1
          | None => s1
          end in
        (s2, truthy_val (get "done" j))
  end.

(** The body of the [for] loop for one line. *)
Definition process_line (line : string) (s : Acc * Terminal) : (Acc * Terminal) * bool :=
  if startsWith "data: " line then
    let data := slice 6 line in
    if negb (is_empty (trim data)) then
      match JSON_parse data with
      | Some j => process_record j s
      | None => (s, false)
      end
    else (s, false)
  else (s, false).

(** [for (const line of lines) { ... break ... }] *)
Fixpoint process_lines (lines : list string) (s : Acc * Terminal) : Acc * Terminal :=
  match lines with
  | [] => s
  | line :: rest =>
      let (s', stop) := process_line line s in
      if stop then s' else process_lines rest s'
  end.

(** One round of the [while] loop, for the bytes [value] read. *)
Definition process_chunk (value : string) (s : Acc * Terminal) : Acc * Terminal :=
  let chunk := TextDecoder_decode value in
  process_lines (split_lines chunk) s.

(** [while (true) { read; if (done) break; ... }] over the chunks the
    reader delivers before it signals the end: the state after the loop and
    the number of chunks read. *)
Fixpoint read_loop (chunks : list string) (s : Acc * Terminal) : (Acc * Terminal) * nat :=
  match chunks with
  | [] => (s, 0)
  | c :: rest =>
      let (s', n) := read_loop rest (process_chunk c s) in
      (s', S n)
  end.

(** *** The loop seen as a decoder feeding an aggregator *)

Inductive StreamEvent :=
| Token (text : string)
| Images (list_ : json)
| Done.

(** The events of one parsed record, in the order the source tests its
    fields. *)
Definition record_events (j : json) : list StreamEvent :=
  match j with
  | JNull => []
  | _ =>
    if token_throws j then []
    else
      (match get "token" j with
       | Some tok => if truthy tok then [Token (toString tok)] else []
       | None => []
       end
       ++ match get "images" j with
          | Some imgs => if truthy imgs then [Images imgs] else []
          | None => []
          end
       ++ if truthy_val (get "done" j) then [Done] else [])%list
  end.

Definition line_events (line : string) : list StreamEvent :=
  if startsWith "data: " line then
    let data := slice 6 line in
    if negb (is_empty (trim data)) then
      match JSON_parse data with
      | Some j => record_events j
      | None => []
      end
    else []
  else [].

Definition is_Done (e : StreamEvent) : bool :=
  match e with Done => true | _ => false end.

(** The events of the lines of one chunk: those up to the first [Done]. *)
Fixpoint lines_events (lines : list string) : list StreamEvent :=
  match lines with
  | [] => []
  | line :: rest =>
      let es := line_events line in
      if existsb is_Done es then es else (es ++ lines_events rest)%list
  end.

Definition chunk_events (value : string) : list StreamEvent :=
  lines_events (split_lines (TextDecoder_decode value)).

(** The events of a body delivered as [chunks]. *)
Definition stream_events (chunks : list string) : list StreamEvent :=
  flat_map chunk_events chunks.

(** The aggregator: what the loop does on each event. *)
Definition aggregate_event (s : Acc * Terminal) (e : StreamEvent) : Acc * Terminal :=
  let (a, t) := s in
  match e with
  | Token text =>
      let full := (fullResponse a ++ text)%string in
      (mkAcc full (imageUrls a), updateTypingLine full t)
  | Images v => (mkAcc (fullResponse a) v, t)
  | Done => (a, t)
  end.

Definition aggregate (es : list StreamEvent) (s : Acc * Terminal) : Acc * Terminal :=
  fold_left aggregate_event es s.

(** The texts of the [Token] events, concatenated in order. *)
Fixpoint tokens_text (es : list StreamEvent) : string :=
  match es with
  | [] => ""
  | Token text :: r => (text ++ tokens_text r)%string
  | _ :: r => tokens_text r
  end.

(** The list of the last [Images] event, [d] when there is none. *)
Fixpoint last_images (es : list StreamEvent) (d : json) : json :=
  match es with
  | [] => d
  | Images v :: r => last_images r v
  | _ :: r => last_images r d
  end.

End Decoder.
Import Decoder.

(** ** [handleInput] *)

(** The body of the chat request, [JSON.stringify({message, session_id})],
    by its members; [stringify] leaves out a member whose value is
    [undefined]. *)
Record ChatRequest := mkChatRequest {
  req_message : string;
  req_session_id : jsval
}.

(** How the request ends. The body of a response is the chunks of bytes
    its reader delivers, followed by the end of the stream or by a read
    that fails. *)
Inductive ReadEnd :=
| Eof
| ReadFails (message : string).

Record Body := mkBody {
  body_chunks : list string;
  body_end : ReadEnd
}.

Inductive ChatOutcome :=
| FetchRejected (message : string)
| Responded (status : nat) (body : option Body).

(** [response.ok] *)
Definition status_ok (status : nat) : bool := (200 <=? status) && (status <=? 299).

(** The statements before the first [await]: [None] when the guard
    returns, else the terminal at the time the request is sent, and the
    request. *)
Definition handleInput_begin (t : Terminal) : option (Terminal * ChatRequest) :=
  let message := trim (userInput_value t) in
  if is_empty message || isProcessing t then None
  else
    let t1 := addLine_plain message "output user" t in
    let t2 := set_userInput_value "" t1 in
    let t3 := set_isProcessing true t2 in
    let t4 := set_userInput_disabled true t3 in
    let t5 := addTypingLine t4 in
    Some (t5, mkChatRequest message (sessionId t)).

(** The rest of the [try] block, from the point the [fetch] settles: the
    state it leaves, the message of the error it throws if any, and the
    number of chunks read from the body. *)
Record TryResult := mkTry {
  try_state : Terminal;
  try_thrown : option string;
  try_reads : nat
}.

Definition handleInput_try (o : ChatOutcome) (t : Terminal) : TryResult :=
  match o with
  | FetchRejected m => mkTry t (Some m) 0
  | Responded status body =>
      if negb (status_ok status) then
        mkTry t (Some ("HTTP error! status: " ++ nat_to_string status)%string) 0
      else
        match body with
        | None => mkTry t (Some (read_of_null "getReader")) 0
        | Some b =>
            let '(a, t1, n) := read_loop (body_chunks b) (acc0, t) in
            match body_end b with
            | ReadFails m => mkTry t1 (Some m) n
            | Eof =>
                let t2 := removeTypingLine t1 in
                let text :=
                  if is_empty (fullResponse a) then no_response
                  else fullResponse a in
                if length_throws (imageUrls a)
                then mkTry t2 (Some cannot_convert) n
                else
                  let images :=
                    if length_gt0 (imageUrls a) then Some (imageUrls a)
                    else None in
                  match addLine text "output" images t2 with
                  | Normal t3 => mkTry t3 None n
                  | Throws m => mkTry t2 (Some m) n
                  end
            end
        end
  end.

(** [catch (error) { ... }] *)
Definition handleInput_catch (message : string) (t : Terminal) : Terminal :=
  addLine_plain (error_prefix ++ message)%string "output error" (removeTypingLine t).

(** [finally { ... }] *)
Definition handleInput_finally (t : Terminal) : Terminal :=
  focus (set_userInput_disabled false (set_isProcessing false t)).

(** From the point the [fetch] settles to the end of [handleInput]: the
    final state and what was written to the console. *)
Definition handleInput_end (o : ChatOutcome) (t : Terminal)
  : Terminal * list (string * string) :=
  let r := handleInput_try o t in
  match try_thrown r with
  | None => (handleInput_finally (try_state r), [])
  | Some m =>
      (handleInput_finally (handleInput_catch m (try_state r)),
       [(label_error, m)])
  end.

(** ** [createSession] and the fetch of suggestions *)

(** How a [fetch] followed by [response.json()] ends: the fetch is
    rejected, or a response arrives with a status and a text. *)
Inductive FetchReply :=
| Rejected (message : string)
| Replied (status : nat) (text : string).

(** [createSession], from the point its [fetch] settles. The status of the
    response is not looked at. *)
Definition createSession_end (r : FetchReply) (t : Terminal)
  : Terminal * list (string * string) :=
  match r with
  | Rejected m => (t, [(label_session, m)])
  | Replied _ text =>
      match JSON_parse text with
      | None => (t, [(label_session, json_syntax_error)])
      | Some JNull => (t, [(label_session, read_of_null "session_id")])
      | Some data => (set_sessionId (get "session_id" data) t, [])
      end
  end.

(** [APIClient.createSession] of the API client utilities, from the point
    its [fetch] settles: the parsed body, or the error thrown. *)
Definition APIClient_createSession (r : FetchReply) : outcome json :=
  match r with
  | Rejected m => Throws m
  | Replied status text =>
      if negb (status_ok status) then
        Throws ("HTTP error! status: " ++ nat_to_string status)%string
      else
        match JSON_parse text with
        | Some data => Normal data
        | None => Throws json_syntax_error
        end
  end.

(** The callback of the debounce timer, from the point its [fetch]
    settles. *)
Definition autocomplete_end (r : FetchReply) (t : Terminal)
  : Terminal * list (string * string) :=
  let caught (m : string) (t' : Terminal) :=
    (hideAutocomplete t', [(label_autocomplete, m)]) in
  match r with
  | Rejected m => caught m t
  | Replied _ text =>
      match JSON_parse text with
      | None => caught json_syntax_error t
      | Some JNull => caught (read_of_null "artworks") t
      | Some data =>
          match get "artworks" data with
          | Some artworks =>
              if truthy artworks && length_throws artworks
              then caught cannot_convert t
              else if truthy artworks && length_gt0 artworks then
                match showAutocomplete artworks t with
                | (t', None) => (t', [])
                | (t', Some m) => caught m t'
                end
              else (hideAutocomplete t, [])
          | None => (hideAutocomplete t, [])
          end
      end
  end.

(** ** The terminal in the browser: timers, requests, events *)

Inductive Callback :=
| AutocompleteFetch (query : string)   (* the callback set by handleAutocomplete *)
| BlurGrace.                           (* the callback set by the blur listener *)

Record Timer := mkTimer {
  timer_id : nat;
  timer_due : nat;
  timer_callback : Callback
}.

(** [fired] lists the timers whose callback has run, last first;
    [fetches] the suggestion requests in flight with their query;
    [chat_log] every chat request sent, first first; [console] the calls of
    [console.error], first first. *)
Record World := mkWorld {
  term : Terminal;
  clock : nat;
  next_timer : nat;
  timers : list Timer;
  fired : list nat;
  next_fetch : nat;
  fetches : list (nat * string);
  session_pending : bool;
  chat_log : list ChatRequest;
  console : list (string * string)
}.

Definition with_term (t : Terminal) (w : World) : World :=
  {| term := t;
     clock := clock w;
     next_timer := next_timer w;
     timers := timers w;
     fired := fired w;
     next_fetch := next_fetch w;
     fetches := fetches w;
     session_pending := session_pending w;
     chat_log := chat_log w;
     console := console w |}.

Definition log_errors (es : list (string * string)) (w : World) : World :=
  {| term := term w;
     clock := clock w;
     next_timer := next_timer w;
     timers := timers w;
     fired := fired w;
     next_fetch := next_fetch w;
     fetches := fetches w;
     session_pending := session_pending w;
     chat_log := chat_log w;
     console := console w ++ es |}.

(** [setTimeout(callback, delay)]: the id of the new timer and the world with
    the timer pending. *)
Definition setTimeout (cb : Callback) (delay : nat) (w : World) : nat * World :=
  (next_timer w,
   {| term := term w;
      clock := clock w;
      next_timer := S (next_timer w);
      timers := timers w ++ [mkTimer (next_timer w) (clock w + delay) cb];
      fired := fired w;
      next_fetch := next_fetch w;
      fetches := fetches w;
      session_pending := session_pending w;
      chat_log := chat_log w;
      console := console w |}).

(** [clearTimeout(id)]; [id] is [null] ([None]) or the id of a timer. *)
Definition clearTimeout (id : option nat) (w : World) : World :=
  match id with
  | None => w
  | Some i =>
      {| term := term w;
         clock := clock w;
         next_timer := next_timer w;
         timers := filter (fun tm => negb (timer_id tm =? i)) (timers w);
         fired := fired w;
         next_fetch := next_fetch w;
         fetches := fetches w;
         session_pending := session_pending w;
         chat_log := chat_log w;
         console := console w |}
  end.

(** The debounce delay and the grace delay of the blur listener. *)
Definition debounce_ms : nat := 300.
Definition blur_ms : nat := 200.

Definition handleAutocomplete (w : World) : World :=
  let query := trim (userInput_value (term w)) in
  if String.length query <? 1 then with_term (hideAutocomplete (term w)) w
  else
    let w1 := clearTimeout (autocompleteTimeout (term w)) w in
    let (id, w2) := setTimeout (AutocompleteFetch query) debounce_ms w1 in
    with_term (set_autocompleteTimeout (Some id) (term w2)) w2.

(** [handleInput], up to its first [await]: the request is sent. *)
Definition handleInput (w : World) : World :=
  match handleInput_begin (term w) with
  | None => w
  | Some (t, req) =>
      {| term := t;
         clock := clock w;
         next_timer := next_timer w;
         timers := timers w;
         fired := fired w;
         next_fetch := next_fetch w;
         fetches := fetches w;
         session_pending := session_pending w;
         chat_log := chat_log w ++ [req];
         console := console w |}
  end.

(** The value of [e.key]. *)
Inductive Key :=
| Enter
| ArrowDown
| ArrowUp
| Escape
| OtherKey.

(** The [keypress] listener. *)
Definition on_keypress (k : Key) (w : World) : World :=
  let t := term w in
  match k with
  | Enter =>
      if negb (isProcessing t) then
        if autocompleteList_show t then
          match item_at (selectedIndex t) (autocompleteList_items t) with
          | Some it =>
              let name := dataset_string (item_artwork_name it) in
              handleInput
                (with_term (hideAutocomplete (assign_userInput_value name t)) w)
          | None => w
          end
        else handleInput w
      else w
  | ArrowDown => with_term (navigateAutocomplete 1 t) w
  | ArrowUp => with_term (navigateAutocomplete (-1) t) w
  | Escape => with_term (hideAutocomplete t) w
  | OtherKey => w
  end.

(** The [blur] listener. *)
Definition on_blur (w : World) : World := snd (setTimeout BlurGrace blur_ms w).

(** The [click] listener of the [i]-th item. *)
Definition on_item_click (i : nat) (w : World) : World :=
  match nth_error (autocompleteList_items (term w)) i with
  | Some it =>
      with_term
        (focus (hideAutocomplete
                  (assign_userInput_value (value_string (item_artwork_name it))
                     (term w)))) w
  | None => w
  end.

(** The callback of a timer. [encodeURIComponent(query)] throws a
    [URIError] on a lone surrogate: the [catch] logs it and hides the list,
    and no request is sent. *)
Definition run_callback (cb : Callback) (w : World) : World :=
  match cb with
  | BlurGrace =>
      if negb (isProcessing (term w))
      then with_term (focus (hideAutocomplete (term w))) w
      else w
  | AutocompleteFetch query =>
      if lone_surrogate query then
        log_errors [(label_autocomplete, uri_malformed)]
          (with_term (hideAutocomplete (term w)) w)
      else
        {| term := term w;
           clock := clock w;
           next_timer := next_timer w;
           timers := timers w;
           fired := fired w;
           next_fetch := S (next_fetch w);
           fetches := fetches w ++ [(next_fetch w, query)];
           session_pending := session_pending w;
           chat_log := chat_log w;
           console := console w |}
  end.

Definition find_timer (id : nat) (w : World) : option Timer :=
  find (fun tm => timer_id tm =? id) (timers w).

(** A pending timer that is due runs and is pending no more. *)
Definition fire (id : nat) (w : World) : World :=
  match find_timer id w with
  | Some tm =>
      if timer_due tm <=? clock w then
        run_callback (timer_callback tm)
          {| term := term w;
             clock := clock w;
             next_timer := next_timer w;
             timers := filter (fun x => negb (timer_id x =? id)) (timers w);
             fired := id :: fired w;
             next_fetch := next_fetch w;
             fetches := fetches w;
             session_pending := session_pending w;
             chat_log := chat_log w;
             console := console w |}
      else w
  | None => w
  end.

Definition tick (ms : nat) (w : World) : World :=
  {| term := term w;
     clock := clock w + ms;
     next_timer := next_timer w;
     timers := timers w;
     fired := fired w;
     next_fetch := next_fetch w;
     fetches := fetches w;
     session_pending := session_pending w;
     chat_log := chat_log w;
     console := console w |}.

(** The reply to the suggestion request [fid], if it is in flight. *)
Definition on_autocomplete_reply (fid : nat) (r : FetchReply) (w : World) : World :=
  if existsb (fun f => fst f =? fid) (fetches w) then
    let (t, es) := autocomplete_end r (term w) in
    {| term := t;
       clock := clock w;
       next_timer := next_timer w;
       timers := timers w;
       fired := fired w;
       next_fetch := next_fetch w;
       fetches := filter (fun f => negb (fst f =? fid)) (fetches w);
       session_pending := session_pending w;
       chat_log := chat_log w;
       console := console w ++ es |}
  else w.

(** The reply to the request of [createSession], if it is awaited. *)
Definition on_session_reply (r : FetchReply) (w : World) : World :=
  if session_pending w then
    let (t, es) := createSession_end r (term w) in
    {| term := t;
       clock := clock w;
       next_timer := next_timer w;
       timers := timers w;
       fired := fired w;
       next_fetch := next_fetch w;
       fetches := fetches w;
       session_pending := false;
       chat_log := chat_log w;
       console := console w ++ es |}
  else w.

(** The chat request in flight runs to its end. The rounds of the streaming
    loop touch the locals and the typing line only, which no other listener
    touches, so the loop is taken in one step. *)
Definition on_chat_reply (o : ChatOutcome) (w : World) : World :=
  if isProcessing (term w) then
    let (t, es) := handleInput_end o (term w) in
    log_errors es (with_term t w)
  else w.

(** What happens to the page. *)
Inductive Event :=
| KeyPress (k : Key)
| InputEdit (value : string)   (* the user changes the text of the input *)
| Blur
| ItemClick (i : nat)
| Tick (ms : nat)
| TimerFire (id : nat)
| AutocompleteReply (fid : nat) (r : FetchReply)
| SessionReply (r : FetchReply)
| ChatReply (o : ChatOutcome).

Definition step (w : World) (e : Event) : World :=
  match e with
  | KeyPress k => on_keypress k w
  | InputEdit v => handleAutocomplete (with_term (set_userInput_value v (term w)) w)
  | Blur => on_blur (with_term (set_userInput_focused false (term w)) w)
  | ItemClick i => on_item_click i w
  | Tick ms => tick ms w
  | TimerFire id => fire id w
  | AutocompleteReply fid r => on_autocomplete_reply fid r w
  | SessionReply r => on_session_reply r w
  | ChatReply o => on_chat_reply o w
  end.

Definition run (w : World) (es : list Event) : World := fold_left step es w.

(** [new Terminal()] on page load: the fields of the constructor, and
    [init] sending the create-session request. *)
Definition new_World : World :=
  {| term := new_Terminal;
     clock := 0;
     next_timer := 1;
     timers := [];
     fired := [];
     next_fetch := 1;
     fetches := [];
     session_pending := true;
     chat_log := [];
     console := [] |}.

(** ** Vocabulary of the properties *)

(** *** Streams *)

(** The chunks put end to end: the bytes of the body as one chunk. *)
Definition join_chunks (chunks : list string) : string := String.concat "" chunks.

(** The text cut after every byte. *)
Fixpoint each_byte (s : string) : list string :=
  match s with
  | "" => []
  | String c r => String c "" :: each_byte r
  end.

Fixpoint ends_LF (s : string) : bool :=
  match s with
  | "" => false
  | String c "" => Ascii.eqb c LF
  | String _ r => ends_LF r
  end.

(** A chunk that may be followed by another without a line being cut or a
    [done] record being passed: it is empty or ends with a line feed, and
    none of its records has a truthy [done]. *)
Definition closed_chunk (c : string) : bool :=
  (is_empty c || ends_LF c) && negb (existsb is_Done (chunk_events c)).

(** The bytes of U+FEFF, the byte order mark. *)
Definition BOM : string := String "239" (String "187" (String "191" "")).

(** The chunk does not start with a byte order mark. *)
Definition no_BOM (c : string) : bool :=
  match Utf8.code_points c with
  | cp :: _ => negb (cp =? 65279)%N
  | [] => true
  end.

(** Every chunk but the last is closed, and no chunk but the first starts
    with a byte order mark. *)
Fixpoint line_aligned (chunks : list string) : bool :=
  match chunks with
  | [] => true
  | c :: rest =>
      match rest with
      | [] => true
      | d :: _ => closed_chunk c && no_BOM d && line_aligned rest
      end
  end.

(** The [token] member of the record on [line], if there is one, is a
    string, as the chat interface has it. *)
Definition token_is_string (line : string) : bool :=
  if startsWith "data: " line then
    match JSON_parse (slice 6 line) with
    | Some j =>
        match get "token" j with
        | Some (JStr _) => true
        | Some _ => false
        | None => true
        end
    | None => true
    end
  else true.

Definition string_tokens (chunks : list string) : bool :=
  forallb (fun c => forallb token_is_string
                      (split_lines (TextDecoder_decode c))) chunks.

Definition is_Token (e : StreamEvent) : bool :=
  match e with Token _ => true | _ => false end.

(** The events of a record as the spec words them (4.1), to compare with
    [record_events]: a record with a [token] field yields a [Token] event
    carrying that field's value, a record with an [images] field an
    [Images] event, a record with a truthy [done] field a [Done] event. *)
Definition spec_record_events (j : json) : list StreamEvent :=
  (match get "token" j with
   | Some tok => [Token (toString tok)]
   | None => []
   end
   ++ match get "images" j with
      | Some imgs => [Images imgs]
      | None => []
      end
   ++ if truthy_val (get "done" j) then [Done] else [])%list.

(** The text of the committed entry for the events [es]. *)
Definition committed_text (es : list StreamEvent) : string :=
  if is_empty (tokens_text es) then no_response else tokens_text es.

(** A successful response delivering [chunks]. *)
Definition streamed (chunks : list string) : ChatOutcome :=
  Responded 200 (Some (mkBody chunks Eof)).

(** *** Display log *)

(** The committed entry: an [output] line of the assistant. *)
Definition committed_line (text : string) (images : list json) : Line :=
  mkLine false prompt_adam "output" text images.

(** The error entry for a failure described by [message]. *)
Definition error_line (message : string) : Line :=
  mkLine false prompt_adam "output error" (error_prefix ++ message)%string [].

(** The entry showing the message of the user. *)
Definition user_line (message : string) : Line :=
  mkLine false prompt_user "output user" message [].

(** The number of typing lines in a log. *)
Definition typing_lines (b : list Line) : nat :=
  List.length (filter line_typing b).

(** [t'] differs from [t] in the display log at most. *)
Definition log_only (t t' : Terminal) : Prop :=
  set_terminalBody (terminalBody t) t' = t.

(** *** Submissions *)

(** A terminal in the middle of a submission, on an otherwise empty log. *)
Definition awaiting_reply : Terminal :=
  set_userInput_disabled true
    (set_isProcessing true (addTypingLine new_Terminal)).

Definition is_Enter (e : Event) : bool :=
  match e with KeyPress Enter => true | _ => false end.

Definition is_ChatReply (e : Event) : bool :=
  match e with ChatReply _ => true | _ => false end.

(** The failures of a chat request before or during streaming, with their
    description: the fetch is rejected, the status is not a success, or a
    read of the body fails. *)
Definition failure_of (o : ChatOutcome) : option string :=
  match o with
  | FetchRejected m => Some m
  | Responded status body =>
      if negb (status_ok status)
      then Some ("HTTP error! status: " ++ nat_to_string status)%string
      else match body with
           | Some b => match body_end b with
                       | ReadFails m => Some m
                       | Eof => None
                       end
           | None => None
           end
  end.

(** The parts of a world a submission is about: the lock, the display log
    and the chat requests sent. *)
Definition submission_view (w : World) : bool * list Line * list ChatRequest :=
  (isProcessing (term w), terminalBody (term w), chat_log w).

(** The log holds one typing line while a chat request is in flight and
    none otherwise. *)
Definition log_ok (w : World) : bool :=
  typing_lines (terminalBody (term w))
  =? (if isProcessing (term w) then 1 else 0).

(** *** Autocomplete controller *)

(** The selection cursor lies in [-1, items.length - 1]. *)
Definition index_in_range (t : Terminal) : Prop :=
  (-1 <= selectedIndex t <= Z.of_nat (List.length (autocompleteList_items t)) - 1)%Z.

(** The state of the controller: open or closed, the items, the cursor. *)
Definition ac_state (t : Terminal) : bool * list Item * Z :=
  (autocompleteList_show t, autocompleteList_items t, selectedIndex t).

(** [t'] differs from [t] in the autocomplete list and cursor at most. *)
Definition controller_only (t t' : Terminal) : Prop :=
  t' = mkTerminal (terminalBody t) (userInput_value t) (userInput_disabled t)
         (userInput_focused t)
         (autocompleteList_show t') (autocompleteList_items t')
         (sessionId t) (isProcessing t) (autocompleteTimeout t)
         (selectedIndex t').

(** What a step may do to the controller: keep the cursor in range, and
    either leave the list open or closed as it was, or reset the cursor. *)
Definition controller_step (t t' : Terminal) : Prop :=
  (index_in_range t -> index_in_range t')
  /\ (autocompleteList_show t' = autocompleteList_show t
      \/ selectedIndex t' = (-1)%Z).

(** The example of the spec: the user types [M]; the debounce timer fires
    and the server answers with one artwork. Then the user moves the cursor
    down to it. *)
Definition mona_reply : FetchReply :=
  Replied 200 (jsrc "{'artworks':[{'name':'Mona Lisa','year':'1503'}]}").

Definition mona_open : World :=
  run new_World
    [InputEdit "M"; Tick 300; TimerFire 1; AutocompleteReply 1 mona_reply].

Definition mona_selected : World := step mona_open (KeyPress ArrowDown).

(** An artwork whose name ends with a space, offered and selected. *)
Definition padded_reply : FetchReply :=
  Replied 200 (jsrc "{'artworks':[{'name':'Mona Lisa '}]}").

Definition padded_selected : World :=
  run new_World
    [InputEdit "M"; Tick 300; TimerFire 1; AutocompleteReply 1 padded_reply;
     KeyPress ArrowDown].

(** *** Timers *)

Definition is_debounce (tm : Timer) : bool :=
  match timer_callback tm with
  | AutocompleteFetch _ => true
  | BlurGrace => false
  end.

Definition holds_id (o : option nat) (id : nat) : bool :=
  match o with
  | Some i => i =? id
  | None => false
  end.

(** Timer ids are below the next id to hand out, so is the id kept in
    [autocompleteTimeout], and a pending debounce timer is the one whose id
    [autocompleteTimeout] holds. *)
Definition timers_ok (w : World) : bool :=
  forallb (fun tm => timer_id tm <? next_timer w) (timers w)
  && match autocompleteTimeout (term w) with
     | Some i => i <? next_timer w
     | None => true
     end
  && forallb (fun tm => negb (is_debounce tm)
                        || holds_id (autocompleteTimeout (term w)) (timer_id tm))
       (timers w).

(** What the timers of a world are made of: the pending timers, the next
    id, the id kept by the terminal, the timers that ran. *)
Definition timer_view (w : World) : list Timer * nat * option nat * list nat :=
  (timers w, next_timer w, autocompleteTimeout (term w), fired w).

(** The timer with id [old] is not pending and its id will not be handed
    out again. *)
Definition retired (old : nat) (w : World) : bool :=
  (old <? next_timer w)
  && forallb (fun tm => negb (timer_id tm =? old)) (timers w).

(** What a step does to the timers: nothing, the debounce of an edit, the
    grace timer of a blur, or the run of a due timer. *)
Inductive timer_step (w w' : World) : Prop :=
| ts_same :
    timer_view w' = timer_view w -> timer_step w w'
| ts_debounce (query : string) :
    timer_view w'
    = ((timers (clearTimeout (autocompleteTimeout (term w)) w)
        ++ [mkTimer (next_timer w) (clock w + 300) (AutocompleteFetch query)])%list,
       S (next_timer w), Some (next_timer w), fired w) ->
    timer_step w w'
| ts_blur :
    timer_view w'
    = ((timers w ++ [mkTimer (next_timer w) (clock w + 200) BlurGrace])%list,
       S (next_timer w), autocompleteTimeout (term w), fired w) ->
    timer_step w w'
| ts_fire (id : nat) (tm : Timer) :
    find_timer id w = Some tm ->
    timer_view w'
    = (filter (fun x => negb (timer_id x =? id)) (timers w),
       next_timer w, autocompleteTimeout (term w), id :: fired w) ->
    timer_step w w'.

(** *** Highlight of the list *)

(** From position [i] on, the items carrying the class [selected] are
    exactly the one at the cursor. *)
Fixpoint marks_from (i : nat) (cursor : Z) (items : list Item) : bool :=
  match items with
  | [] => true
  | x :: r =>
      Bool.eqb (item_selected x) (Z.of_nat i =? cursor)%Z
      && marks_from (S i) cursor r
  end.

(** While the list is open its highlight is on the item at the cursor and
    on no other. *)
Definition highlight_ok (t : Terminal) : bool :=
  negb (autocompleteList_show t)
  || marks_from 0 (selectedIndex t) (autocompleteList_items t).

(** The item [showAutocomplete] builds for an artwork. *)
Definition item_of (artwork : json) : Item :=
  mkItem (get "name" artwork) (info_text artwork) false.

Definition is_null (v : json) : bool :=
  match v with JNull => true | _ => false end.

(** The error [forEach] ends with, if any: that of the first artwork
    that is [null] or whose item cannot be built. *)
Fixpoint first_failure (l : list json) : option string :=
  match l with
  | [] => None
  | a :: r =>
      if is_null a then Some (read_of_null "name")
      else if item_throws a then Some cannot_convert
      else first_failure r
  end.

(** The artworks before that one. *)
Fixpoint before_failure (l : list json) : list json :=
  match l with
  | [] => []
  | a :: r => if is_null a || item_throws a then [] else a :: before_failure r
  end.

(** A value that is absent, [null], a boolean, a string, or an integer
    written by at most 15 digits: such a value converts to a string, and
    the string is the one [toString] gives. *)
Definition plain_value (v : jsval) : bool :=
  match v with
  | None => true
  | Some JNull => true
  | Some (JBool _) => true
  | Some (JStr _) => true
  | Some (JNum n) =>
      is_empty (num_frac n)
      && match num_exp n with None => true | Some _ => false end
      && (String.length (num_int n) <=? 15)
  | Some _ => false
  end.

(** An artwork other than [null] whose name, size and year are plain. *)
Definition plain_artwork (a : json) : bool :=
  negb (is_null a)
  && plain_value (get "name" a)
  && plain_value (get "size" a)
  && plain_value (get "year" a).

(** *** Values assigned to the input *)

(** The text holds no line feed and no carriage return: the input keeps
    it as it is. *)
Fixpoint no_line_break (s : string) : bool :=
  match s with
  | "" => true
  | String c r => negb (is_line_break c) && no_line_break r
  end.

(** *** Entries of the log *)

(** The lines of a log other than typing lines: the entries. *)
Definition settled (b : list Line) : list Line :=
  filter (fun l => negb (line_typing l)) b.

(** The text the first typing line of a log shows. *)
Fixpoint typing_text (b : list Line) : option string :=
  match b with
  | [] => None
  | l :: r => if line_typing l then Some (line_text l) else typing_text r
  end.

(** The input is disabled exactly when the lock is taken. *)
Definition lock_ok (t : Terminal) : bool :=
  Bool.eqb (userInput_disabled t) (isProcessing t).

Definition is_SessionReply (e : Event) : bool :=
  match e with SessionReply _ => true | _ => false end.

(** The log holds two entries for each chat request sent, the message and
    the answer, less the answer that is still awaited. *)
Definition entries_ok (w : World) : bool :=
  List.length (settled (terminalBody (term w)))
  + (if isProcessing (term w) then 1 else 0)
  =? 2 * List.length (chat_log w).

(** The pending timers have distinct ids. *)
Definition distinct_ids (w : World) : Prop :=
  NoDup (map timer_id (timers w)).

(** What the items of a list show, the highlight apart. *)
Definition item_labels (items : list Item) : list (jsval * string) :=
  map (fun x => (item_artwork_name x, item_info x)) items.

(** ** Tactics *)

(** Unfolds the setters and getters of [Terminal]. *)
Ltac unfold_fields :=
  cbv [addTypingLine updateTypingLine removeTypingLine hideAutocomplete focus
       set_terminalBody set_userInput_value set_userInput_disabled
       set_userInput_focused set_show set_items set_sessionId
       set_isProcessing set_autocompleteTimeout set_selectedIndex
       terminalBody userInput_value userInput_disabled userInput_focused
       autocompleteList_show autocompleteList_items sessionId isProcessing
       autocompleteTimeout selectedIndex user_line typing_line
       handleInput_finally handleInput_catch] in *.

(** Closes a goal that holds by computation once the fields of the world
    [w] are named. *)
Ltac world_refl w :=
  destruct w as [[? ? [|] ? ? ? ? ? ? ?] ? ? ? ? ? ? ? ? ?]; reflexivity.

(** * Properties *)

(** ** The platform functions on sample inputs *)

Module PlatformExamples.

Example split_keeps_every_segment :
  split_lines ("a" ++ nl ++ nl ++ "b")%string = ["a"; ""; "b"].
Proof. reflexivity. Qed.

Example split_after_the_last_line_feed :
  split_lines ("a" ++ nl)%string = ["a"; ""].
Proof. reflexivity. Qed.

Example split_of_nothing : split_lines "" = [""].
Proof. reflexivity. Qed.

Example trim_both_ends : trim ("  a b " ++ nl)%string = "a b".
Proof. reflexivity. Qed.

Example trim_of_white_space : trim "   " = "".
Proof. reflexivity. Qed.

Example slice_after_the_marker :
  slice 6 (jsrc "data: {'done':true}") = jsrc "{'done':true}".
Proof. reflexivity. Qed.

Example parse_record :
  JSON_parse (jsrc " {'token': 'Hi', 'done': false} ")
  = Some (JObj [("token", JStr "Hi"); ("done", JBool false)]).
Proof. reflexivity. Qed.

Example parse_nested :
  JSON_parse (jsrc "{'images':['a.png',['b'],{}],'n':null}")
  = Some (JObj [("images", JArr [JStr "a.png"; JArr [JStr "b"]; JObj []]);
                ("n", JNull)]).
Proof. reflexivity. Qed.

Example parse_number_parts :
  JSON_parse "-12.50e+3" = Some (JNum (mkNum true "12" "50" (Some (false, "3")))).
Proof. reflexivity. Qed.

Example parse_escapes :
  JSON_parse (jsrc "'a\n\u0041\/'") = Some (JStr ("a" ++ nl ++ "A/")%string).
Proof. reflexivity. Qed.

Example parse_cut_record : JSON_parse (jsrc "{'tok") = None.
Proof. reflexivity. Qed.

Example parse_trailing_comma : JSON_parse "[1,]" = None.
Proof. reflexivity. Qed.

Example parse_leading_zero : JSON_parse "01" = None.
Proof. reflexivity. Qed.

Example parse_two_values : JSON_parse "true false" = None.
Proof. reflexivity. Qed.

Example parse_bare_key : JSON_parse "{a:1}" = None.
Proof. reflexivity. Qed.

Example last_member_wins :
  get "a" (JObj [("a", JBool true); ("b", JNull); ("a", JBool false)])
  = Some (JBool false).
Proof. reflexivity. Qed.

Example falsy_values :
  map truthy [JNull; JBool false; JStr ""; JNum (mkNum true "0" "00" None)]
  = [false; false; false; false].
Proof. reflexivity. Qed.

Example truthy_values :
  map truthy [JStr "0"; JArr []; JObj []; JNum (mkNum false "0" "5" None)]
  = [true; true; true; true].
Proof. reflexivity. Qed.

Example array_prints_joined :
  toString (JArr [JNum (mkNum false "1" "0" None); JNull; JStr "a";
                  JArr [JBool true; JObj []]])
  = "1,,a,true,[object Object]".
Proof. reflexivity. Qed.

Example status_prints_in_decimal : nat_to_string 404 = "404".
Proof. reflexivity. Qed.

Example decode_keeps_well_formed_text :
  TextDecoder_decode no_response = no_response.
Proof. vm_compute. reflexivity. Qed.

Example decode_drops_a_leading_mark :
  TextDecoder_decode (BOM ++ "a") = "a".
Proof. vm_compute. reflexivity. Qed.

Example decode_keeps_a_later_mark :
  TextDecoder_decode ("a" ++ BOM) = ("a" ++ BOM)%string.
Proof. vm_compute. reflexivity. Qed.

(** The first two of the three bytes of the euro sign, then [A]: one
    U+FFFD for the sequence left open, and the [A]. *)
Example decode_replaces_a_cut_sequence :
  TextDecoder_decode (String "226" (String "130" "A"))
  = (encode_code_points [Utf8.replacement] ++ "A")%string.
Proof. vm_compute. reflexivity. Qed.

Example input_strips_line_breaks :
  strip_newlines ("Mona" ++ nl ++ "Lisa") = "MonaLisa".
Proof. reflexivity. Qed.

(** U+D800 alone, and U+D800 followed by U+DC00. *)
Example lone_and_paired_surrogates :
  let high := String "237" (String "160" (String "128" "")) in
  let low := String "237" (String "176" (String "128" "")) in
  lone_surrogate high = true
  /\ lone_surrogate low = true
  /\ lone_surrogate (high ++ low) = false
  /\ lone_surrogate no_response = false.
Proof. vm_compute. repeat split. Qed.

Example underflow_reads_as_zero :
  option_map truthy (JSON_parse "1e-400") = Some false
  /\ option_map truthy (JSON_parse "2e-324") = Some false
  /\ option_map truthy (JSON_parse "3e-324") = Some true.
Proof. vm_compute. repeat split. Qed.

Example numbers_print_by_their_shortest_digits :
  map (fun text => option_map toString (JSON_parse text))
    ["1503"; "1.50"; "25e-1"; "-0"; "0.1"; "1e21"; "1e-7"; "0.000001";
     "9007199254740993"; "123456789012345680000"; "5e-324"; "2e-324";
     "1.7976931348623157e308"; "1e400"]
  = map Some
    ["1503"; "1.5"; "2.5"; "0"; "0.1"; "1e+21"; "1e-7"; "0.000001";
     "9007199254740992"; "123456789012345680000"; "5e-324"; "0";
     "1.7976931348623157e+308"; "Infinity"].
Proof. vm_compute. reflexivity. Qed.

Example own_toString_cannot_convert :
  option_map convertible (JSON_parse (jsrc "{'toString':1}")) = Some false
  /\ option_map convertible (JSON_parse (jsrc "[1,[{'toString':null}]]"))
     = Some false
  /\ option_map convertible (JSON_parse (jsrc "{'a':{'toString':1}}"))
     = Some true.
Proof. vm_compute. repeat split. Qed.

End PlatformExamples.

(** ** Stream decoder and response aggregator *)

Module StreamProps.

Lemma split_lines_not_nil (s : string) : split_lines s <> [].
Proof.
  destruct s as [|c r]; simpl; [discriminate|].
  destruct (Ascii.eqb c LF); [discriminate|].
  destruct (split_lines r); discriminate.
Qed.

(** A line feed separates the lines before it from the lines after it. *)
Lemma split_lines_app_LF (x y : string) :
  split_lines (x ++ String LF y) = (split_lines x ++ split_lines y)%list.
Proof.
  induction x as [|c x IH]; simpl.
  - reflexivity.
  - destruct (Ascii.eqb c LF).
    + now rewrite IH.
    + rewrite IH. pose proof (split_lines_not_nil x) as Hx.
      destruct (split_lines x) as [|h t]; [contradiction|reflexivity].
Qed.

Lemma ends_LF_inv (s : string) :
  ends_LF s = true -> exists x, s = (x ++ nl)%string.
Proof.
  induction s as [|c r IH]; simpl; [discriminate|].
  destruct r as [|d r'].
  - intros H. apply Ascii.eqb_eq in H. subst c. now exists "".
  - intros H. destruct (IH H) as [x Hx]. exists (String c x).
    simpl. now rewrite <- Hx.
Qed.

Lemma append_assoc (a b c : string) : ((a ++ b) ++ c = a ++ (b ++ c))%string.
Proof. induction a as [|x a IH]; simpl; [reflexivity|now rewrite IH]. Qed.

Lemma append_empty_r (a : string) : (a ++ "")%string = a.
Proof. induction a as [|x a IH]; simpl; [reflexivity|now rewrite IH]. Qed.

(** The [for] loop over two runs of lines: the second run is reached only
    if no record of the first broke out of the loop. *)
Lemma lines_events_app (l1 l2 : list string) :
  lines_events (l1 ++ l2)
  = if existsb is_Done (lines_events l1) then lines_events l1
    else (lines_events l1 ++ lines_events l2)%list.
Proof.
  induction l1 as [|l l1 IH]; simpl; [reflexivity|].
  destruct (existsb is_Done (line_events l)) eqn:Hl.
  - now rewrite Hl.
  - rewrite IH, existsb_app, Hl. simpl.
    destruct (existsb is_Done (lines_events l1)); [reflexivity|].
    now rewrite app_assoc.
Qed.

Lemma line_events_empty : line_events "" = [].
Proof. reflexivity. Qed.

(** After lines without a [done] record, the text that follows is split
    and decoded as if it stood alone. *)
Lemma lines_events_closed (c y : string) :
  ends_LF c = true ->
  existsb is_Done (lines_events (split_lines c)) = false ->
  lines_events (split_lines (c ++ y))
  = (lines_events (split_lines c) ++ lines_events (split_lines y))%list.
Proof.
  intros He Hdone.
  destruct (ends_LF_inv c He) as [x ->].
  unfold nl in *.
  rewrite append_assoc. simpl append.
  rewrite split_lines_app_LF in Hdone. simpl split_lines in Hdone.
  rewrite lines_events_app in Hdone. simpl lines_events in Hdone.
  rewrite !split_lines_app_LF, !lines_events_app.
  simpl split_lines. simpl (lines_events [""]).
  destruct (existsb is_Done (lines_events (split_lines x))) eqn:Hx.
  - congruence.
  - now rewrite app_nil_r.
Qed.

(** *** The decoder across a line feed *)

Lemma feed_app (st : Utf8.State) (a b : string) :
  Utf8.feed st (a ++ b)
  = let (o1, s1) := Utf8.feed st a in
    let (o2, s2) := Utf8.feed s1 b in
    ((o1 ++ o2)%list, s2).
Proof.
  revert st. induction a as [|c a IH]; intros st; simpl.
  - now destruct (Utf8.feed st b).
  - destruct (Utf8.step st (N_of_ascii c)) as [o1 s1]. rewrite IH.
    destruct (Utf8.feed s1 a) as [o2 s2].
    destruct (Utf8.feed s2 b) as [o3 s3]. now rewrite app_assoc.
Qed.

(** A line feed closes whatever sequence is open. *)
Lemma step_LF (st : Utf8.State) :
  exists o, Utf8.step st 10%N = ((o ++ [10%N])%list, Utf8.clean).
Proof.
  unfold Utf8.step. destruct (Utf8.bytes_needed st) as [|n].
  - now exists [].
  - replace (Utf8.in_bounds (Utf8.bounds st) 10) with false
      by now destruct (Utf8.bounds st).
    now exists [Utf8.replacement].
Qed.

Lemma feed_ends_LF (st : Utf8.State) (a : string) :
  ends_LF a = true ->
  exists o, Utf8.feed st a = ((o ++ [10%N])%list, Utf8.clean).
Proof.
  revert st. induction a as [|c r IH]; intros st; [discriminate|].
  destruct r as [|d r'].
  - simpl. intros H. apply Ascii.eqb_eq in H. subst c.
    change (N_of_ascii LF) with 10%N.
    destruct (step_LF st) as [o ->]. exists o. now rewrite app_nil_r.
  - intros H. change (ends_LF (String d r') = true) in H.
    destruct (IH (snd (Utf8.step st (N_of_ascii c))) H) as [o Ho].
    change (Utf8.feed st (String c (String d r')))
      with (let (o1, s1) := Utf8.step st (N_of_ascii c) in
            let (o2, s2) := Utf8.feed s1 (String d r') in
            ((o1 ++ o2)%list, s2)).
    destruct (Utf8.step st (N_of_ascii c)) as [o1 s1]. simpl snd in Ho.
    rewrite Ho. exists (o1 ++ o)%list. now rewrite app_assoc.
Qed.

Lemma code_points_ends_LF (a : string) :
  ends_LF a = true ->
  exists o, Utf8.code_points a = (o ++ [10%N])%list
            /\ forall b, Utf8.code_points (a ++ b)
                         = ((o ++ [10%N]) ++ Utf8.code_points b)%list.
Proof.
  intros H. destruct (feed_ends_LF Utf8.clean a H) as [o Ho].
  exists o. unfold Utf8.code_points. split.
  - rewrite Ho. simpl. now rewrite app_nil_r.
  - intros b. rewrite feed_app, Ho.
    destruct (Utf8.feed Utf8.clean b) as [o2 s2]. now rewrite app_assoc.
Qed.

Lemma encode_app (x y : list N) :
  encode_code_points (x ++ y)
  = (encode_code_points x ++ encode_code_points y)%string.
Proof.
  induction x as [|cp x IH]; simpl; [reflexivity|].
  now rewrite IH, append_assoc.
Qed.

Lemma drop_BOM_app (x y : list N) :
  x <> [] -> drop_BOM (x ++ y) = (drop_BOM x ++ y)%list.
Proof.
  destruct x as [|cp x]; [contradiction|]. intros _. simpl.
  now destruct (cp =? 65279)%N.
Qed.

Lemma drop_BOM_none (c : string) :
  no_BOM c = true -> drop_BOM (Utf8.code_points c) = Utf8.code_points c.
Proof.
  unfold no_BOM, drop_BOM. destruct (Utf8.code_points c) as [|cp r];
    [reflexivity|].
  now destruct (cp =? 65279)%N.
Qed.

Lemma ends_LF_app_nl (x : string) : ends_LF (x ++ nl) = true.
Proof.
  induction x as [|c x IH]; [reflexivity|].
  simpl append. simpl ends_LF. rewrite IH.
  now destruct (x ++ nl)%string.
Qed.

(** After a read that ends with a line feed the next bytes decode as they
    would in a read of their own, unless they start with a byte order
    mark, which a read of their own would drop. *)
Lemma decode_app (a b : string) :
  ends_LF a = true ->
  no_BOM b = true ->
  TextDecoder_decode (a ++ b)
  = (TextDecoder_decode a ++ TextDecoder_decode b)%string.
Proof.
  intros Ha Hb. destruct (code_points_ends_LF a Ha) as (o & Hc & Happ).
  unfold TextDecoder_decode. rewrite Happ, Hc.
  rewrite drop_BOM_app by (now destruct o).
  now rewrite encode_app, (drop_BOM_none b Hb).
Qed.

Lemma decode_ends_LF (a : string) :
  ends_LF a = true -> ends_LF (TextDecoder_decode a) = true.
Proof.
  intros Ha. destruct (code_points_ends_LF a Ha) as (o & Hc & _).
  unfold TextDecoder_decode. rewrite Hc.
  assert (H : exists o', drop_BOM (o ++ [10%N]) = (o' ++ [10%N])%list).
  { destruct o as [|cp o]; [now exists []|]. simpl.
    destruct (cp =? 65279)%N; [now exists o|now exists (cp :: o)]. }
  destruct H as [o' ->]. rewrite encode_app.
  apply ends_LF_app_nl.
Qed.

(** After a closed chunk, the bytes that follow are decoded as if they came
    in a chunk of their own. *)
Lemma chunk_events_closed (c y : string) :
  closed_chunk c = true ->
  no_BOM y = true ->
  chunk_events (c ++ y) = (chunk_events c ++ chunk_events y)%list.
Proof.
  unfold closed_chunk. intros H Hy.
  apply andb_true_iff in H as [Hend Hdone].
  apply negb_true_iff in Hdone.
  apply orb_true_iff in Hend as [He|He].
  - destruct c; [reflexivity|discriminate].
  - unfold chunk_events in *. rewrite (decode_app c y He Hy).
    apply lines_events_closed; [now apply decode_ends_LF|exact Hdone].
Qed.

Lemma stream_events_cons (c : string) (rest : list string) :
  stream_events (c :: rest) = (chunk_events c ++ stream_events rest)%list.
Proof. reflexivity. Qed.

Lemma join_chunks_cons (c d : string) (rest : list string) :
  join_chunks (c :: d :: rest) = (c ++ join_chunks (d :: rest))%string.
Proof. reflexivity. Qed.

(** Line-aligned chunks put end to end start as the first of them does. *)
Lemma aligned_no_BOM (c : string) (rest : list string) :
  line_aligned (c :: rest) = true ->
  no_BOM c = true ->
  no_BOM (join_chunks (c :: rest)) = true.
Proof.
  revert c. induction rest as [|d rest IH]; intros c H Hc; [exact Hc|].
  change (closed_chunk c && no_BOM d && line_aligned (d :: rest) = true) in H.
  apply andb_true_iff in H as [H Hrest]. apply andb_true_iff in H as [Hcl Hd].
  rewrite join_chunks_cons. specialize (IH d Hrest Hd).
  unfold closed_chunk in Hcl. apply andb_true_iff in Hcl as [Hend _].
  apply orb_true_iff in Hend as [He|He].
  - destruct c; [exact IH|discriminate].
  - destruct (code_points_ends_LF c He) as (o & Hcp & Happ).
    unfold no_BOM in *. rewrite Happ. rewrite Hcp in Hc.
    now destruct o.
Qed.

(** Delivery in line-aligned chunks decodes like delivery in one chunk. *)
Lemma stream_events_aligned (chunks : list string) :
  line_aligned chunks = true ->
  stream_events chunks = chunk_events (join_chunks chunks).
Proof.
  induction chunks as [|c rest IH]; [reflexivity|].
  destruct rest as [|d rest].
  - intros _. simpl. now rewrite app_nil_r.
  - intros H.
    change (closed_chunk c && no_BOM d && line_aligned (d :: rest) = true) in H.
    apply andb_true_iff in H as [H Hrest]. apply andb_true_iff in H as [Hc Hd].
    rewrite stream_events_cons, join_chunks_cons, (IH Hrest).
    rewrite chunk_events_closed; [reflexivity|exact Hc|].
    now apply aligned_no_BOM.
Qed.

(** *** The loop is the aggregator run on the decoder's events *)

Lemma process_record_events (j : json) (s : Acc * Terminal) :
  process_record j s
  = (aggregate (record_events j) s, existsb is_Done (record_events j)).
Proof.
  destruct s as [a t].
  assert (Hdone : forall (d : jsval) (es : list StreamEvent),
             existsb is_Done es = false ->
             existsb is_Done (es ++ if truthy_val d then [Done] else [])
             = truthy_val d).
  { intros d es H. rewrite existsb_app, H. now destruct (truthy_val d). }
  destruct j; try reflexivity;
    unfold process_record, record_events;
    (destruct (token_throws _); [reflexivity|]);
    unfold aggregate;
    rewrite app_assoc, fold_left_app;
    (rewrite Hdone;
     [|destruct (get "token" _) as [tok|]; [destruct (truthy tok)|];
       (destruct (get "images" _) as [im|]; [destruct (truthy im)|]);
       reflexivity]);
    (f_equal;
     destruct (get "token" _) as [tok|]; [destruct (truthy tok)|];
     (destruct (get "images" _) as [im|]; [destruct (truthy im)|]);
     destruct (truthy_val (get "done" _)); reflexivity).
Qed.

Lemma process_line_events (line : string) (s : Acc * Terminal) :
  process_line line s
  = (aggregate (line_events line) s, existsb is_Done (line_events line)).
Proof.
  unfold process_line, line_events.
  destruct (startsWith "data: " line); [|reflexivity].
  destruct (negb (is_empty (trim (slice 6 line)))); [|reflexivity].
  destruct (JSON_parse (slice 6 line)); [|reflexivity].
  apply process_record_events.
Qed.

Lemma process_lines_events (lines : list string) (s : Acc * Terminal) :
  process_lines lines s = aggregate (lines_events lines) s.
Proof.
  revert s. induction lines as [|l lines IH]; intros s; simpl; [reflexivity|].
  rewrite process_line_events.
  destruct (existsb is_Done (line_events l)); [reflexivity|].
  rewrite IH. unfold aggregate. now rewrite fold_left_app.
Qed.

Lemma read_loop_events (chunks : list string) (s : Acc * Terminal) :
  read_loop chunks s = (aggregate (stream_events chunks) s, List.length chunks).
Proof.
  revert s. induction chunks as [|c chunks IH]; intros s; simpl; [reflexivity|].
  rewrite IH. unfold process_chunk. rewrite process_lines_events.
  unfold aggregate, chunk_events. now rewrite fold_left_app.
Qed.

(** *** What the aggregator holds after a run of events *)

Lemma aggregate_acc (es : list StreamEvent) (a : Acc) (t : Terminal) :
  fst (aggregate es (a, t))
  = mkAcc (fullResponse a ++ tokens_text es) (last_images es (imageUrls a)).
Proof.
  revert a t. induction es as [|e es IH]; intros a t.
  - simpl. rewrite append_empty_r. now destruct a.
  - unfold aggregate in *. simpl fold_left.
    destruct e as [text|v|]; simpl aggregate_event; rewrite IH; simpl.
    + now rewrite append_assoc.
    + reflexivity.
    + reflexivity.
Qed.

Lemma remove_update_typing (text : string) (b : list Line) :
  remove_first_typing (update_first_typing text b) = remove_first_typing b.
Proof.
  induction b as [|l b IH]; simpl; [reflexivity|].
  destruct (line_typing l) eqn:Hl; simpl.
  - reflexivity.
  - now rewrite Hl, IH.
Qed.

(** The aggregator touches the text of the typing line and nothing else of
    the terminal. *)
Lemma aggregate_terminal (es : list StreamEvent) (a : Acc) (t : Terminal) :
  let t' := snd (aggregate es (a, t)) in
  remove_first_typing (terminalBody t') = remove_first_typing (terminalBody t)
  /\ set_terminalBody (terminalBody t) t' = t.
Proof.
  revert a t. induction es as [|e es IH]; intros a t.
  - simpl. split; [reflexivity|now destruct t].
  - unfold aggregate in *. simpl fold_left.
    destruct e as [text|v|]; simpl aggregate_event; try apply IH.
    destruct (IH (mkAcc (fullResponse a ++ text) (imageUrls a))
                 (updateTypingLine (fullResponse a ++ text) t)) as [H1 H2].
    cbv zeta in *. split.
    + rewrite H1. simpl. apply remove_update_typing.
    + revert H2. generalize (snd (fold_left aggregate_event es
        (mkAcc (fullResponse a ++ text) (imageUrls a),
         updateTypingLine (fullResponse a ++ text) t))).
      intros t' H2. destruct t', t.
      unfold updateTypingLine, set_terminalBody in *. simpl in *.
      injection H2; intros; subst; reflexivity.
Qed.

Lemma typing_lines_update (text : string) (b : list Line) :
  typing_lines (update_first_typing text b) = typing_lines b.
Proof.
  unfold typing_lines. induction b as [|l b IH]; simpl; [reflexivity|].
  destruct (line_typing l) eqn:Hl; simpl.
  - reflexivity.
  - now rewrite Hl.
Qed.

Lemma aggregate_typing_lines (es : list StreamEvent) (a : Acc) (t : Terminal) :
  typing_lines (terminalBody (snd (aggregate es (a, t))))
  = typing_lines (terminalBody t).
Proof.
  revert a t. induction es as [|e es IH]; intros a t; [reflexivity|].
  unfold aggregate in *. simpl fold_left.
  destruct e as [text|v|]; simpl aggregate_event; rewrite IH; try reflexivity.
  simpl. apply typing_lines_update.
Qed.

Lemma existsb_Token_tokens_text (es : list StreamEvent) :
  existsb is_Token es = false -> tokens_text es = "".
Proof.
  induction es as [|e es IH]; simpl; [reflexivity|].
  destruct e; simpl; try discriminate; exact IH.
Qed.

(** *** Chunk boundaries *)

(** C1, as the spec states it, fails: the source keeps no buffer between
    chunks. The line [data: {'token':'Hi'}] (single quotes standing for
    double ones) decodes to the event [Token] of [Hi] when it comes in one
    chunk, and to no event when it comes cut after [data: {'tok], or cut
    after every byte. *)
Lemma cut_line_is_lost :
  let whole := (jsrc "data: {'token':'Hi'}" ++ nl)%string in
  let parts := [jsrc "data: {'tok"; (jsrc "en':'Hi'}" ++ nl)%string] in
  join_chunks parts = whole
  /\ stream_events [whole] = [Token "Hi"]
  /\ stream_events parts = []
  /\ join_chunks (each_byte whole) = whole
  /\ stream_events (each_byte whole) = [].
Proof. vm_compute. repeat split. Qed.

(** C1, amended. Every chunk is decoded to text and split into lines on
    its own. When every chunk but the last is empty or ends with a line
    feed and holds no record with a truthy [done], and no chunk but the
    first starts with a byte order mark, the events are those of the
    delivery of the same bytes in one chunk, in the same order. A line cut
    by a chunk boundary is not retained: its two parts are decoded as two
    lines, and the delivery of [data: {'tok] and then [en':'Hi'}] with a
    line feed decodes to no event. *)
Theorem line_aligned_chunks_decode_as_one (chunks : list string) :
  (line_aligned chunks = true ->
   stream_events chunks = stream_events [join_chunks chunks])
  /\ stream_events [jsrc "data: {'tok"; (jsrc "en':'Hi'}" ++ nl)%string] = [].
Proof.
  split.
  - intros H. rewrite (stream_events_aligned chunks H).
    simpl. now rewrite app_nil_r.
  - vm_compute. reflexivity.
Qed.

Lemma line_aligned_chunks_decode_as_one_witness :
  let chunks := [(jsrc "data: {'token':'Hi'}" ++ nl)%string;
                 (jsrc "data: {'token':' there'}" ++ nl
                  ++ jsrc "data: {'done':true}" ++ nl)%string] in
  line_aligned chunks = true
  /\ stream_events chunks = stream_events [join_chunks chunks].
Proof.
  split.
  - vm_compute. reflexivity.
  - apply (proj1 (line_aligned_chunks_decode_as_one _)). vm_compute. reflexivity.
Defined.

(** The condition on the byte order mark is needed: at the start of a
    chunk the decoder drops it, inside a chunk it is part of the line,
    which then lacks the [data: ] prefix. *)
Lemma mark_after_a_boundary_is_dropped :
  let c1 := (jsrc "data: {'token':'a'}" ++ nl)%string in
  let c2 := (BOM ++ jsrc "data: {'token':'b'}" ++ nl)%string in
  stream_events [c1; c2] = [Token "a"; Token "b"]
  /\ stream_events [join_chunks [c1; c2]] = [Token "a"].
Proof. vm_compute. split; reflexivity. Qed.

(** The condition on [done] records is needed: a chunk boundary after a
    [done] record lets the lines after it through, which the delivery in
    one chunk skips. *)
Lemma boundary_after_done_changes_the_events :
  let c1 := (jsrc "data: {'done':true}" ++ nl)%string in
  let c2 := (jsrc "data: {'token':'late'}" ++ nl)%string in
  stream_events [c1; c2] = [Done; Token "late"]
  /\ stream_events [join_chunks [c1; c2]] = [Done].
Proof. vm_compute. split; reflexivity. Qed.

(** *** The [done] record *)

(** The loop reads every chunk the reader delivers, whatever the records
    hold. *)
Lemma every_chunk_is_read (status : nat) (b : Body) (t : Terminal) :
  status_ok status = true ->
  try_reads (handleInput_try (Responded status (Some b)) t)
  = List.length (body_chunks b).
Proof.
  intros H. unfold handleInput_try. rewrite H. simpl negb. cbv iota.
  rewrite read_loop_events.
  destruct (aggregate (stream_events (body_chunks b)) (acc0, t)) as [a t1].
  destruct (body_end b); [|reflexivity].
  destruct (length_throws _); [reflexivity|].
  destruct (addLine _ _ _ _); reflexivity.
Qed.

(** C2 at the stream of two chunks, the first holding [{'done':true}], the
    second [{'token':'late'}]: the [break] leaves the [for] loop over the
    lines of the first chunk only. The second chunk is read, its token is
    an event after [Done], and the committed entry shows it. *)
Theorem done_does_not_end_the_reading :
  let chunks := [(jsrc "data: {'done':true}" ++ nl)%string;
                 (jsrc "data: {'token':'late'}" ++ nl)%string] in
  let r := handleInput_try (streamed chunks) awaiting_reply in
  stream_events chunks = [Done; Token "late"]
  /\ try_reads r = 2
  /\ terminalBody (try_state r) = [committed_line "late" []].
Proof. vm_compute. repeat split. Qed.

(** The events of a chunk follow those of the chunk before it, whether or
    not that one held a [done] record. *)
Lemma later_chunk_is_processed (c1 c2 : string) (e : StreamEvent) :
  In e (chunk_events c2) -> In e (stream_events [c1; c2]).
Proof.
  intros H. rewrite !stream_events_cons. apply in_or_app. right.
  apply in_or_app. now left.
Qed.

(** Inside one chunk the [break] does end the processing: the lines after
    a record with a truthy [done] yield no event. *)
Lemma done_ends_the_chunk (l1 l2 : list string) :
  existsb is_Done (lines_events l1) = true ->
  lines_events (l1 ++ l2) = lines_events l1.
Proof. intros H. now rewrite lines_events_app, H. Qed.

(** *** The committed entry *)

Lemma in_lines_events (e : StreamEvent) (lines : list string) :
  In e (lines_events lines) ->
  exists line, In line lines /\ In e (line_events line).
Proof.
  induction lines as [|l lines IH]; simpl; [intros []|].
  destruct (existsb is_Done (line_events l)).
  - intros H. exists l. auto.
  - intros H. apply in_app_or in H as [H|H].
    + exists l. auto.
    + destruct (IH H) as (line & Hin & He). exists line. auto.
Qed.

(** A [Token] event carries the text of a truthy [token] member. *)
Lemma in_record_events (j : json) (text : string) :
  In (Token text) (record_events j) ->
  exists tok, get "token" j = Some tok /\ truthy tok = true
              /\ text = toString tok.
Proof.
  assert (Hrest : forall (gi : jsval) (gd : bool),
             ~ In (Token text)
                 (match gi with
                  | Some imgs => if truthy imgs then [Images imgs] else []
                  | None => []
                  end ++ if gd then [Done] else [])).
  { intros gi gd H. apply in_app_or in H as [H|H].
    - destruct gi as [im|]; [|destruct H].
      destruct (truthy im); [|destruct H]. destruct H as [H|[]]. discriminate.
    - destruct gd; [|destruct H]. destruct H as [H|[]]. discriminate. }
  unfold record_events.
  destruct j; try (intros []);
    (destruct (token_throws _); [intros []|]);
    (intros H; apply in_app_or in H as [H|H];
     [|now apply Hrest in H]);
    (destruct (get "token" _) as [tok|]; [|destruct H]);
    (destruct (truthy tok) eqn:Ht; [|destruct H]);
    (destruct H as [[= <-]|[]]); exists tok; auto.
Qed.

(** A string token that yields an event is not empty. *)
Lemma line_token_text (line text : string) :
  token_is_string line = true ->
  In (Token text) (line_events line) ->
  text <> "".
Proof.
  unfold token_is_string, line_events.
  destruct (startsWith "data: " line); [|intros _ []].
  destruct (negb (is_empty (trim (slice 6 line)))); [|intros _ []].
  destruct (JSON_parse (slice 6 line)) as [j|]; [|intros _ []].
  intros Hs Hin. apply in_record_events in Hin as (tok & Hg & Ht & ->).
  rewrite Hg in Hs. destruct tok; try discriminate.
  simpl in *. now destruct s.
Qed.

Lemma stream_token_text (chunks : list string) (text : string) :
  string_tokens chunks = true ->
  In (Token text) (stream_events chunks) ->
  text <> "".
Proof.
  unfold string_tokens, stream_events. rewrite forallb_forall.
  intros Hall Hin. apply in_flat_map in Hin as (c & Hc & Hin).
  apply in_lines_events in Hin as (line & Hline & Hin).
  specialize (Hall c Hc). rewrite forallb_forall in Hall.
  exact (line_token_text line text (Hall line Hline) Hin).
Qed.

Lemma tokens_text_not_empty (es : list StreamEvent) :
  (forall text, In (Token text) es -> text <> "") ->
  existsb is_Token es = true ->
  tokens_text es <> "".
Proof.
  induction es as [|e es IH]; simpl; [discriminate|].
  intros Hall Hex. destruct e as [text|v|]; simpl in *.
  - destruct text as [|c text]; [now elim (Hall "" (or_introl eq_refl))|].
    discriminate.
  - apply IH; auto.
  - apply IH; auto.
Qed.

(** C5, as the spec states it, fails where a token is empty. The spec has
    a [Token] event for every record with a [token] field, and the text of
    the entry equal to the concatenation of the texts of those events,
    the placeholder standing in only if no such event arrived. For the
    stream of the one record [{'token':''}] that event arrives and the
    concatenation is the empty text, yet the entry committed shows the
    placeholder: the source appends a token only if it is truthy, and
    commits [fullResponse || placeholder]. *)
Lemma empty_token_commits_the_placeholder :
  let line := jsrc "data: {'token':''}" in
  let chunks := [(line ++ nl)%string] in
  exists j,
    JSON_parse (slice 6 line) = Some j
    /\ spec_record_events j = [Token ""]
    /\ tokens_text (spec_record_events j) = ""
    /\ terminalBody (try_state (handleInput_try (streamed chunks) awaiting_reply))
       = [committed_line no_response []]
    /\ no_response <> "".
Proof.
  exists (JObj [("token", JStr "")]).
  vm_compute. repeat split. discriminate.
Qed.

(** C5, amended. After a successful stream whose last [images] value, if
    any, is an array of values that convert to strings, the log holds one
    committed entry in place of the typing line. Its text is the
    concatenation, in order, of the texts of the [Token] events, which the
    records with a truthy [token] yield, and the placeholder whenever that
    concatenation is empty: when no such event arrived, and also when the
    tokens that arrived print as nothing. With string tokens, one such
    event is enough for the text to be the concatenation. Its images are
    those of the last [Images] event, none when that list is empty or no
    such event came. *)
Theorem committed_entry_folds_the_events
    (chunks : list string) (status : nat) (t : Terminal) (l : list json) :
  let es := stream_events chunks in
  let r := handleInput_try (Responded status (Some (mkBody chunks Eof))) t in
  status_ok status = true ->
  last_images es (JArr []) = JArr l ->
  forallb convertible l = true ->
  try_thrown r = None
  /\ terminalBody (try_state r)
     = (remove_first_typing (terminalBody t)
        ++ [committed_line (committed_text es) l])%list
  /\ (tokens_text es <> "" -> committed_text es = tokens_text es)
  /\ (tokens_text es = "" -> committed_text es = no_response)
  /\ (string_tokens chunks = true -> existsb is_Token es = true ->
      committed_text es = tokens_text es)
  /\ (existsb is_Token es = false -> committed_text es = no_response).
Proof.
  intros es r Hok Himg Hconv. subst r.
  assert (Hne : tokens_text es <> "" -> committed_text es = tokens_text es).
  { unfold committed_text. intros H.
    destruct (tokens_text es); [contradiction|reflexivity]. }
  assert (He : tokens_text es = "" -> committed_text es = no_response).
  { unfold committed_text. now intros ->. }
  assert (Htext : (tokens_text es <> "" -> committed_text es = tokens_text es)
                  /\ (tokens_text es = "" -> committed_text es = no_response)
                  /\ (string_tokens chunks = true -> existsb is_Token es = true ->
                      committed_text es = tokens_text es)
                  /\ (existsb is_Token es = false -> committed_text es = no_response)).
  { split; [exact Hne|]. split; [exact He|]. split.
    - intros Hs Hex. apply Hne. apply tokens_text_not_empty; [|exact Hex].
      intros text. now apply stream_token_text.
    - intros H. apply He. exact (existsb_Token_tokens_text es H). }
  unfold handleInput_try. rewrite Hok. simpl negb. cbv iota.
  rewrite read_loop_events. simpl body_chunks. simpl body_end. fold es.
  pose proof (aggregate_acc es acc0 t) as Ha.
  pose proof (aggregate_terminal es acc0 t) as [Hb _].
  destruct (aggregate es (acc0, t)) as [a t1]. simpl in Ha, Hb. subst a.
  simpl fullResponse. simpl imageUrls. rewrite Himg.
  fold (committed_text es).
  change (length_throws (JArr l)) with false. cbv iota.
  destruct l as [|x l].
  - simpl. rewrite Hb. split; [reflexivity|]. split; [reflexivity|exact Htext].
  - change (length_gt0 (JArr (x :: l))) with true. cbv iota.
    unfold addLine. change (truthy (JArr (x :: l))) with true.
    change (length_throws (JArr (x :: l))) with false.
    change (length_gt0 (JArr (x :: l))) with true. cbv iota.
    rewrite Hconv. simpl. rewrite Hb.
    split; [reflexivity|]. split; [reflexivity|exact Htext].
Qed.

Lemma committed_entry_folds_the_events_witness :
  let chunks := [(jsrc "data: {'token':'Hi'}" ++ nl)%string;
                 (jsrc "data: {'token':' there'}" ++ nl
                  ++ jsrc "data: {'images':['a.png']}" ++ nl
                  ++ jsrc "data: {'done':true}" ++ nl)%string] in
  stream_events chunks = [Token "Hi"; Token " there"; Images (JArr [JStr "a.png"]); Done]
  /\ terminalBody (try_state (handleInput_try (streamed chunks) awaiting_reply))
     = [committed_line "Hi there" [JStr "a.png"]].
Proof.
  split.
  - vm_compute. reflexivity.
  - refine (proj1 (proj2 (committed_entry_folds_the_events _ 200 awaiting_reply
                            [JStr "a.png"] _ _ _))).
    + reflexivity.
    + vm_compute. reflexivity.
    + reflexivity.
Defined.

(** A token that is not a string may print as nothing: the record
    [{'token':[]}] yields a [Token] event with an empty text, and the
    committed text is the placeholder. *)
Lemma empty_array_token :
  let chunks := [(jsrc "data: {'token':[]}" ++ nl)%string] in
  stream_events chunks = [Token ""]
  /\ committed_text (stream_events chunks) = no_response.
Proof. vm_compute. split; reflexivity. Qed.

End StreamProps.

(** ** What each method leaves untouched *)

Module Frames.

Lemma log_only_refl (t : Terminal) : log_only t t.
Proof. now destruct t. Qed.

Lemma log_only_trans (t1 t2 t3 : Terminal) :
  log_only t1 t2 -> log_only t2 t3 -> log_only t1 t3.
Proof.
  unfold log_only. destruct t1, t2, t3; simpl.
  intros H1 H2. injection H1; injection H2; intros; subst; reflexivity.
Qed.

Lemma log_only_set (b : list Line) (t : Terminal) :
  log_only t (set_terminalBody b t).
Proof. now destruct t. Qed.

Lemma log_only_eq (t t' : Terminal) :
  log_only t t' -> t' = set_terminalBody (terminalBody t') t.
Proof.
  unfold log_only. destruct t, t'; simpl. intros H.
  injection H; intros; subst; reflexivity.
Qed.

(** A call of [addLine] that returns has appended one line. *)
Lemma addLine_inv (text cls : string) (im : option json) (t t' : Terminal) :
  addLine text cls im t = Normal t' ->
  exists imgs,
    t' = set_terminalBody
           (terminalBody t
            ++ [mkLine false
                  (if String.eqb cls "output user" then prompt_user
                   else prompt_adam)
                  cls text imgs]) t.
Proof.
  unfold addLine. intros H.
  destruct im as [v|]; [|injection H as <-; now eexists].
  destruct (truthy v); [|injection H as <-; now eexists].
  destruct (length_throws v); [discriminate|].
  destruct (length_gt0 v); [|injection H as <-; now eexists].
  destruct v; try discriminate.
  destruct (forallb convertible l); [|discriminate].
  injection H as <-. now eexists.
Qed.

Lemma addLine_log_only (text cls : string) (im : option json) (t t' : Terminal) :
  addLine text cls im t = Normal t' -> log_only t t'.
Proof.
  intros H. apply addLine_inv in H as [imgs ->]. apply log_only_set.
Qed.

Lemma addLine_plain_body (text cls : string) (t : Terminal) :
  addLine_plain text cls t
  = set_terminalBody
      (terminalBody t
       ++ [mkLine false
             (if String.eqb cls "output user" then prompt_user else prompt_adam)
             cls text []]) t.
Proof. reflexivity. Qed.

Lemma read_loop_log_only (chunks : list string) (a : Acc) (t : Terminal) :
  log_only t (snd (fst (read_loop chunks (a, t)))).
Proof.
  rewrite StreamProps.read_loop_events. simpl.
  apply (StreamProps.aggregate_terminal (stream_events chunks) a t).
Qed.

Lemma read_loop_keeps_rest (chunks : list string) (a : Acc) (t : Terminal) :
  remove_first_typing (terminalBody (snd (fst (read_loop chunks (a, t)))))
  = remove_first_typing (terminalBody t).
Proof.
  rewrite StreamProps.read_loop_events. simpl.
  apply (StreamProps.aggregate_terminal (stream_events chunks) a t).
Qed.

(** The [try] block of [handleInput] changes the display log only. *)
Lemma handleInput_try_log_only (o : ChatOutcome) (t : Terminal) :
  log_only t (try_state (handleInput_try o t)).
Proof.
  unfold handleInput_try.
  destruct o as [m|status body]; [apply log_only_refl|].
  destruct (negb (status_ok status)); [apply log_only_refl|].
  destruct body as [b|]; [|apply log_only_refl].
  pose proof (read_loop_log_only (body_chunks b) acc0 t) as H.
  destruct (read_loop (body_chunks b) (acc0, t)) as [[a t1] n]. simpl in H.
  destruct (body_end b); [|exact H].
  assert (H2 : log_only t (removeTypingLine t1)).
  { eapply log_only_trans; [exact H|apply log_only_set]. }
  destruct (length_throws _); [exact H2|].
  destruct (addLine _ _ _ _) eqn:Ha; simpl; [|exact H2].
  eapply log_only_trans; [exact H2|]. eapply addLine_log_only; exact Ha.
Qed.

(** [handleInput], once the request has settled: a new log, the lock
    released, the input enabled and focused, the rest as it was. *)
Lemma handleInput_end_shape (o : ChatOutcome) (t : Terminal) :
  fst (handleInput_end o t)
  = mkTerminal (terminalBody (fst (handleInput_end o t)))
      (userInput_value t) false true
      (autocompleteList_show t) (autocompleteList_items t)
      (sessionId t) false (autocompleteTimeout t) (selectedIndex t).
Proof.
  unfold handleInput_end.
  pose proof (handleInput_try_log_only o t) as H.
  apply log_only_eq in H.
  destruct (try_thrown (handleInput_try o t)); simpl fst;
    rewrite H; now destruct t.
Qed.

(** [handleInput], up to the sending of the request. *)
Lemma handleInput_begin_shape (t t' : Terminal) (req : ChatRequest) :
  handleInput_begin t = Some (t', req) ->
  let message := trim (userInput_value t) in
  message <> "" /\ isProcessing t = false
  /\ req = mkChatRequest message (sessionId t)
  /\ t' = mkTerminal (terminalBody t ++ [user_line message; typing_line])
            "" true (userInput_focused t)
            (autocompleteList_show t) (autocompleteList_items t)
            (sessionId t) true (autocompleteTimeout t) (selectedIndex t).
Proof.
  intros H message. unfold handleInput_begin in H. fold message in H.
  destruct (is_empty message) eqn:He; [discriminate|].
  destruct (isProcessing t) eqn:Hp; [discriminate|].
  simpl in H. injection H as <- <-.
  repeat split.
  - intros Hm. now rewrite Hm in He.
  - rewrite addLine_plain_body. destruct t. unfold_fields.
    now rewrite <- app_assoc.
Qed.

Lemma handleInput_begin_None (t : Terminal) :
  handleInput_begin t = None ->
  trim (userInput_value t) = "" \/ isProcessing t = true.
Proof.
  unfold handleInput_begin.
  destruct (trim (userInput_value t)); [now left|].
  destruct (isProcessing t); [now right|discriminate].
Qed.

Lemma controller_only_refl (t : Terminal) : controller_only t t.
Proof. now destruct t. Qed.

Lemma controller_only_trans (t1 t2 t3 : Terminal) :
  controller_only t1 t2 -> controller_only t2 t3 -> controller_only t1 t3.
Proof.
  unfold controller_only. intros H1 H2. rewrite H2. rewrite H1 at 1 2 3 4 5 6 7.
  reflexivity.
Qed.

Lemma controller_only_hide (t : Terminal) : controller_only t (hideAutocomplete t).
Proof. now destruct t. Qed.

Lemma controller_only_navigate (d : Z) (t : Terminal) :
  controller_only t (navigateAutocomplete d t).
Proof.
  unfold navigateAutocomplete.
  destruct (Z.of_nat (List.length (autocompleteList_items t)) =? 0)%Z;
    now destruct t.
Qed.

(** One round of [artworks.forEach]. *)
Lemma append_items_cons (a : json) (l : list json) (t : Terminal) :
  append_items (a :: l) t
  = if is_null a then (t, Some (read_of_null "name"))
    else if item_throws a then (t, Some cannot_convert)
    else append_items l
           (set_items (autocompleteList_items t ++ [item_of a]) t).
Proof. now destruct a. Qed.

Lemma controller_only_append_items (l : list json) (t : Terminal) :
  controller_only t (fst (append_items l t)).
Proof.
  revert t. induction l as [|a l IH]; intros t; [apply controller_only_refl|].
  rewrite append_items_cons.
  destruct (is_null a); [apply controller_only_refl|].
  destruct (item_throws a); [apply controller_only_refl|].
  eapply controller_only_trans; [|apply IH]. now destruct t.
Qed.

Lemma controller_only_show (a : json) (t : Terminal) :
  controller_only t (fst (showAutocomplete a t)).
Proof.
  unfold showAutocomplete. destruct a; try (now destruct t).
  pose proof (controller_only_append_items l
                (set_selectedIndex (-1) (set_items [] t))) as H.
  destruct (append_items l _) as [t2 [m|]]; simpl in *.
  - eapply controller_only_trans; [|exact H]. now destruct t.
  - eapply controller_only_trans; [|eapply controller_only_trans; [exact H|]].
    + now destruct t.
    + now destruct t2.
Qed.

Lemma controller_only_autocomplete_end (r : FetchReply) (t : Terminal) :
  controller_only t (fst (autocomplete_end r t)).
Proof.
  unfold autocomplete_end.
  destruct r as [m|status text]; [apply controller_only_hide|].
  destruct (JSON_parse text) as [data|]; [|apply controller_only_hide].
  destruct data; try apply controller_only_hide.
  destruct (get "artworks" (JObj l)) as [a|]; [|apply controller_only_hide].
  destruct (truthy a && length_throws a); [apply controller_only_hide|].
  destruct (truthy a && length_gt0 a); [|apply controller_only_hide].
  pose proof (controller_only_show a t) as H.
  destruct (showAutocomplete a t) as [t' [m|]]; simpl in *.
  - eapply controller_only_trans; [exact H|apply controller_only_hide].
  - exact H.
Qed.

(** [createSession] sets [sessionId] and nothing else. *)
Lemma createSession_end_shape (r : FetchReply) (t : Terminal) :
  fst (createSession_end r t)
  = set_sessionId (sessionId (fst (createSession_end r t))) t.
Proof.
  unfold createSession_end. destruct r as [m|status text]; [now destruct t|].
  destruct (JSON_parse text) as [data|]; [|now destruct t].
  destruct data; now destruct t.
Qed.

End Frames.

(** ** Autocomplete controller *)

Module AutocompleteProps.
Import Frames.

Lemma set_selected_length (i : nat) (b : bool) (items : list Item) :
  List.length (set_selected i b items) = List.length items.
Proof.
  revert i. induction items as [|x r IH]; intros i; [now destruct i|].
  destruct i; simpl; [reflexivity|now rewrite IH].
Qed.

(** With at least one item the cursor ends on an item, wherever it was. *)
Lemma navigate_lands_on_item (d : Z) (t : Terminal) :
  autocompleteList_items t <> [] ->
  let t' := navigateAutocomplete d t in
  (0 <= selectedIndex t' <= Z.of_nat (List.length (autocompleteList_items t')) - 1)%Z
  /\ autocompleteList_show t' = autocompleteList_show t.
Proof.
  intros Hne. destruct t as [b v dis foc sh items sid proc tmo sel].
  simpl in Hne. destruct items as [|x r]; [contradiction|].
  unfold navigateAutocomplete.
  cbn [autocompleteList_items selectedIndex].
  remember (Z.of_nat (List.length (x :: r))) as len eqn:Elen.
  assert (Hlen : (0 < len)%Z) by (subst len; simpl List.length; lia).
  destruct (len =? 0)%Z eqn:H0; [apply Z.eqb_eq in H0; lia|].
  remember (if ((0 <=? sel) && (sel <? len))%Z
            then set_selected (Z.to_nat sel) false (x :: r)
            else x :: r) as items1 eqn:E1.
  assert (Hl : List.length items1 = List.length (x :: r)).
  { subst items1. destruct ((0 <=? sel) && (sel <? len))%Z;
      [apply set_selected_length|reflexivity]. }
  remember (if (sel + d <? 0)%Z then (len - 1)%Z else (sel + d)%Z) as i2 eqn:E2.
  remember (if (i2 >=? len)%Z then 0%Z else i2) as i3 eqn:E3.
  cbv zeta.
  change (selectedIndex (set_selectedIndex i3 ?u)) with i3.
  split; [|reflexivity].
  match goal with
  | |- context [autocompleteList_items (set_selectedIndex i3 (set_items ?l ?u))] =>
      change (autocompleteList_items (set_selectedIndex i3 (set_items l u))) with l
  end.
  rewrite set_selected_length, Hl, <- Elen.
  subst i3 i2.
  destruct (sel + d <? 0)%Z eqn:H1.
  - destruct (len - 1 >=? len)%Z eqn:H2; lia.
  - destruct (sel + d >=? len)%Z eqn:H2; lia.
Qed.

Lemma navigate_no_items (d : Z) (t : Terminal) :
  autocompleteList_items t = [] -> navigateAutocomplete d t = t.
Proof. unfold navigateAutocomplete. now intros ->. Qed.

Lemma navigate_in_range (d : Z) (t : Terminal) :
  index_in_range t -> index_in_range (navigateAutocomplete d t).
Proof.
  intros H.
  destruct (autocompleteList_items t) as [|x r] eqn:Hi.
  - now rewrite navigate_no_items.
  - assert (Hne : autocompleteList_items t <> []) by (rewrite Hi; discriminate).
    destruct (navigate_lands_on_item d t Hne) as [Hr _].
    unfold index_in_range. cbv zeta in Hr. lia.
Qed.

Lemma navigate_show (d : Z) (t : Terminal) :
  autocompleteList_show (navigateAutocomplete d t) = autocompleteList_show t.
Proof.
  destruct (autocompleteList_items t) as [|x r] eqn:Hi.
  - now rewrite navigate_no_items.
  - apply navigate_lands_on_item. rewrite Hi. discriminate.
Qed.

Lemma hide_closed (t : Terminal) :
  autocompleteList_show (hideAutocomplete t) = false
  /\ selectedIndex (hideAutocomplete t) = (-1)%Z
  /\ autocompleteList_items (hideAutocomplete t) = autocompleteList_items t.
Proof. now destruct t. Qed.

Lemma in_range_of_minus_one (t : Terminal) :
  selectedIndex t = (-1)%Z -> index_in_range t.
Proof. unfold index_in_range. intros ->. lia. Qed.

Lemma append_items_cursor (l : list json) (t : Terminal) :
  selectedIndex (fst (append_items l t)) = selectedIndex t
  /\ autocompleteList_show (fst (append_items l t)) = autocompleteList_show t.
Proof.
  revert t. induction l as [|a l IH]; intros t; [now split|].
  rewrite append_items_cons.
  destruct (is_null a); [now split|].
  destruct (item_throws a); [now split|].
  match goal with |- context [append_items l ?u] =>
    destruct (IH u) as [H1 H2]; rewrite H1, H2; now destruct t end.
Qed.

(** However [showAutocomplete] ends, the cursor is reset. *)
Lemma show_resets_cursor (artworks : json) (t : Terminal) :
  selectedIndex (fst (showAutocomplete artworks t)) = (-1)%Z.
Proof.
  unfold showAutocomplete.
  destruct artworks; try (now destruct t).
  pose proof (append_items_cursor l (set_selectedIndex (-1) (set_items [] t)))
    as [H _].
  destruct (append_items l _) as [t2 [m|]]; simpl in *.
  - rewrite H. now destruct t.
  - destruct t2, t; simpl in *. exact H.
Qed.

(** However the fetch of suggestions ends, the cursor is reset. *)
Lemma autocomplete_end_resets_cursor (r : FetchReply) (t : Terminal) :
  selectedIndex (fst (autocomplete_end r t)) = (-1)%Z.
Proof.
  unfold autocomplete_end.
  destruct r as [m|status text]; [now destruct t|].
  destruct (JSON_parse text) as [data|]; [|now destruct t].
  destruct data; try (now destruct t).
  destruct (get "artworks" (JObj l)) as [a|]; [|now destruct t].
  destruct (truthy a && length_throws a); [now destruct t|].
  destruct (truthy a && length_gt0 a); [|now destruct t].
  pose proof (show_resets_cursor a t) as H.
  destruct (showAutocomplete a t) as [t' [m|]]; simpl in *.
  - now destruct t'.
  - exact H.
Qed.

(** *** Every event keeps the cursor in range *)

Lemma controller_same (t t' : Terminal) :
  ac_state t' = ac_state t -> controller_step t t'.
Proof.
  unfold ac_state, controller_step, index_in_range.
  intros H. injection H as -> -> ->. split; [trivial|now left].
Qed.

Lemma controller_reset (t t' : Terminal) :
  selectedIndex t' = (-1)%Z -> controller_step t t'.
Proof.
  intros H. split; [intros _; now apply in_range_of_minus_one|now right].
Qed.

Lemma ac_handleInput_begin (t t' : Terminal) (req : ChatRequest) :
  handleInput_begin t = Some (t', req) -> ac_state t' = ac_state t.
Proof.
  intros H. apply handleInput_begin_shape in H as (_ & _ & _ & ->).
  reflexivity.
Qed.

Lemma ac_handleInput (w : World) :
  ac_state (term (handleInput w)) = ac_state (term w).
Proof.
  unfold handleInput.
  destruct (handleInput_begin (term w)) as [[t req]|] eqn:H; [|reflexivity].
  simpl. now apply ac_handleInput_begin in H.
Qed.

Lemma ac_handleInput_end (o : ChatOutcome) (t : Terminal) :
  ac_state (fst (handleInput_end o t)) = ac_state t.
Proof. now rewrite handleInput_end_shape. Qed.

Lemma ac_createSession_end (r : FetchReply) (t : Terminal) :
  ac_state (fst (createSession_end r t)) = ac_state t.
Proof.
  unfold createSession_end. destruct r as [m|status text]; [reflexivity|].
  destruct (JSON_parse text) as [data|]; [|reflexivity].
  destruct data; reflexivity.
Qed.

Lemma ac_handleAutocomplete (w : World) :
  ac_state (term (handleAutocomplete w)) = ac_state (term w)
  \/ selectedIndex (term (handleAutocomplete w)) = (-1)%Z.
Proof.
  unfold handleAutocomplete.
  destruct (String.length (trim (userInput_value (term w))) <? 1).
  - right. reflexivity.
  - left. destruct (autocompleteTimeout (term w)); reflexivity.
Qed.

Lemma ac_fire (id : nat) (w : World) :
  ac_state (term (fire id w)) = ac_state (term w)
  \/ selectedIndex (term (fire id w)) = (-1)%Z.
Proof.
  unfold fire. destruct (find_timer id w) as [tm|]; [|now left].
  destruct (timer_due tm <=? clock w); [|now left].
  destruct (timer_callback tm) as [query|]; unfold run_callback.
  - destruct (lone_surrogate query); [|now left].
    right. simpl. now destruct (term w).
  - simpl term.
    destruct (negb (isProcessing (term w))); [|now left].
    right. simpl. now destruct (term w) as [? ? [|] ? ? ? ? ? ? ?].
Qed.

Lemma step_controller (w : World) (e : Event) :
  controller_step (term w) (term (step w e)).
Proof.
  destruct e as [k|v| |i|ms|id|fid r|r|o]; simpl step.
  - (* keypress *)
    destruct k; simpl.
    + destruct (negb (isProcessing (term w))); [|now apply controller_same].
      destruct (autocompleteList_show (term w)).
      * destruct (item_at _ _) as [it|]; [|now apply controller_same].
        apply controller_reset.
        pose proof (ac_handleInput
          (with_term (hideAutocomplete
             (assign_userInput_value (dataset_string (item_artwork_name it))
                (term w))) w)) as H.
        unfold ac_state in H. injection H as _ _ ->.
        now destruct (term w).
      * apply controller_same, ac_handleInput.
    + split; [apply navigate_in_range|left; apply navigate_show].
    + split; [apply navigate_in_range|left; apply navigate_show].
    + apply controller_reset. apply hide_closed.
    + now apply controller_same.
  - (* input *)
    destruct (ac_handleAutocomplete
                (with_term (set_userInput_value v (term w)) w)) as [H|H].
    + apply controller_same. rewrite H. now destruct (term w).
    + now apply controller_reset.
  - (* blur *)
    apply controller_same. now destruct (term w).
  - (* click *)
    unfold on_item_click.
    destruct (nth_error _ i) as [it|]; [|now apply controller_same].
    apply controller_reset. simpl.
    now destruct (term w) as [? ? [|] ? ? ? ? ? ? ?].
  - now apply controller_same.
  - destruct (ac_fire id w) as [H|H];
      [now apply controller_same|now apply controller_reset].
  - (* reply to the fetch of suggestions *)
    unfold on_autocomplete_reply.
    destruct (existsb _ (fetches w)); [|now apply controller_same].
    pose proof (autocomplete_end_resets_cursor r (term w)) as H.
    destruct (autocomplete_end r (term w)) as [t es].
    now apply controller_reset.
  - (* reply to createSession *)
    unfold on_session_reply.
    destruct (session_pending w); [|now apply controller_same].
    pose proof (ac_createSession_end r (term w)) as H.
    destruct (createSession_end r (term w)) as [t es].
    now apply controller_same.
  - (* end of the chat request *)
    unfold on_chat_reply.
    destruct (isProcessing (term w)); [|now apply controller_same].
    pose proof (ac_handleInput_end o (term w)) as H.
    destruct (handleInput_end o (term w)) as [t es].
    now apply controller_same.
Qed.

(** C7. Every event of the page (a key, an edit, a click on an item, a
    timer, a reply) keeps [selectedIndex] in [-1, items.length - 1], and so
    do [showAutocomplete], [hideAutocomplete] and [navigateAutocomplete]
    called on their own; [hideAutocomplete], the one way into the closed
    state, leaves [selectedIndex] at -1 whatever the state it is called in,
    and after every event that finds the list open and leaves it closed
    [selectedIndex] is -1. *)
Theorem cursor_stays_in_range (w : World) (e : Event) :
  (index_in_range (term w) -> index_in_range (term (step w e)))
  /\ (forall a t, index_in_range (fst (showAutocomplete a t)))
  /\ (forall t, index_in_range (hideAutocomplete t))
  /\ (forall d t, index_in_range t -> index_in_range (navigateAutocomplete d t))
  /\ (forall t, autocompleteList_show (hideAutocomplete t) = false
                /\ selectedIndex (hideAutocomplete t) = (-1)%Z)
  /\ (autocompleteList_show (term w) = true ->
      autocompleteList_show (term (step w e)) = false ->
      selectedIndex (term (step w e)) = (-1)%Z).
Proof.
  destruct (step_controller w e) as [Hr Hs].
  split; [exact Hr|].
  split; [intros a t; apply in_range_of_minus_one, show_resets_cursor|].
  split; [intros t; apply in_range_of_minus_one, hide_closed|].
  split; [intros d t; apply navigate_in_range|].
  split; [intros t; split; apply hide_closed|].
  intros Hopen Hclosed. destruct Hs as [Hs|Hs]; [congruence|exact Hs].
Qed.

Lemma cursor_stays_in_range_witness :
  index_in_range (term mona_open)
  /\ index_in_range (term (step mona_open (KeyPress ArrowDown)))
  /\ selectedIndex (term (step mona_open (KeyPress Escape))) = (-1)%Z.
Proof.
  assert (H : index_in_range (term mona_open))
    by (unfold index_in_range; vm_compute; split; discriminate).
  split; [exact H|]. split.
  - exact (proj1 (cursor_stays_in_range mona_open (KeyPress ArrowDown)) H).
  - apply (proj2 (proj2 (proj2 (proj2 (proj2
             (cursor_stays_in_range mona_open (KeyPress Escape))))))).
    + reflexivity.
    + reflexivity.
Defined.

End AutocompleteProps.

(** ** Debounce of the suggestion fetch *)

Module DebounceProps.
Import Frames AutocompleteProps.

(** *** The methods of the terminal leave [autocompleteTimeout] alone *)

Lemma timeout_controller_only (t t' : Terminal) :
  controller_only t t' -> autocompleteTimeout t' = autocompleteTimeout t.
Proof. unfold controller_only. now intros ->. Qed.

Lemma timeout_navigate (d : Z) (t : Terminal) :
  autocompleteTimeout (navigateAutocomplete d t) = autocompleteTimeout t.
Proof. apply timeout_controller_only, controller_only_navigate. Qed.

Lemma timeout_autocomplete_end (r : FetchReply) (t : Terminal) :
  autocompleteTimeout (fst (autocomplete_end r t)) = autocompleteTimeout t.
Proof. apply timeout_controller_only, controller_only_autocomplete_end. Qed.

Lemma timeout_createSession_end (r : FetchReply) (t : Terminal) :
  autocompleteTimeout (fst (createSession_end r t)) = autocompleteTimeout t.
Proof. now rewrite createSession_end_shape. Qed.

Lemma timer_view_handleInput (w : World) :
  timer_view (handleInput w) = timer_view w.
Proof.
  unfold handleInput.
  destruct (handleInput_begin (term w)) as [[t req]|] eqn:H; [|reflexivity].
  apply handleInput_begin_shape in H as (_ & _ & _ & ->). reflexivity.
Qed.

(** *** What a step does to the timers *)

Lemma step_timers (w : World) (e : Event) : timer_step w (step w e).
Proof.
  destruct e as [k|v| |i|ms|id|fid r|r|o]; simpl step.
  - apply ts_same. destruct k; simpl.
    + destruct (negb (isProcessing (term w))); [|reflexivity].
      destruct (autocompleteList_show (term w)).
      * destruct (item_at _ _) as [it|]; [|reflexivity].
        rewrite timer_view_handleInput. world_refl w.
      * apply timer_view_handleInput.
    + unfold timer_view. simpl. now rewrite timeout_navigate.
    + unfold timer_view. simpl. now rewrite timeout_navigate.
    + world_refl w.
    + reflexivity.
  - unfold handleAutocomplete. simpl term. simpl userInput_value.
    replace (userInput_value (set_userInput_value v (term w))) with v
      by now destruct (term w).
    destruct (String.length (trim v) <? 1).
    + apply ts_same. world_refl w.
    + apply (ts_debounce _ _ (trim v)).
      destruct (autocompleteTimeout (term w)) eqn:Ht;
        unfold timer_view; simpl;
        replace (autocompleteTimeout (set_userInput_value v (term w)))
          with (autocompleteTimeout (term w)) by (now destruct (term w));
        rewrite Ht; reflexivity.
  - apply ts_blur. world_refl w.
  - apply ts_same. unfold on_item_click.
    destruct (nth_error _ i) as [it|]; [|reflexivity].
    world_refl w.
  - now apply ts_same.
  - unfold fire. destruct (find_timer id w) as [tm|] eqn:Hf; [|now apply ts_same].
    destruct (timer_due tm <=? clock w); [|now apply ts_same].
    apply (ts_fire _ _ id tm Hf).
    destruct (timer_callback tm) as [query|];
      [unfold run_callback; destruct (lone_surrogate query);
       [world_refl w|reflexivity]|].
    unfold run_callback. simpl term.
    destruct (negb (isProcessing (term w))); [|reflexivity].
    world_refl w.
  - apply ts_same. unfold on_autocomplete_reply.
    destruct (existsb _ (fetches w)); [|reflexivity].
    pose proof (timeout_autocomplete_end r (term w)) as H.
    destruct (autocomplete_end r (term w)) as [t es].
    unfold timer_view. simpl in *. now rewrite H.
  - apply ts_same. unfold on_session_reply.
    destruct (session_pending w); [|reflexivity].
    pose proof (timeout_createSession_end r (term w)) as H.
    destruct (createSession_end r (term w)) as [t es].
    unfold timer_view. simpl in *. now rewrite H.
  - apply ts_same. unfold on_chat_reply.
    destruct (isProcessing (term w)); [|reflexivity].
    pose proof (handleInput_end_shape o (term w)) as H.
    destruct (handleInput_end o (term w)) as [t es].
    unfold timer_view. simpl in *. now rewrite H.
Qed.

(** *** The timers stay in order *)

Lemma timers_ok_spec (w : World) :
  timers_ok w = true <->
  (forall tm, In tm (timers w) -> timer_id tm < next_timer w)
  /\ (forall i, autocompleteTimeout (term w) = Some i -> i < next_timer w)
  /\ (forall tm, In tm (timers w) -> is_debounce tm = true ->
                 autocompleteTimeout (term w) = Some (timer_id tm)).
Proof.
  unfold timers_ok. rewrite !andb_true_iff, !forallb_forall. split.
  - intros [[H1 H2] H3]. repeat split.
    + intros tm Hin. apply Nat.ltb_lt. now apply H1.
    + intros i Hi. rewrite Hi in H2. now apply Nat.ltb_lt.
    + intros tm Hin Hd. specialize (H3 tm Hin). rewrite Hd in H3. simpl in H3.
      destruct (autocompleteTimeout (term w)) as [i|]; [|discriminate].
      simpl in H3. apply Nat.eqb_eq in H3. now subst.
  - intros (H1 & H2 & H3). repeat split.
    + intros tm Hin. apply Nat.ltb_lt. now apply H1.
    + destruct (autocompleteTimeout (term w)) as [i|]; [|reflexivity].
      apply Nat.ltb_lt. now apply H2.
    + intros tm Hin. destruct (is_debounce tm) eqn:Hd; [|reflexivity].
      rewrite (H3 tm Hin Hd). simpl. apply Nat.eqb_refl.
Qed.

Lemma in_cleared (o : option nat) (w : World) (tm : Timer) :
  In tm (timers (clearTimeout o w)) ->
  In tm (timers w) /\ o <> Some (timer_id tm).
Proof.
  destruct o as [i|]; simpl.
  - rewrite filter_In. intros [Hin Hne]. split; [exact Hin|].
    intros [= ->]. now rewrite Nat.eqb_refl in Hne.
  - intros H. split; [exact H|discriminate].
Qed.

Lemma find_timer_some (id : nat) (w : World) (tm : Timer) :
  find_timer id w = Some tm -> In tm (timers w) /\ timer_id tm = id.
Proof.
  unfold find_timer. intros H. apply find_some in H as [Hin Heq].
  split; [exact Hin|now apply Nat.eqb_eq].
Qed.

Lemma timers_ok_step (w : World) (e : Event) :
  timers_ok w = true -> timers_ok (step w e) = true.
Proof.
  rewrite !timers_ok_spec. intros (H1 & H2 & H3).
  destruct (step_timers w e) as [Hv|q Hv|Hv|id tm Hf Hv];
    unfold timer_view in Hv; injection Hv as Ht Hn Ha Hfd;
    rewrite Ht, Hn, Ha; clear Ht Hn Ha Hfd.
  - auto.
  - repeat split.
    + intros tm Hin. apply in_app_or in Hin as [Hin|[<-|[]]].
      * apply in_cleared in Hin as [Hin _]. specialize (H1 tm Hin). lia.
      * simpl. lia.
    + intros i [= <-]. lia.
    + intros tm Hin Hd. apply in_app_or in Hin as [Hin|[<-|[]]].
      * apply in_cleared in Hin as [Hin Hne]. now specialize (H3 tm Hin Hd).
      * reflexivity.
  - repeat split.
    + intros tm Hin. apply in_app_or in Hin as [Hin|[<-|[]]].
      * specialize (H1 tm Hin). lia.
      * simpl. lia.
    + intros i Hi. specialize (H2 i Hi). lia.
    + intros tm Hin Hd. apply in_app_or in Hin as [Hin|[<-|[]]].
      * now apply H3.
      * discriminate.
  - repeat split.
    + intros x Hin. apply filter_In in Hin as [Hin _]. now apply H1.
    + exact H2.
    + intros x Hin Hd. apply filter_In in Hin as [Hin _]. now apply H3.
Qed.

Lemma timers_ok_run (w : World) (es : list Event) :
  timers_ok w = true -> timers_ok (run w es) = true.
Proof.
  revert w. induction es as [|e es IH]; intros w H; [exact H|].
  simpl. apply IH. now apply timers_ok_step.
Qed.

Lemma timers_ok_new_World : timers_ok new_World = true.
Proof. reflexivity. Qed.

(** *** A timer that was cleared does not run *)

Lemma retired_spec (old : nat) (w : World) :
  retired old w = true <->
  old < next_timer w /\ (forall tm, In tm (timers w) -> timer_id tm <> old).
Proof.
  unfold retired. rewrite andb_true_iff, forallb_forall, Nat.ltb_lt.
  split; intros [H1 H2]; (split; [exact H1|]); intros tm Hin;
    specialize (H2 tm Hin).
  - apply negb_true_iff, Nat.eqb_neq in H2. exact H2.
  - apply negb_true_iff, Nat.eqb_neq. exact H2.
Qed.

Lemma retired_step (old : nat) (w : World) (e : Event) :
  retired old w = true ->
  retired old (step w e) = true
  /\ (In old (fired (step w e)) -> In old (fired w)).
Proof.
  rewrite !retired_spec. intros [H1 H2].
  destruct (step_timers w e) as [Hv|q Hv|Hv|id tm Hf Hv];
    unfold timer_view in Hv; injection Hv as Ht Hn Ha Hfd;
    rewrite Ht, Hn, Hfd; clear Ht Hn Ha Hfd.
  - auto.
  - split; [split; [lia|]|trivial].
    intros tm Hin. apply in_app_or in Hin as [Hin|[<-|[]]].
    + apply in_cleared in Hin as [Hin _]. now apply H2.
    + simpl. lia.
  - split; [split; [lia|]|trivial].
    intros tm Hin. apply in_app_or in Hin as [Hin|[<-|[]]].
    + now apply H2.
    + simpl. lia.
  - apply find_timer_some in Hf as [Hin Hid]. split; [split; [lia|]|].
    + intros x Hx. apply filter_In in Hx as [Hx _]. now apply H2.
    + intros [Heq|Hold]; [|exact Hold].
      subst. exfalso. now apply (H2 tm Hin).
Qed.

Lemma retired_run (old : nat) (w : World) (es : list Event) :
  retired old w = true -> In old (fired (run w es)) -> In old (fired w).
Proof.
  revert w. induction es as [|e es IH]; intros w H Hin; [exact Hin|].
  simpl in Hin. destruct (retired_step old w e H) as [H' Hf].
  apply Hf. now apply IH.
Qed.

Lemma length_lt_1 (s : string) : (String.length s <? 1) = is_empty s.
Proof. now destruct s. Qed.

Lemma is_empty_false (s : string) : s <> "" -> is_empty s = false.
Proof. destruct s; [contradiction|reflexivity]. Qed.

(** The step of an edit that leaves a query: the timer view after it. *)
Lemma debounce_view (w : World) (v : string) :
  trim v <> "" ->
  timer_view (step w (InputEdit v))
  = ((timers (clearTimeout (autocompleteTimeout (term w)) w)
      ++ [mkTimer (next_timer w) (clock w + 300) (AutocompleteFetch (trim v))])%list,
     S (next_timer w), Some (next_timer w), fired w).
Proof.
  intros Hq. simpl step. unfold handleAutocomplete.
  simpl term.
  replace (userInput_value (set_userInput_value v (term w))) with v
    by now destruct (term w).
  rewrite length_lt_1, (is_empty_false _ Hq).
  replace (autocompleteTimeout (set_userInput_value v (term w)))
    with (autocompleteTimeout (term w)) by (now destruct (term w)).
  destruct (autocompleteTimeout (term w)); reflexivity.
Qed.

Lemma debounce_retires (w : World) (v : string) (old : nat) :
  timers_ok w = true ->
  autocompleteTimeout (term w) = Some old ->
  trim v <> "" ->
  retired old (step w (InputEdit v)) = true.
Proof.
  intros Hok Hold Hq. apply timers_ok_spec in Hok as (H1 & H2 & H3).
  pose proof (debounce_view w v Hq) as Hv.
  remember (step w (InputEdit v)) as w' eqn:Ew. clear Ew.
  apply retired_spec.
  unfold timer_view in Hv. injection Hv as Ht Hn _ _. rewrite Ht, Hn.
  specialize (H2 old Hold). split; [lia|].
  intros tm Hin. apply in_app_or in Hin as [Hin|[<-|[]]].
  - apply in_cleared in Hin as [_ Hne]. congruence.
  - simpl. lia.
Qed.

(** *** The input-changed transition *)

(** C6, as the spec states it, fails on the part in brackets: nothing
    discards the reply to a fetch that an earlier input put in flight. The
    user types [M], the debounce timer fires and the fetch starts; the user
    empties the input, which closes the list; the reply arrives and opens
    the list, on an empty input and with no later input. *)
Lemma reply_in_flight_reopens_the_list :
  let w := run new_World [InputEdit "M"; Tick 300; TimerFire 1; InputEdit ""] in
  let w' := step w (AutocompleteReply 1 mona_reply) in
  userInput_value (term w) = ""
  /\ autocompleteList_show (term w) = false
  /\ userInput_value (term w') = ""
  /\ autocompleteList_show (term w') = true.
Proof. vm_compute. repeat split. Qed.

(** The same happens when the input is emptied while the debounce timer is
    still pending: the guard returns before [clearTimeout], the timer fires
    and its fetch opens the list. *)
Lemma pending_timer_survives_empty_input :
  let w := run new_World [InputEdit "M"; Tick 100; InputEdit ""] in
  let w' := run w [Tick 200; TimerFire 1; AutocompleteReply 1 mona_reply] in
  autocompleteList_show (term w) = false
  /\ timers w = [mkTimer 1 300 (AutocompleteFetch "M")]
  /\ userInput_value (term w') = ""
  /\ autocompleteList_show (term w') = true.
Proof. vm_compute. repeat split. Qed.

(** C6, amended. On an input-changed event with an empty trimmed query
    the list is closed at once, with the cursor at -1. With a non-empty
    trimmed query the pending timer kept in [autocompleteTimeout] is
    cleared and a timer for the fetch of that query is set 300 ms ahead,
    its id kept in [autocompleteTimeout]; the timer that was superseded
    never runs, whatever happens next; and at all times a pending debounce
    timer is the one scheduled last. *)
Theorem input_changed_debounces (w : World) (v : string) :
  let w' := step w (InputEdit v) in
  (trim v = "" ->
   autocompleteList_show (term w') = false
   /\ selectedIndex (term w') = (-1)%Z)
  /\ (trim v <> "" ->
      timers w'
      = (timers (clearTimeout (autocompleteTimeout (term w)) w)
         ++ [mkTimer (next_timer w) (clock w + 300)
               (AutocompleteFetch (trim v))])%list
      /\ autocompleteTimeout (term w') = Some (next_timer w)
      /\ (forall old tm,
            autocompleteTimeout (term w) = Some old ->
            In tm (timers (clearTimeout (autocompleteTimeout (term w)) w)) ->
            timer_id tm <> old))
  /\ (timers_ok w = true -> trim v <> "" ->
      forall old es,
        autocompleteTimeout (term w) = Some old ->
        ~ In old (fired w) ->
        ~ In old (fired (run w' es)))
  /\ (timers_ok w = true ->
      forall es id tm,
        find_timer id (run w' es) = Some tm ->
        is_debounce tm = true ->
        autocompleteTimeout (term (run w' es)) = Some id).
Proof.
  intros w'.
  assert (Hview : trim v <> "" ->
            timer_view w'
            = ((timers (clearTimeout (autocompleteTimeout (term w)) w)
                ++ [mkTimer (next_timer w) (clock w + 300)
                      (AutocompleteFetch (trim v))])%list,
               S (next_timer w), Some (next_timer w), fired w))
    by apply debounce_view.
  assert (Hret : forall old, timers_ok w = true ->
            autocompleteTimeout (term w) = Some old -> trim v <> "" ->
            retired old w' = true)
    by (intros old; apply debounce_retires).
  assert (Hoks : timers_ok w = true -> timers_ok w' = true)
    by apply timers_ok_step.
  assert (Hempty : trim v = "" ->
            autocompleteList_show (term w') = false
            /\ selectedIndex (term w') = (-1)%Z).
  { intros Hq. subst w'. simpl step. unfold handleAutocomplete. simpl term.
    replace (userInput_value (set_userInput_value v (term w))) with v
      by now destruct (term w).
    rewrite Hq. simpl. now destruct (term w). }
  clearbody w'.
  split; [exact Hempty|]. split; [|split].
  - intros Hq. specialize (Hview Hq).
    unfold timer_view in Hview. injection Hview as Ht _ Ha _.
    split; [exact Ht|]. split; [exact Ha|].
    intros old tm Hold Hin. apply in_cleared in Hin as [_ Hne]. congruence.
  - intros Hok Hq old es Hold Hnot Hin. apply Hnot.
    pose proof (retired_run old w' es (Hret old Hok Hold Hq) Hin) as Hin'.
    specialize (Hview Hq).
    unfold timer_view in Hview. injection Hview as _ _ _ Hf.
    now rewrite Hf in Hin'.
  - intros Hok es id tm Hf Hd.
    assert (Hok' : timers_ok (run w' es) = true)
      by (apply timers_ok_run; auto).
    apply timers_ok_spec in Hok' as (_ & _ & H3).
    apply find_timer_some in Hf as [Hin <-]. now apply H3.
Qed.

Lemma input_changed_debounces_witness :
  let w := run new_World [InputEdit "M"; Tick 100] in
  let w' := step w (InputEdit "Mo") in
  timers w' = [mkTimer 2 400 (AutocompleteFetch "Mo")]
  /\ ~ In 1 (fired (run w' [Tick 300; TimerFire 1; TimerFire 2]))
  /\ autocompleteList_show (term (step w' (InputEdit " "))) = false.
Proof.
  intros w w'.
  assert (Hq : trim "Mo" <> "") by (vm_compute; discriminate).
  split; [|split].
  - exact (proj1 (proj1 (proj2 (input_changed_debounces w "Mo")) Hq)).
  - refine (proj1 (proj2 (proj2 (input_changed_debounces w "Mo")))
              _ Hq 1 _ _ _).
    + reflexivity.
    + reflexivity.
    + intros [].
  - refine (proj1 (proj1 (input_changed_debounces w' " ") _)).
    reflexivity.
Defined.

End DebounceProps.

(** ** Input coordinator *)

Module CoordinatorProps.
Import Frames.

Lemma sv_controller_only (t t' : Terminal) :
  controller_only t t' ->
  isProcessing t' = isProcessing t /\ terminalBody t' = terminalBody t.
Proof. unfold controller_only. now intros ->. Qed.

(** No event but Enter and the reply to the chat request touches the lock,
    the display log or the list of requests sent. *)
Lemma quiet_step (w : World) (e : Event) :
  is_ChatReply e = false ->
  is_Enter e = false ->
  submission_view (step w e) = submission_view w.
Proof.
  intros He Hk. unfold submission_view.
  destruct e as [k|v| |i|ms|id|fid r|r|o]; simpl step; try discriminate.
  - destruct k; simpl; try discriminate.
    + destruct (sv_controller_only _ _ (controller_only_navigate 1 (term w)))
        as [-> ->]. reflexivity.
    + destruct (sv_controller_only _ _ (controller_only_navigate (-1) (term w)))
        as [-> ->]. reflexivity.
    + now destruct (term w).
    + reflexivity.
  - unfold handleAutocomplete. simpl term.
    destruct (String.length _ <? 1); [world_refl w|].
    destruct (autocompleteTimeout _); world_refl w.
  - world_refl w.
  - unfold on_item_click.
    destruct (nth_error _ i) as [it|]; [|reflexivity]. world_refl w.
  - reflexivity.
  - unfold fire. destruct (find_timer id w) as [tm|]; [|reflexivity].
    destruct (timer_due tm <=? clock w); [|reflexivity].
    destruct (timer_callback tm) as [query|];
      [unfold run_callback; destruct (lone_surrogate query);
       [world_refl w|reflexivity]|].
    unfold run_callback. simpl term.
    destruct (negb (isProcessing (term w))); [|reflexivity].
    world_refl w.
  - unfold on_autocomplete_reply.
    destruct (existsb _ (fetches w)); [|reflexivity].
    destruct (sv_controller_only _ _
                (controller_only_autocomplete_end r (term w))) as [H1 H2].
    destruct (autocomplete_end r (term w)) as [t es]. simpl in *.
    now rewrite H1, H2.
  - unfold on_session_reply.
    destruct (session_pending w); [|reflexivity].
    pose proof (createSession_end_shape r (term w)) as H.
    destruct (createSession_end r (term w)) as [t es]. simpl in *.
    rewrite H. now destruct (term w).
Qed.

(** While a chat request is in flight Enter is ignored as well. *)
Lemma in_flight_step (w : World) (e : Event) :
  isProcessing (term w) = true ->
  is_ChatReply e = false ->
  submission_view (step w e) = submission_view w.
Proof.
  intros Hp He. destruct (is_Enter e) eqn:Hk; [|now apply quiet_step].
  destruct e as [k| | | | | | | |]; try discriminate.
  destruct k; try discriminate.
  simpl step. unfold on_keypress. now rewrite Hp.
Qed.

Lemma in_flight_run (w : World) (es : list Event) :
  isProcessing (term w) = true ->
  existsb is_ChatReply es = false ->
  submission_view (run w es) = submission_view w.
Proof.
  revert w. induction es as [|e es IH]; intros w Hp Hes; [reflexivity|].
  simpl in Hes. apply orb_false_iff in Hes as [He Hes].
  pose proof (in_flight_step w e Hp He) as Hs.
  simpl. rewrite IH; [exact Hs| |exact Hes].
  unfold submission_view in Hs. injection Hs as -> _ _. exact Hp.
Qed.

Lemma run_app (w : World) (es fs : list Event) :
  run w (es ++ fs) = run (run w es) fs.
Proof. apply fold_left_app. Qed.

(** The world right after [handleInput] sent a request. *)
Lemma handleInput_sends (w : World) (t : Terminal) (req : ChatRequest) :
  handleInput_begin (term w) = Some (t, req) ->
  submission_view (handleInput w)
  = (true,
     (terminalBody (term w) ++ [user_line (req_message req); typing_line])%list,
     (chat_log w ++ [req])%list)
  /\ userInput_disabled (term (handleInput w)) = true
  /\ req = mkChatRequest (trim (userInput_value (term w))) (sessionId (term w)).
Proof.
  intros H. unfold handleInput, submission_view. rewrite H.
  apply handleInput_begin_shape in H as (_ & _ & -> & ->).
  repeat split.
Qed.

Lemma term_on_chat_reply (o : ChatOutcome) (w : World) :
  isProcessing (term w) = true ->
  term (on_chat_reply o w) = fst (handleInput_end o (term w))
  /\ chat_log (on_chat_reply o w) = chat_log w.
Proof.
  intros Hp. unfold on_chat_reply. rewrite Hp.
  now destruct (handleInput_end o (term w)) as [t es].
Qed.

(** *** Guaranteed cleanup *)

(** C3. A call of [handleInput] that passes its guard sends the request
    and takes the lock. Whatever else happens on the page before the
    request settles, once it settles, in whichever way (the fetch is
    rejected, the status is not a success, a read of the body fails, the
    stream ends with or without records that fail to parse), the lock is
    released, the input is enabled and it has the focus. *)
Theorem submission_always_unlocks
    (w : World) (t : Terminal) (req : ChatRequest)
    (es : list Event) (o : ChatOutcome) :
  handleInput_begin (term w) = Some (t, req) ->
  existsb is_ChatReply es = false ->
  let sent := handleInput w in
  let w' := run sent (es ++ [ChatReply o]) in
  (isProcessing (term sent) = true /\ userInput_disabled (term sent) = true)
  /\ isProcessing (term w') = false
  /\ userInput_disabled (term w') = false
  /\ userInput_focused (term w') = true.
Proof.
  intros Hb Hes sent w'.
  destruct (handleInput_sends w t req Hb) as (Hsv & Hdis & _).
  fold sent in Hsv, Hdis.
  assert (Hp : isProcessing (term sent) = true).
  { unfold submission_view in Hsv. now injection Hsv. }
  split; [now split|].
  pose proof (in_flight_run sent es Hp Hes) as Hrun.
  assert (Hp' : isProcessing (term (run sent es)) = true).
  { unfold submission_view in Hrun. injection Hrun as -> _ _. exact Hp. }
  subst w'. rewrite run_app. simpl run.
  destruct (term_on_chat_reply o (run sent es) Hp') as [-> _].
  rewrite handleInput_end_shape. repeat split.
Qed.

Lemma submission_always_unlocks_witness :
  let w' := run (step mona_selected (KeyPress Enter))
                [Blur; Tick 200; TimerFire 2;
                 ChatReply (Responded 503 None)] in
  isProcessing (term w') = false
  /\ userInput_disabled (term w') = false
  /\ userInput_focused (term w') = true.
Proof.
  refine (proj2 (submission_always_unlocks
                   (with_term
                      (hideAutocomplete
                         (set_userInput_value "Mona Lisa" (term mona_selected)))
                      mona_selected)
                   _ _ [Blur; Tick 200; TimerFire 2] (Responded 503 None) _ _)).
  - vm_compute. reflexivity.
  - reflexivity.
Defined.

(** *** The failure path *)

Lemma try_failure (o : ChatOutcome) (t : Terminal) (m : string) :
  failure_of o = Some m ->
  try_thrown (handleInput_try o t) = Some m
  /\ remove_first_typing (terminalBody (try_state (handleInput_try o t)))
     = remove_first_typing (terminalBody t).
Proof.
  unfold failure_of, handleInput_try.
  destruct o as [m'|status body]; [intros [= ->]; now split|].
  destruct (negb (status_ok status)); [intros [= <-]; now split|].
  destruct body as [b|]; [|discriminate].
  pose proof (read_loop_keeps_rest (body_chunks b) acc0 t) as H.
  destruct (read_loop (body_chunks b) (acc0, t)) as [[a t1] n]. simpl in H.
  destruct (body_end b); [discriminate|]. intros [= ->]. now split.
Qed.

Lemma remove_typing_last (b : list Line) (l : Line) :
  existsb line_typing b = false ->
  line_typing l = false ->
  remove_first_typing (b ++ [l; typing_line]) = (b ++ [l])%list.
Proof.
  intros Hb Hl. induction b as [|x b IH]; simpl.
  - now rewrite Hl.
  - simpl in Hb. apply orb_false_iff in Hb as [Hx Hb].
    now rewrite Hx, (IH Hb).
Qed.

(** C4. A submission is sent from a log without a typing line, and its
    request fails: the fetch is rejected, the status is not a success, or a
    read of the body fails. Whatever else happens on the page meanwhile,
    the log then is the log before the submission, the message of the user
    and one error entry with the description of the failure; the typing
    line is gone. One request was sent, none after the failure. *)
Theorem failed_request_shows_one_error
    (w : World) (t : Terminal) (req : ChatRequest)
    (es : list Event) (o : ChatOutcome) (m : string) :
  handleInput_begin (term w) = Some (t, req) ->
  existsb line_typing (terminalBody (term w)) = false ->
  existsb is_ChatReply es = false ->
  failure_of o = Some m ->
  let w' := run (handleInput w) (es ++ [ChatReply o]) in
  terminalBody (term w')
  = (terminalBody (term w) ++ [user_line (req_message req); error_line m])%list
  /\ existsb line_typing (terminalBody (term w')) = false
  /\ chat_log w' = (chat_log w ++ [req])%list
  /\ console w' = (console (run (handleInput w) es) ++ [(label_error, m)])%list.
Proof.
  intros Hb Hty Hes Hfail w'.
  destruct (handleInput_sends w t req Hb) as (Hsv & _ & _).
  pose proof Hsv as Hp. unfold submission_view in Hp. injection Hp as Hp _ _.
  pose proof (in_flight_run (handleInput w) es Hp Hes) as Hrun.
  rewrite Hsv in Hrun. unfold submission_view in Hrun.
  injection Hrun as Hp' Hbody Hlog.
  subst w'. rewrite run_app. simpl run.
  set (w1 := run (handleInput w) es) in *.
  assert (Hterm : terminalBody (term (on_chat_reply o w1))
                  = (terminalBody (term w)
                     ++ [user_line (req_message req); error_line m])%list).
  { destruct (term_on_chat_reply o w1 Hp') as [-> _].
    unfold handleInput_end.
    destruct (try_failure o (term w1) m Hfail) as [-> Hrest].
    simpl fst. unfold handleInput_finally, handleInput_catch.
    rewrite addLine_plain_body.
    transitivity (remove_first_typing
                    (terminalBody (try_state (handleInput_try o (term w1))))
                  ++ [error_line m])%list.
    { now destruct (try_state (handleInput_try o (term w1))). }
    rewrite Hrest, Hbody, remove_typing_last by (exact Hty || reflexivity).
    now rewrite <- app_assoc. }
  split; [exact Hterm|]. split; [|split].
  - rewrite Hterm, existsb_app, Hty. reflexivity.
  - destruct (term_on_chat_reply o w1 Hp') as [_ ->]. exact Hlog.
  - unfold on_chat_reply. rewrite Hp'. unfold handleInput_end.
    destruct (try_failure o (term w1) m Hfail) as [-> _]. reflexivity.
Qed.

Lemma failed_request_shows_one_error_witness :
  let w' := run (step mona_selected (KeyPress Enter))
                [Blur; ChatReply (Responded 500 None)] in
  terminalBody (term w')
  = [user_line "Mona Lisa"; error_line "HTTP error! status: 500"]
  /\ chat_log w' = [mkChatRequest "Mona Lisa" null].
Proof.
  split.
  - refine (proj1 (failed_request_shows_one_error
                     (with_term
                        (hideAutocomplete
                           (set_userInput_value "Mona Lisa" (term mona_selected)))
                        mona_selected)
                     _ (mkChatRequest "Mona Lisa" null)
                     [Blur] (Responded 500 None) "HTTP error! status: 500"
                     _ _ _ _)); vm_compute; reflexivity.
  - refine (proj1 (proj2 (proj2 (failed_request_shows_one_error
                     (with_term
                        (hideAutocomplete
                           (set_userInput_value "Mona Lisa" (term mona_selected)))
                        mona_selected)
                     _ (mkChatRequest "Mona Lisa" null)
                     [Blur] (Responded 500 None) "HTTP error! status: 500"
                     _ _ _ _)))); vm_compute; reflexivity.
Defined.

(** *** Accepting a suggestion *)

(** C8, as the spec states it, fails on the message: [handleInput] reads
    the input back and trims it. The selected artwork is named [Mona Lisa]
    followed by a space; the message sent is [Mona Lisa] without it. *)
Lemma accepted_name_is_trimmed :
  let w := padded_selected in
  let w' := step w (KeyPress Enter) in
  isProcessing (term w) = false
  /\ autocompleteList_show (term w) = true
  /\ option_map (fun it => dataset_string (item_artwork_name it))
        (item_at (selectedIndex (term w)) (autocompleteList_items (term w)))
     = Some "Mona Lisa "
  /\ chat_log w' = [mkChatRequest "Mona Lisa" null]
  /\ req_message (mkChatRequest "Mona Lisa" null) <> "Mona Lisa ".
Proof. vm_compute. repeat split. discriminate. Qed.

(** An artwork whose name is blank is accepted without a submission. *)
Lemma blank_name_is_not_submitted :
  let w := run new_World
             [InputEdit "M"; Tick 300; TimerFire 1;
              AutocompleteReply 1 (Replied 200 (jsrc "{'artworks':[{'name':' '}]}"));
              KeyPress ArrowDown] in
  let w' := step w (KeyPress Enter) in
  autocompleteList_show (term w) = true
  /\ selectedIndex (term w) = 0%Z
  /\ autocompleteList_show (term w') = false
  /\ userInput_value (term w') = " "
  /\ chat_log w' = []
  /\ isProcessing (term w') = false.
Proof. vm_compute. repeat split. Qed.

(** The input keeps a value without line breaks as it is assigned. *)
Lemma strip_newlines_id (s : string) :
  no_line_break s = true -> strip_newlines s = s.
Proof.
  induction s as [|c r IH]; simpl; [reflexivity|].
  destruct (is_line_break c); [discriminate|]. simpl.
  intros H. now rewrite IH.
Qed.

(** C8, amended. The list is open, the cursor is on an item whose name is
    plain (a string, or a value shown by its text: absent, [null], a
    boolean, a short integer) and holds no line break, and no submission
    is in flight. On Enter the name of the item is written to the input,
    the list is closed with the cursor at -1, and [handleInput] runs on
    that state: when the name trimmed is not empty a request is sent whose
    message is the name trimmed (the name itself when it has no white
    space around it), and when it is empty nothing is sent. The list stays
    closed with the cursor at -1 in both cases. *)
Theorem accept_submits_the_trimmed_name (w : World) (it : Item) :
  isProcessing (term w) = false ->
  autocompleteList_show (term w) = true ->
  item_at (selectedIndex (term w)) (autocompleteList_items (term w)) = Some it ->
  plain_value (item_artwork_name it) = true ->
  let name := dataset_string (item_artwork_name it) in
  no_line_break name = true ->
  let copied :=
    with_term (hideAutocomplete (assign_userInput_value name (term w))) w in
  let w' := step w (KeyPress Enter) in
  w' = handleInput copied
  /\ userInput_value (term copied) = name
  /\ autocompleteList_show (term w') = false
  /\ selectedIndex (term w') = (-1)%Z
  /\ (trim name <> "" ->
      chat_log w'
      = (chat_log w ++ [mkChatRequest (trim name) (sessionId (term w))])%list
      /\ isProcessing (term w') = true
      /\ userInput_value (term w') = "")
  /\ (trim name = "" ->
      chat_log w' = chat_log w
      /\ isProcessing (term w') = false
      /\ userInput_value (term w') = name).
Proof.
  intros Hp Hshow Hit _ name Hname copied w'.
  assert (Hw : w' = handleInput copied).
  { subst w'. simpl step. unfold on_keypress. now rewrite Hp, Hshow, Hit. }
  assert (Hval : userInput_value (term copied) = name).
  { transitivity (strip_newlines name);
      [now destruct (term w)|now apply strip_newlines_id]. }
  assert (Hproc : isProcessing (term copied) = false)
    by (rewrite <- Hp; now destruct (term w)).
  assert (Hsid : sessionId (term copied) = sessionId (term w))
    by now destruct (term w).
  assert (Hclosed : autocompleteList_show (term copied) = false
                    /\ selectedIndex (term copied) = (-1)%Z)
    by now destruct (term w).
  split; [exact Hw|]. split; [exact Hval|].
  rewrite Hw. clear Hw w'. unfold handleInput.
  destruct (handleInput_begin (term copied)) as [[t req]|] eqn:Hb.
  - destruct (handleInput_begin_shape _ _ _ Hb) as (Hne & _ & Hreq & Ht).
    cbv zeta in Hne, Hreq, Ht. rewrite Hval in Hne, Hreq. rewrite Hsid in Hreq.
    simpl term. simpl chat_log.
    split; [rewrite Ht; apply Hclosed|]. split; [rewrite Ht; apply Hclosed|].
    split.
    + intros _. rewrite Hreq, Ht. repeat split.
    + intros He. contradiction.
  - apply handleInput_begin_None in Hb. rewrite Hval, Hproc in Hb.
    destruct Hb as [Hb|Hb]; [|discriminate].
    split; [apply Hclosed|]. split; [apply Hclosed|]. split.
    + intros Hne. contradiction.
    + intros _. repeat split; assumption.
Qed.

Lemma accept_submits_the_trimmed_name_witness :
  let w' := step mona_selected (KeyPress Enter) in
  chat_log w' = [mkChatRequest "Mona Lisa" null]
  /\ isProcessing (term w') = true
  /\ userInput_value (term w') = "".
Proof.
  refine (proj1 (proj2 (proj2 (proj2 (proj2
            (accept_submits_the_trimmed_name mona_selected
               (mkItem (Some (JStr "Mona Lisa")) "1503" true) _ _ _ _ _))))) _).
  - reflexivity.
  - reflexivity.
  - reflexivity.
  - reflexivity.
  - reflexivity.
  - vm_compute. discriminate.
Defined.

(** The example of the spec from the first key to the committed entry. *)
Example mona_lisa_session :
  let sent := step mona_selected (KeyPress Enter) in
  let done :=
    step sent
      (ChatReply (streamed [(jsrc "data: {'token':'A portrait.'}" ++ nl
                             ++ jsrc "data: {'done':true}" ++ nl)%string])) in
  ac_state (term mona_open)
  = (true, [mkItem (Some (JStr "Mona Lisa")) "1503" false], (-1)%Z)
  /\ selectedIndex (term mona_selected) = 0%Z
  /\ chat_log sent = [mkChatRequest "Mona Lisa" null]
  /\ autocompleteList_show (term sent) = false
  /\ terminalBody (term sent) = [user_line "Mona Lisa"; typing_line]
  /\ terminalBody (term done)
     = [user_line "Mona Lisa"; committed_line "A portrait." []]
  /\ isProcessing (term done) = false.
Proof. vm_compute. repeat split. Qed.

(** *** Enter on an open list without a selection *)

(** C10. With the list open and the cursor at -1, Enter changes nothing:
    the world after the key is the world before it, so no request is sent,
    no entry is appended, the input keeps its text and the list stays open
    with the same items and cursor. *)
Theorem enter_without_selection_is_ignored (w : World) :
  autocompleteList_show (term w) = true ->
  selectedIndex (term w) = (-1)%Z ->
  step w (KeyPress Enter) = w.
Proof.
  intros Hshow Hsel. simpl step. unfold on_keypress.
  rewrite Hshow, Hsel.
  destruct (negb (isProcessing (term w))); reflexivity.
Qed.

Lemma enter_without_selection_is_ignored_witness :
  step mona_open (KeyPress Enter) = mona_open.
Proof.
  apply enter_without_selection_is_ignored; reflexivity.
Defined.

End CoordinatorProps.

(** ** Session handle *)

Module SessionProps.
Import Frames.

(** The request of [createSession] is rejected, or its reply is not a JSON
    text: the error is written to the console and [sessionId] keeps the
    [null] of the constructor. *)
Lemma failed_session_request_is_logged (w : World) (r : FetchReply) :
  session_pending w = true ->
  (exists m, r = Rejected m)
  \/ (exists status text, r = Replied status text /\ JSON_parse text = None) ->
  exists m,
    console (step w (SessionReply r)) = (console w ++ [(label_session, m)])%list
    /\ sessionId (term (step w (SessionReply r))) = sessionId (term w).
Proof.
  intros Hp [[m ->]|(status & text & -> & Hparse)];
    simpl step; unfold on_session_reply; rewrite Hp; simpl.
  - now exists m.
  - rewrite Hparse. now exists json_syntax_error.
Qed.

(** The request is sent with the handle as it is, [null] included. *)
Lemma chat_carries_the_handle (w : World) (t : Terminal) (req : ChatRequest) :
  handleInput_begin (term w) = Some (t, req) ->
  chat_log (handleInput w) = (chat_log w ++ [req])%list
  /\ req_session_id req = sessionId (term w).
Proof.
  intros H. unfold handleInput. rewrite H.
  apply handleInput_begin_shape in H as (_ & _ & -> & _). now split.
Qed.

(** C9 at a reply with status 500 and a JSON body: [createSession] does
    not look at the status. Nothing is written to the console, [sessionId]
    becomes [undefined] instead of staying [null], and the chat request
    that follows is sent without a [session_id] member. On the same reply
    [APIClient.createSession] throws. *)
Theorem error_status_goes_unnoticed :
  let r := Replied 500 (jsrc "{'detail':'Internal Server Error'}") in
  let w := step new_World (SessionReply r) in
  let w' := run w [InputEdit "hi"; KeyPress Enter] in
  console w = []
  /\ sessionId (term new_World) = null
  /\ sessionId (term w) = undefined
  /\ chat_log w' = [mkChatRequest "hi" undefined]
  /\ APIClient_createSession r = Throws "HTTP error! status: 500".
Proof. vm_compute. repeat split. Qed.

End SessionProps.

(** ** Worlds reached from the page load *)

Module ReachableProps.
Import StreamProps Frames AutocompleteProps DebounceProps CoordinatorProps.

Lemma typing_lines_app (b c : list Line) :
  typing_lines (b ++ c) = typing_lines b + typing_lines c.
Proof. unfold typing_lines. now rewrite filter_app, length_app. Qed.

Lemma typing_lines_remove (b : list Line) :
  typing_lines (remove_first_typing b) = pred (typing_lines b).
Proof.
  unfold typing_lines. induction b as [|l b IH]; simpl; [reflexivity|].
  destruct (line_typing l) eqn:Hl; simpl; [reflexivity|].
  now rewrite Hl.
Qed.

Lemma typing_lines_none (b : list Line) :
  typing_lines b = 0 -> existsb line_typing b = false.
Proof.
  unfold typing_lines. induction b as [|l b IH]; simpl; [reflexivity|].
  destruct (line_typing l); simpl; [discriminate|exact IH].
Qed.

Lemma addLine_typing_lines (text cls : string) (im : option json) (t t' : Terminal) :
  addLine text cls im t = Normal t' ->
  typing_lines (terminalBody t') = typing_lines (terminalBody t).
Proof.
  intros H. apply addLine_inv in H as [imgs ->].
  destruct t. simpl. rewrite typing_lines_app. simpl.
  unfold typing_lines at 2. simpl. lia.
Qed.

(** The [try] block leaves the typing lines alone or removes one; it
    removes one when it does not throw. *)
Lemma try_typing_lines (o : ChatOutcome) (t : Terminal) :
  let r := handleInput_try o t in
  let n := typing_lines (terminalBody t) in
  typing_lines (terminalBody (try_state r)) <= n
  /\ (try_thrown r = None ->
      typing_lines (terminalBody (try_state r)) = pred n).
Proof.
  unfold handleInput_try.
  destruct o as [m|status body]; [simpl; split; [lia|discriminate]|].
  destruct (negb (status_ok status)); [simpl; split; [lia|discriminate]|].
  destruct body as [b|]; [|simpl; split; [lia|discriminate]].
  rewrite read_loop_events.
  pose proof (aggregate_typing_lines (stream_events (body_chunks b)) acc0 t) as H.
  destruct (aggregate _ (acc0, t)) as [a t1]. simpl in H.
  destruct (body_end b); [|simpl; split; [lia|discriminate]].
  assert (H2 : typing_lines (terminalBody (removeTypingLine t1))
               = pred (typing_lines (terminalBody t))).
  { rewrite <- H. destruct t1. simpl. apply typing_lines_remove. }
  destruct (length_throws _);
    [cbn [try_state try_thrown]; rewrite H2; split; [lia|discriminate]|].
  destruct (addLine _ _ _ _) as [t3|m] eqn:Ha; cbn [try_state try_thrown].
  - apply addLine_typing_lines in Ha. rewrite Ha, H2. split; [lia|reflexivity].
  - rewrite H2. split; [lia|discriminate].
Qed.

(** When the request settles the one typing line is gone. *)
Lemma handleInput_end_typing_lines (o : ChatOutcome) (t : Terminal) :
  typing_lines (terminalBody t) = 1 ->
  typing_lines (terminalBody (fst (handleInput_end o t))) = 0.
Proof.
  intros H1. unfold handleInput_end.
  destruct (try_typing_lines o t) as [Hle Hnone]. cbv zeta in Hle, Hnone.
  rewrite H1 in Hle, Hnone.
  destruct (try_thrown (handleInput_try o t)) as [m|]; simpl fst.
  - unfold handleInput_finally, handleInput_catch.
    rewrite addLine_plain_body.
    transitivity (typing_lines
                    (remove_first_typing
                       (terminalBody (try_state (handleInput_try o t)))
                     ++ [error_line m])).
    { now destruct (try_state (handleInput_try o t)). }
    rewrite typing_lines_app, typing_lines_remove.
    unfold typing_lines at 2. simpl. lia.
  - transitivity (typing_lines (terminalBody (try_state (handleInput_try o t)))).
    { now destruct (try_state (handleInput_try o t)). }
    now rewrite Hnone.
Qed.

Lemma log_ok_spec (w : World) :
  log_ok w = true <->
  typing_lines (terminalBody (term w))
  = (if isProcessing (term w) then 1 else 0).
Proof. unfold log_ok. apply Nat.eqb_eq. Qed.

Lemma log_ok_view (w w' : World) :
  submission_view w' = submission_view w -> log_ok w = true -> log_ok w' = true.
Proof.
  unfold submission_view, log_ok. intros H. injection H as -> -> _. trivial.
Qed.

Lemma log_ok_handleInput (w : World) :
  log_ok w = true -> log_ok (handleInput w) = true.
Proof.
  intros Hok. destruct (handleInput_begin (term w)) as [[t req]|] eqn:Hb.
  - destruct (handleInput_sends w t req Hb) as (Hsv & _ & _).
    destruct (handleInput_begin_shape _ _ _ Hb) as (_ & Hp & _ & _).
    apply log_ok_spec in Hok. rewrite Hp in Hok.
    apply log_ok_spec. unfold submission_view in Hsv.
    injection Hsv as -> -> _. rewrite typing_lines_app, Hok.
    reflexivity.
  - unfold handleInput. now rewrite Hb.
Qed.

(** Every event keeps one typing line in the log while a request is in
    flight and none otherwise. *)
Lemma log_ok_step (w : World) (e : Event) :
  log_ok w = true -> log_ok (step w e) = true.
Proof.
  intros Hok.
  destruct (is_ChatReply e) eqn:Hc.
  - destruct e; try discriminate. simpl step. unfold on_chat_reply.
    destruct (isProcessing (term w)) eqn:Hp; [|exact Hok].
    apply log_ok_spec in Hok. rewrite Hp in Hok.
    pose proof (handleInput_end_typing_lines o (term w) Hok) as H0.
    pose proof (handleInput_end_shape o (term w)) as Hs.
    destruct (handleInput_end o (term w)) as [t es]. simpl in *.
    apply log_ok_spec. simpl. rewrite H0. now rewrite Hs.
  - destruct (is_Enter e) eqn:Hk.
    + destruct e as [k| | | | | | | |]; try discriminate.
      destruct k; try discriminate.
      simpl step. unfold on_keypress.
      destruct (negb (isProcessing (term w))); [|exact Hok].
      destruct (autocompleteList_show (term w));
        [|now apply log_ok_handleInput].
      destruct (item_at _ _) as [it|]; [|exact Hok].
      apply log_ok_handleInput.
      revert Hok. unfold log_ok. now destruct (term w).
    + exact (log_ok_view w (step w e) (quiet_step w e Hc Hk) Hok).
Qed.

Lemma index_in_range_run (w : World) (es : list Event) :
  index_in_range (term w) -> index_in_range (term (run w es)).
Proof.
  revert w. induction es as [|e es IH]; intros w H; [exact H|].
  simpl. apply IH. now apply step_controller.
Qed.

(** In every world reached from the page load the cursor is in range, the
    timers are in order, and the log holds a typing line exactly while a
    request is in flight. *)
Lemma reachable_invariants (es : list Event) :
  let w := run new_World es in
  index_in_range (term w)
  /\ timers_ok w = true
  /\ log_ok w = true
  /\ (isProcessing (term w) = false ->
      existsb line_typing (terminalBody (term w)) = false).
Proof.
  intros w.
  assert (Hlog : log_ok w = true).
  { subst w. generalize new_World (eq_refl : log_ok new_World = true).
    induction es as [|e es IH]; intros w0 H0; [exact H0|].
    simpl. apply IH. now apply log_ok_step. }
  split; [|split; [|split]].
  - apply index_in_range_run. unfold index_in_range. simpl. lia.
  - apply timers_ok_run, timers_ok_new_World.
  - exact Hlog.
  - intros Hp. apply log_ok_spec in Hlog. rewrite Hp in Hlog.
    now apply typing_lines_none.
Qed.

End ReachableProps.

(** ** Keyboard navigation of the suggestions *)

Module NavigationProps.
Import Frames AutocompleteProps.

(** Where [navigateAutocomplete] puts the cursor when there is an item. *)
Lemma navigate_cursor (d : Z) (t : Terminal) :
  autocompleteList_items t <> [] ->
  let len := Z.of_nat (List.length (autocompleteList_items t)) in
  let i := (selectedIndex t + d)%Z in
  selectedIndex (navigateAutocomplete d t)
  = (if (i <? 0)%Z then (len - 1)%Z else if (i >=? len)%Z then 0%Z else i).
Proof.
  intros Hne. destruct t as [b v dis foc sh items sid proc tmo sel].
  simpl in Hne. destruct items as [|x r]; [contradiction|].
  unfold navigateAutocomplete.
  cbn [autocompleteList_items selectedIndex].
  remember (Z.of_nat (List.length (x :: r))) as len eqn:Elen.
  assert (Hlen : (0 < len)%Z) by (subst len; simpl List.length; lia).
  destruct (len =? 0)%Z eqn:H0; [apply Z.eqb_eq in H0; lia|].
  cbv zeta.
  match goal with
  | |- selectedIndex (set_selectedIndex ?i ?u) = _ =>
      change (selectedIndex (set_selectedIndex i u)) with i
  end.
  destruct (sel + d <? 0)%Z; [|reflexivity].
  destruct (len - 1 >=? len)%Z eqn:H2; [lia|reflexivity].
Qed.

(** X1. With at least one item and the cursor in range, ArrowDown moves
    the cursor one item down and from the last item to the first;
    ArrowUp moves it one item up, and from the first item, or from no
    selection, to the last. Without items neither key does anything. *)
Theorem arrows_wrap_around (t : Terminal) :
  index_in_range t ->
  let len := Z.of_nat (List.length (autocompleteList_items t)) in
  (autocompleteList_items t <> [] ->
   selectedIndex (navigateAutocomplete 1 t)
   = (if (selectedIndex t =? len - 1)%Z then 0%Z else (selectedIndex t + 1)%Z)
   /\ selectedIndex (navigateAutocomplete (-1) t)
      = (if (selectedIndex t <=? 0)%Z then (len - 1)%Z
         else (selectedIndex t - 1)%Z))
  /\ (autocompleteList_items t = [] ->
      navigateAutocomplete 1 t = t /\ navigateAutocomplete (-1) t = t).
Proof.
  intros Hr len. split.
  - intros Hne. rewrite !navigate_cursor by exact Hne. fold len.
    unfold index_in_range in Hr. fold len in Hr. split.
    + destruct (selectedIndex t + 1 <? 0)%Z eqn:H1; [lia|].
      destruct (selectedIndex t + 1 >=? len)%Z eqn:H2;
        destruct (selectedIndex t =? len - 1)%Z eqn:H3; lia.
    + destruct (selectedIndex t + -1 <? 0)%Z eqn:H1;
        destruct (selectedIndex t <=? 0)%Z eqn:H3; try lia.
      destruct (selectedIndex t + -1 >=? len)%Z eqn:H2; lia.
  - intros He. split; now apply navigate_no_items.
Qed.

Lemma arrows_wrap_around_witness :
  selectedIndex (navigateAutocomplete 1 (term mona_selected)) = 0%Z
  /\ selectedIndex (navigateAutocomplete (-1) (term mona_open)) = 0%Z.
Proof.
  split.
  - refine (proj1 (proj1 (arrows_wrap_around (term mona_selected) _) _)).
    + unfold index_in_range. vm_compute. split; discriminate.
    + discriminate.
  - refine (proj2 (proj1 (arrows_wrap_around (term mona_open) _) _)).
    + unfold index_in_range. vm_compute. split; discriminate.
    + discriminate.
Defined.

(** *** The highlight follows the cursor *)

Lemma marks_from_spec (k : nat) (c : Z) (items : list Item) :
  marks_from k c items = true <->
  (forall j x, nth_error items j = Some x ->
               item_selected x = (Z.of_nat (k + j) =? c)%Z).
Proof.
  revert k. induction items as [|y r IH]; intros k; simpl.
  - split; [intros _ [|j] x; discriminate|trivial].
  - rewrite andb_true_iff, IH. split.
    + intros [Hy Hr] [|j] x; simpl.
      * intros [= <-]. apply Bool.eqb_prop in Hy. now rewrite Nat.add_0_r.
      * intros Hx. rewrite (Hr j x Hx). f_equal. f_equal. lia.
    + intros H. split.
      * rewrite (H 0 y eq_refl), Nat.add_0_r. apply Bool.eqb_reflx.
      * intros j x Hx. rewrite (H (S j) x Hx). f_equal. f_equal. lia.
Qed.

Lemma nth_set_selected (i j : nat) (b : bool) (items : list Item) :
  nth_error (set_selected i b items) j
  = if j =? i
    then option_map (fun x => mkItem (item_artwork_name x) (item_info x) b)
           (nth_error items j)
    else nth_error items j.
Proof.
  revert i j. induction items as [|y r IH]; intros i j.
  - destruct i, j; simpl; try reflexivity; now destruct (j =? i).
  - destruct i, j; simpl; try reflexivity. apply IH.
Qed.

Lemma nth_error_in_length (items : list Item) (j : nat) (x : Item) :
  nth_error items j = Some x -> j < List.length items.
Proof. intros H. apply nth_error_Some. now rewrite H. Qed.

(** [navigateAutocomplete] moves the highlight with the cursor. *)
Lemma navigate_marks (d : Z) (t : Terminal) :
  marks_from 0 (selectedIndex t) (autocompleteList_items t) = true ->
  marks_from 0 (selectedIndex (navigateAutocomplete d t))
    (autocompleteList_items (navigateAutocomplete d t)) = true.
Proof.
  intros Hm.
  destruct (autocompleteList_items t) as [|y r] eqn:Hi.
  - rewrite navigate_no_items by exact Hi. now rewrite Hi.
  - assert (Hne : autocompleteList_items t <> []) by (rewrite Hi; discriminate).
    pose proof (navigate_lands_on_item d t Hne) as [Hland _].
    cbv zeta in Hland. revert Hland.
    unfold navigateAutocomplete. rewrite Hi.
    remember (Z.of_nat (List.length (y :: r))) as len eqn:Elen.
    assert (Hlen : (0 < len)%Z) by (subst len; simpl List.length; lia).
    destruct (len =? 0)%Z eqn:H0; [apply Z.eqb_eq in H0; lia|].
    remember (if ((0 <=? selectedIndex t) && (selectedIndex t <? len))%Z
              then set_selected (Z.to_nat (selectedIndex t)) false (y :: r)
              else y :: r) as items1 eqn:E1.
    remember (if (selectedIndex t + d <? 0)%Z then (len - 1)%Z
              else (selectedIndex t + d)%Z) as i2 eqn:E2.
    remember (if (i2 >=? len)%Z then 0%Z else i2) as i3 eqn:E3.
    cbv zeta.
    change (selectedIndex (set_selectedIndex i3 ?u)) with i3.
    match goal with
    | |- context [autocompleteList_items (set_selectedIndex i3 (set_items ?l ?u))] =>
        change (autocompleteList_items (set_selectedIndex i3 (set_items l u))) with l
    end.
    rewrite set_selected_length. intros Hland.
    assert (Hl1 : List.length items1 = List.length (y :: r)).
    { subst items1. destruct ((0 <=? _) && _)%Z;
        [apply set_selected_length|reflexivity]. }
    rewrite Hl1, <- Elen in Hland.
    apply marks_from_spec. intros j x Hx. simpl Nat.add.
    rewrite marks_from_spec in Hm.
    rewrite nth_set_selected in Hx.
    destruct (j =? Z.to_nat i3) eqn:Hj.
    + apply Nat.eqb_eq in Hj. subst j.
      destruct (nth_error items1 (Z.to_nat i3)); [|discriminate].
      injection Hx as <-. simpl. symmetry. apply Z.eqb_eq. lia.
    + apply Nat.eqb_neq in Hj.
      assert (Hne3 : (Z.of_nat j =? i3)%Z = false) by (apply Z.eqb_neq; lia).
      rewrite Hne3. subst items1.
      destruct ((0 <=? selectedIndex t) && (selectedIndex t <? len))%Z eqn:Hin.
      * rewrite nth_set_selected in Hx.
        destruct (j =? Z.to_nat (selectedIndex t)) eqn:Hjs.
        -- destruct (nth_error (y :: r) j); [|discriminate].
           now injection Hx as <-.
        -- apply Nat.eqb_neq in Hjs. rewrite (Hm j x Hx). simpl Nat.add.
           apply Z.eqb_neq. apply andb_true_iff in Hin as [Hin1 Hin2]. lia.
      * pose proof (nth_error_in_length _ _ _ Hx) as Hjl.
        rewrite (Hm j x Hx). simpl Nat.add. apply Z.eqb_neq.
        apply andb_false_iff in Hin as [Hin|Hin]; lia.
Qed.

Lemma unselected_marks (k : nat) (c : Z) (items : list Item) :
  (c < 0)%Z ->
  Forall (fun x => item_selected x = false) items ->
  marks_from k c items = true.
Proof.
  intros Hc H. revert k. induction H as [|x r Hx Hr IH]; intros k; simpl.
  - reflexivity.
  - rewrite Hx, IH.
    assert (Hk : (Z.of_nat k =? c)%Z = false) by (apply Z.eqb_neq; lia).
    now rewrite Hk.
Qed.

Lemma append_items_unselected (l : list json) (t : Terminal) :
  Forall (fun x => item_selected x = false) (autocompleteList_items t) ->
  Forall (fun x => item_selected x = false)
    (autocompleteList_items (fst (append_items l t))).
Proof.
  revert t. induction l as [|a l IH]; intros t H; [exact H|].
  rewrite append_items_cons.
  destruct (is_null a); [exact H|].
  destruct (item_throws a); [exact H|].
  apply IH. destruct t; simpl in *. apply Forall_app. split; [exact H|].
  constructor; [reflexivity|constructor].
Qed.

(** However [showAutocomplete] ends, no item is highlighted. *)
Lemma show_marks (a : json) (t : Terminal) :
  marks_from 0 (selectedIndex (fst (showAutocomplete a t)))
    (autocompleteList_items (fst (showAutocomplete a t))) = true.
Proof.
  rewrite show_resets_cursor. apply unselected_marks; [lia|].
  unfold showAutocomplete.
  assert (H0 : Forall (fun x => item_selected x = false)
                 (autocompleteList_items
                    (set_selectedIndex (-1) (set_items [] t))))
    by (destruct t; constructor).
  destruct a; try exact H0.
  pose proof (append_items_unselected l _ H0) as H.
  destruct (append_items l _) as [t2 [m|]]; simpl in *.
  - exact H.
  - now destruct t2.
Qed.

Lemma highlight_closed (t : Terminal) :
  autocompleteList_show t = false -> highlight_ok t = true.
Proof. unfold highlight_ok. now intros ->. Qed.

Lemma highlight_same (t t' : Terminal) :
  ac_state t' = ac_state t -> highlight_ok t = true -> highlight_ok t' = true.
Proof.
  unfold ac_state, highlight_ok. intros H. injection H as -> -> ->. trivial.
Qed.

Lemma highlight_autocomplete_end (r : FetchReply) (t : Terminal) :
  highlight_ok (fst (autocomplete_end r t)) = true.
Proof.
  unfold autocomplete_end.
  destruct r as [m|status text]; [now apply highlight_closed; destruct t|].
  destruct (JSON_parse text) as [data|];
    [|now apply highlight_closed; destruct t].
  destruct data; try (now apply highlight_closed; destruct t).
  destruct (get "artworks" (JObj l)) as [a|];
    [|now apply highlight_closed; destruct t].
  destruct (truthy a && length_throws a);
    [now apply highlight_closed; destruct t|].
  destruct (truthy a && length_gt0 a);
    [|now apply highlight_closed; destruct t].
  pose proof (show_marks a t) as H.
  destruct (showAutocomplete a t) as [t' [m|]]; simpl in *.
  - apply highlight_closed. now destruct t'.
  - unfold highlight_ok. rewrite H. apply orb_true_r.
Qed.

(** X2. While the suggestion list is open, the class [selected] is on the
    item at the cursor and on no other item: every event of the page keeps
    it so. *)
Theorem highlight_follows_the_cursor (w : World) (e : Event) :
  highlight_ok (term w) = true -> highlight_ok (term (step w e)) = true.
Proof.
  intros Hok.
  destruct e as [k|v| |i|ms|id|fid r|r|o]; simpl step.
  - destruct k; simpl.
    + destruct (negb (isProcessing (term w))); [|exact Hok].
      destruct (autocompleteList_show (term w)) eqn:Hs.
      * destruct (item_at _ _) as [it|]; [|exact Hok].
        apply highlight_closed.
        pose proof (ac_handleInput
          (with_term (hideAutocomplete
             (assign_userInput_value (dataset_string (item_artwork_name it))
                (term w))) w)) as H.
        unfold ac_state in H. injection H as -> _ _. now destruct (term w).
      * apply highlight_closed.
        pose proof (ac_handleInput w) as H.
        unfold ac_state in H. injection H as -> _ _. exact Hs.
    + unfold highlight_ok in *. rewrite navigate_show.
      destruct (autocompleteList_show (term w)); [|reflexivity].
      simpl in *. now apply navigate_marks.
    + unfold highlight_ok in *. rewrite navigate_show.
      destruct (autocompleteList_show (term w)); [|reflexivity].
      simpl in *. now apply navigate_marks.
    + apply highlight_closed. now destruct (term w).
    + exact Hok.
  - unfold handleAutocomplete. simpl term.
    destruct (String.length _ <? 1).
    + apply highlight_closed. now destruct (term w).
    + eapply highlight_same; [|exact Hok].
      destruct (autocompleteTimeout _); now destruct (term w).
  - eapply highlight_same; [|exact Hok]. now destruct (term w).
  - unfold on_item_click.
    destruct (nth_error _ i) as [it|]; [|exact Hok].
    apply highlight_closed. now destruct (term w) as [? ? [|] ? ? ? ? ? ? ?].
  - exact Hok.
  - unfold fire. destruct (find_timer id w) as [tm|]; [|exact Hok].
    destruct (timer_due tm <=? clock w); [|exact Hok].
    destruct (timer_callback tm) as [query|];
      [unfold run_callback; destruct (lone_surrogate query);
       [apply highlight_closed; now destruct (term w)|exact Hok]|].
    unfold run_callback. simpl term.
    destruct (negb (isProcessing (term w))); [|exact Hok].
    apply highlight_closed. now destruct (term w) as [? ? [|] ? ? ? ? ? ? ?].
  - unfold on_autocomplete_reply.
    destruct (existsb _ (fetches w)); [|exact Hok].
    pose proof (highlight_autocomplete_end r (term w)) as H.
    now destruct (autocomplete_end r (term w)) as [t es].
  - unfold on_session_reply.
    destruct (session_pending w); [|exact Hok].
    pose proof (ac_createSession_end r (term w)) as H.
    destruct (createSession_end r (term w)) as [t es].
    eapply highlight_same; [exact H|exact Hok].
  - unfold on_chat_reply.
    destruct (isProcessing (term w)); [|exact Hok].
    pose proof (ac_handleInput_end o (term w)) as H.
    destruct (handleInput_end o (term w)) as [t es].
    eapply highlight_same; [exact H|exact Hok].
Qed.

Lemma highlight_follows_the_cursor_witness :
  highlight_ok (term (step mona_selected (KeyPress ArrowUp))) = true
  /\ map item_selected
       (autocompleteList_items (term (step mona_selected (KeyPress ArrowUp))))
     = [true].
Proof.
  split.
  - apply (highlight_follows_the_cursor mona_selected (KeyPress ArrowUp)).
    reflexivity.
  - reflexivity.
Defined.

End NavigationProps.

(** ** Suggestions: replies, clicks, blur, debounce delay *)

Module SuggestionProps.
Import Frames AutocompleteProps DebounceProps CoordinatorProps.

(** [forEach] appends an item for each artwork up to the first one at
    which it throws. *)
Lemma append_items_spec (l : list json) (t : Terminal) :
  append_items l t
  = (set_items (autocompleteList_items t ++ map item_of (before_failure l)) t,
     first_failure l).
Proof.
  revert t. induction l as [|a l IH]; intros t.
  - simpl. rewrite app_nil_r. now destruct t.
  - rewrite append_items_cons. simpl first_failure. simpl before_failure.
    destruct (is_null a); [simpl; rewrite app_nil_r; now destruct t|].
    destruct (item_throws a); [simpl; rewrite app_nil_r; now destruct t|].
    rewrite IH. destruct t; simpl. now rewrite <- app_assoc.
Qed.

Lemma no_failure_all (l : list json) :
  first_failure l = None -> before_failure l = l.
Proof.
  induction l as [|a l IH]; [reflexivity|]. simpl.
  destruct (is_null a); [discriminate|].
  destruct (item_throws a); [discriminate|].
  intros H. simpl. now rewrite IH.
Qed.

Lemma plain_convertible (v : jsval) :
  plain_value v = true -> convertible_val v = true.
Proof. destruct v as [[| | | | |]|]; simpl; trivial; discriminate. Qed.

Lemma plain_item (a : json) :
  plain_artwork a = true -> is_null a = false /\ item_throws a = false.
Proof.
  unfold plain_artwork, item_throws, or_empty_throws.
  rewrite !andb_true_iff. intros [[[Hn Hname] Hsize] Hyear].
  split; [now apply negb_true_iff|].
  apply plain_convertible in Hname, Hsize, Hyear. rewrite Hname. simpl.
  destruct (get "size" a) as [x|], (get "year" a) as [y|]; simpl in *;
    rewrite ?Hsize, ?Hyear, ?andb_false_r; reflexivity.
Qed.

Lemma plain_no_failure (l : list json) :
  forallb plain_artwork l = true -> first_failure l = None.
Proof.
  induction l as [|a l IH]; [reflexivity|]. simpl.
  rewrite andb_true_iff. intros [Ha Hl].
  destruct (plain_item a Ha) as [-> ->]. now apply IH.
Qed.

(** X3. A reply whose body parses to a record with a non-empty [artworks]
    array of plain artworks (none is [null]; name, size and year are
    absent, [null], booleans, strings or integers of at most 15 digits)
    opens the list on exactly one item per artwork, in the order of the
    array, the items of the list before being discarded; no item is
    highlighted, the cursor is at -1 and nothing is written to the
    console. The status of the reply plays no part. *)
Theorem suggestions_replace_the_list
    (status : nat) (text : string) (data : json) (l : list json) (t : Terminal) :
  JSON_parse text = Some data ->
  get "artworks" data = Some (JArr l) ->
  l <> [] ->
  forallb plain_artwork l = true ->
  autocomplete_end (Replied status text) t
  = (set_show true (set_selectedIndex (-1) (set_items (map item_of l) t)), []).
Proof.
  intros Hp Hg Hne Hplain. unfold autocomplete_end. rewrite Hp.
  destruct data; try discriminate. rewrite Hg.
  change (truthy (JArr l) && length_throws (JArr l)) with false. cbv iota.
  assert (Hlen : truthy (JArr l) && length_gt0 (JArr l) = true).
  { destruct l; [contradiction|reflexivity]. }
  rewrite Hlen. unfold showAutocomplete.
  pose proof (plain_no_failure l Hplain) as Hnone.
  rewrite append_items_spec, Hnone, (no_failure_all l Hnone).
  now destruct t.
Qed.

Lemma suggestions_replace_the_list_witness :
  ac_state (term mona_open)
  = (true, [mkItem (Some (JStr "Mona Lisa")) "1503" false], (-1)%Z).
Proof.
  refine (f_equal (fun p => ac_state (fst p))
            (suggestions_replace_the_list 200
               (jsrc "{'artworks':[{'name':'Mona Lisa','year':'1503'}]}")
               (JObj [("artworks",
                       JArr [JObj [("name", JStr "Mona Lisa");
                                   ("year", JStr "1503")]])])
               [JObj [("name", JStr "Mona Lisa"); ("year", JStr "1503")]]
               (term (run new_World [InputEdit "M"; Tick 300; TimerFire 1]))
               _ _ _ _)).
  - reflexivity.
  - reflexivity.
  - discriminate.
  - reflexivity.
Defined.

(** X4. However the fetch of suggestions ends, the display log, the text
    of the input and the submission lock are as before and the cursor is at
    -1. When the callback wrote an error to the console the list is closed;
    when the list is open afterwards nothing was written and the list holds
    at least one item. *)
Theorem suggestion_failures_stay_silent (r : FetchReply) (t : Terminal) :
  let t' := fst (autocomplete_end r t) in
  let logged := snd (autocomplete_end r t) in
  terminalBody t' = terminalBody t
  /\ userInput_value t' = userInput_value t
  /\ isProcessing t' = isProcessing t
  /\ userInput_disabled t' = userInput_disabled t
  /\ selectedIndex t' = (-1)%Z
  /\ (logged <> [] -> autocompleteList_show t' = false)
  /\ (autocompleteList_show t' = true ->
      logged = [] /\ autocompleteList_items t' <> []).
Proof.
  intros t' logged.
  pose proof (controller_only_autocomplete_end r t) as Hc. fold t' in Hc.
  pose proof (autocomplete_end_resets_cursor r t) as Hs. fold t' in Hs.
  assert (Hrest : (logged <> [] -> autocompleteList_show t' = false)
                  /\ (autocompleteList_show t' = true ->
                      logged = [] /\ autocompleteList_items t' <> [])).
  { subst t' logged. unfold autocomplete_end.
    assert (Hhide : forall m u,
              (((label_autocomplete, m) :: nil : list (string * string)) <> [] ->
               autocompleteList_show (hideAutocomplete u) = false)
              /\ (autocompleteList_show (hideAutocomplete u) = true ->
                  ((label_autocomplete, m) :: nil : list (string * string)) = []
                  /\ autocompleteList_items (hideAutocomplete u) <> [])).
    { intros m u. split; [intros _; now destruct u|].
      intros H. now destruct u. }
    assert (Hquiet : forall u,
              ((nil : list (string * string)) <> [] ->
               autocompleteList_show (hideAutocomplete u) = false)
              /\ (autocompleteList_show (hideAutocomplete u) = true ->
                  (nil : list (string * string)) = []
                  /\ autocompleteList_items (hideAutocomplete u) <> [])).
    { intros u. split; [intros _; now destruct u|].
      intros H. now destruct u. }
    destruct r as [m|status text]; [apply Hhide|].
    destruct (JSON_parse text) as [data|]; [|apply Hhide].
    destruct data; try apply Hquiet; try apply Hhide.
    destruct (get "artworks" (JObj l)) as [a|]; [|apply Hquiet].
    destruct (truthy a && length_throws a); [apply Hhide|].
    destruct (truthy a && length_gt0 a) eqn:Hlen; [|apply Hquiet].
    unfold showAutocomplete.
    destruct a; try apply Hhide.
    rewrite append_items_spec.
    destruct (first_failure l0) as [m|] eqn:Hnone; [apply Hhide|].
    simpl fst. simpl snd. split; [intros H; now elim H|].
    intros _. split; [reflexivity|].
    rewrite (no_failure_all l0 Hnone).
    destruct l0; [discriminate|]. now destruct t. }
  unfold controller_only in Hc.
  split; [now rewrite Hc|]. split; [now rewrite Hc|].
  split; [now rewrite Hc|]. split; [now rewrite Hc|].
  split; [exact Hs|]. exact Hrest.
Qed.

(** *** A click on a suggestion *)

(** X5. A click on a suggestion writes the name of its artwork to the
    input, which shows it as it is when it is plain and holds no line
    break, and closes the list with the cursor at -1. Unlike Enter it sends no chat request,
    and it schedules no fetch: the lock, the display log, the requests
    sent, the timers and the fetches in flight are as before. A click
    where there is no item changes nothing. *)
Theorem click_fills_the_input_only (w : World) (i : nat) :
  let w' := step w (ItemClick i) in
  (forall it,
     nth_error (autocompleteList_items (term w)) i = Some it ->
     (plain_value (item_artwork_name it) = true ->
      no_line_break (value_string (item_artwork_name it)) = true ->
      userInput_value (term w') = value_string (item_artwork_name it))
     /\ autocompleteList_show (term w') = false
     /\ selectedIndex (term w') = (-1)%Z)
  /\ (nth_error (autocompleteList_items (term w)) i = None -> w' = w)
  /\ submission_view w' = submission_view w
  /\ timers w' = timers w
  /\ fetches w' = fetches w.
Proof.
  intros w'. subst w'. simpl step. unfold on_item_click.
  destruct (nth_error (autocompleteList_items (term w)) i) as [it|] eqn:Hit.
  - split; [|split; [discriminate|]].
    + intros it' [= <-]. split; [|split; world_refl w].
      intros _ Hn.
      transitivity (strip_newlines (value_string (item_artwork_name it)));
        [world_refl w|now apply strip_newlines_id].
    + repeat split; world_refl w.
  - split; [discriminate|]. repeat split.
Qed.

(** *** Timers of the page *)

Lemma find_after_old (id : nat) (new : Timer) (l : list Timer) :
  (forall tm, In tm l -> timer_id tm < id) ->
  timer_id new = id ->
  find (fun tm => timer_id tm =? id) (l ++ [new]) = Some new.
Proof.
  intros Hold Hnew. induction l as [|x l IH]; simpl.
  - now rewrite Hnew, Nat.eqb_refl.
  - assert (Hx : (timer_id x =? id) = false).
    { apply Nat.eqb_neq. specialize (Hold x (or_introl eq_refl)). lia. }
    rewrite Hx. apply IH. intros tm Hin. apply Hold. now right.
Qed.

Lemma filter_out_new (id : nat) (new : Timer) (l : list Timer) :
  (forall tm, In tm l -> timer_id tm < id) ->
  timer_id new = id ->
  filter (fun x => negb (timer_id x =? id)) (l ++ [new]) = l.
Proof.
  intros Hold Hnew. induction l as [|x l IH]; simpl.
  - now rewrite Hnew, Nat.eqb_refl.
  - assert (Hx : (timer_id x =? id) = false).
    { apply Nat.eqb_neq. specialize (Hold x (or_introl eq_refl)). lia. }
    rewrite Hx. simpl. f_equal. apply IH. intros tm Hin. apply Hold. now right.
Qed.

(** X6. The blur listener sets a timer 200 ms ahead. Before that delay
    the timer does not run. When it runs and no submission is in flight, the
    list is closed with the cursor at -1 and the input, if enabled, has the
    focus again; when a submission is in flight it changes nothing of the
    terminal. *)
Theorem blur_refocuses_after_the_grace_delay (w : World) (ms : nat) :
  timers_ok w = true ->
  let w1 := step w Blur in
  let w2 := step (step w1 (Tick ms)) (TimerFire (next_timer w)) in
  userInput_focused (term w1) = false
  /\ (ms < 200 -> term w2 = term w1 /\ timers w2 = timers w1)
  /\ (200 <= ms -> isProcessing (term w) = true -> term w2 = term w1)
  /\ (200 <= ms -> isProcessing (term w) = false ->
      autocompleteList_show (term w2) = false
      /\ selectedIndex (term w2) = (-1)%Z
      /\ (userInput_disabled (term w) = false ->
          userInput_focused (term w2) = true)).
Proof.
  intros Hok w1 w2.
  apply timers_ok_spec in Hok as (H1 & _ & _).
  set (new := mkTimer (next_timer w) (clock w + 200) BlurGrace).
  assert (Hw : step w1 (Tick ms)
               = mkWorld (set_userInput_focused false (term w)) (clock w + ms)
                   (S (next_timer w)) (timers w ++ [new]) (fired w)
                   (next_fetch w) (fetches w) (session_pending w)
                   (chat_log w) (console w)) by reflexivity.
  assert (Hw1 : term w1 = set_userInput_focused false (term w)
                /\ timers w1 = (timers w ++ [new])%list) by (split; reflexivity).
  destruct Hw1 as [Hterm1 Htimers1].
  split; [rewrite Hterm1; now destruct (term w)|].
  subst w2.
  change (step (step w1 (Tick ms)) (TimerFire (next_timer w)))
    with (fire (next_timer w) (step w1 (Tick ms))).
  rewrite Hw, Hterm1, Htimers1. clear Hw Hterm1 Htimers1 w1.
  unfold fire, find_timer. cbn [timers].
  rewrite (find_after_old (next_timer w) new (timers w) H1 eq_refl).
  cbn [timer_due timer_callback new clock].
  split; [|split].
  - intros Hms. assert (Hd : (clock w + 200 <=? clock w + ms) = false)
      by (apply Nat.leb_gt; lia).
    rewrite Hd. split; reflexivity.
  - intros Hms Hp. assert (Hd : (clock w + 200 <=? clock w + ms) = true)
      by (apply Nat.leb_le; lia).
    rewrite Hd. unfold run_callback. cbn [term].
    replace (isProcessing (set_userInput_focused false (term w)))
      with (isProcessing (term w)) by (now destruct (term w)).
    rewrite Hp. reflexivity.
  - intros Hms Hp. assert (Hd : (clock w + 200 <=? clock w + ms) = true)
      by (apply Nat.leb_le; lia).
    rewrite Hd. unfold run_callback. cbn [term].
    replace (isProcessing (set_userInput_focused false (term w)))
      with (isProcessing (term w)) by (now destruct (term w)).
    rewrite Hp. cbn [negb with_term term].
    split; [now destruct (term w) as [? ? [|] ? ? ? ? ? ? ?]|].
    split; [now destruct (term w) as [? ? [|] ? ? ? ? ? ? ?]|].
    intros Hdis. destruct (term w). simpl in *. now rewrite Hdis.
Qed.

Lemma blur_refocuses_after_the_grace_delay_witness :
  let w2 := run mona_open [Blur; Tick 200; TimerFire 2] in
  autocompleteList_show (term w2) = false
  /\ selectedIndex (term w2) = (-1)%Z
  /\ (userInput_disabled (term mona_open) = false ->
      userInput_focused (term w2) = true).
Proof.
  refine (proj2 (proj2 (proj2
            (blur_refocuses_after_the_grace_delay mona_open 200 _))) _ _).
  - reflexivity.
  - apply Nat.le_refl.
  - reflexivity.
Defined.

(** X7. After an edit that leaves a query, the fetch of suggestions does
    not start before 300 ms have passed; once they have, the timer runs
    and is pending no more. It starts one fetch, for the query as it was
    trimmed at the time of the edit; unless that query holds a lone
    surrogate, which cannot be written into the address: then no fetch
    starts, the error is written to the console and the list is closed. *)
Theorem fetch_waits_for_the_debounce_delay (w : World) (v : string) (ms : nat) :
  timers_ok w = true ->
  trim v <> "" ->
  let w1 := step w (InputEdit v) in
  let w2 := step (step w1 (Tick ms)) (TimerFire (next_timer w)) in
  fetches w1 = fetches w
  /\ (ms < 300 -> fetches w2 = fetches w /\ timers w2 = timers w1)
  /\ (300 <= ms ->
      timers w2 = timers (clearTimeout (autocompleteTimeout (term w)) w)
      /\ fired w2 = next_timer w :: fired w)
  /\ (300 <= ms -> lone_surrogate (trim v) = false ->
      fetches w2 = (fetches w ++ [(next_fetch w, trim v)])%list
      /\ console w2 = console w)
  /\ (300 <= ms -> lone_surrogate (trim v) = true ->
      fetches w2 = fetches w
      /\ console w2 = (console w ++ [(label_autocomplete, uri_malformed)])%list
      /\ autocompleteList_show (term w2) = false).
Proof.
  intros Hok Hq w1 w2.
  apply timers_ok_spec in Hok as (H1 & _ & _).
  assert (Hcl : forall tm,
            In tm (timers (clearTimeout (autocompleteTimeout (term w)) w)) ->
            timer_id tm < next_timer w).
  { intros tm Hin. apply in_cleared in Hin as [Hin _]. now apply H1. }
  assert (Hw1 : w1 = let (id, wn) :=
                   setTimeout (AutocompleteFetch (trim v)) debounce_ms
                     (clearTimeout (autocompleteTimeout (term w))
                        (with_term (set_userInput_value v (term w)) w)) in
                 with_term (set_autocompleteTimeout (Some id) (term wn)) wn).
  { subst w1. simpl step. unfold handleAutocomplete. simpl term.
    replace (userInput_value (set_userInput_value v (term w))) with v
      by now destruct (term w).
    rewrite length_lt_1, (is_empty_false _ Hq).
    replace (autocompleteTimeout (set_userInput_value v (term w)))
      with (autocompleteTimeout (term w)) by (now destruct (term w)).
    reflexivity. }
  assert (Ht1 : timers w1
                = (timers (clearTimeout (autocompleteTimeout (term w)) w)
                   ++ [mkTimer (next_timer w) (clock w + 300)
                         (AutocompleteFetch (trim v))])%list).
  { rewrite Hw1. destruct (autocompleteTimeout (term w)); reflexivity. }
  assert (Hf1 : fetches w1 = fetches w /\ next_fetch w1 = next_fetch w
                /\ clock w1 = clock w /\ fired w1 = fired w
                /\ console w1 = console w).
  { rewrite Hw1. destruct (autocompleteTimeout (term w)); repeat split. }
  destruct Hf1 as (Hf1 & Hn1 & Hc1 & Hfd1 & Hco1).
  split; [exact Hf1|].
  assert (Hfind : find_timer (next_timer w) (step w1 (Tick ms))
                  = Some (mkTimer (next_timer w) (clock w + 300)
                            (AutocompleteFetch (trim v)))).
  { unfold find_timer. simpl timers. rewrite Ht1. now apply find_after_old. }
  subst w2.
  change (step (step w1 (Tick ms)) (TimerFire (next_timer w)))
    with (fire (next_timer w) (step w1 (Tick ms))).
  unfold fire. rewrite Hfind.
  cbn [timer_due timer_callback].
  replace (clock (step w1 (Tick ms))) with (clock w + ms)
    by (simpl; now rewrite Hc1).
  split; [|split; [|split]].
  - intros Hms. assert (Hd : (clock w + 300 <=? clock w + ms) = false)
      by (apply Nat.leb_gt; lia).
    rewrite Hd. split; [exact Hf1|reflexivity].
  - intros Hms. assert (Hd : (clock w + 300 <=? clock w + ms) = true)
      by (apply Nat.leb_le; lia).
    rewrite Hd. unfold run_callback.
    destruct (lone_surrogate (trim v)); simpl; rewrite Hfd1, Ht1;
      (split; [now apply filter_out_new|reflexivity]).
  - intros Hms Hs. assert (Hd : (clock w + 300 <=? clock w + ms) = true)
      by (apply Nat.leb_le; lia).
    rewrite Hd. unfold run_callback. rewrite Hs. simpl.
    rewrite Hf1, Hn1, Hco1. split; reflexivity.
  - intros Hms Hs. assert (Hd : (clock w + 300 <=? clock w + ms) = true)
      by (apply Nat.leb_le; lia).
    rewrite Hd. unfold run_callback. rewrite Hs. simpl.
    rewrite Hf1, Hco1. split; [reflexivity|]. split; [reflexivity|].
    now destruct (term w1).
Qed.

Lemma fetch_waits_for_the_debounce_delay_witness :
  fetches (run new_World [InputEdit " Mo "; Tick 299; TimerFire 1]) = []
  /\ fetches (run new_World [InputEdit " Mo "; Tick 300; TimerFire 1])
     = [(1, "Mo")].
Proof.
  assert (Hq : trim " Mo " <> "") by (vm_compute; discriminate).
  split.
  - refine (proj1 (proj1 (proj2
              (fetch_waits_for_the_debounce_delay new_World " Mo " 299 _ Hq)) _)).
    + reflexivity.
    + apply Nat.lt_succ_diag_r.
  - refine (proj1 (proj1 (proj2 (proj2 (proj2
              (fetch_waits_for_the_debounce_delay new_World " Mo " 300 _ Hq))))
              _ _)).
    + reflexivity.
    + apply Nat.le_refl.
    + reflexivity.
Defined.

End SuggestionProps.

(** ** The lock and the display log *)

Module LogProps.
Import StreamProps Frames AutocompleteProps DebounceProps CoordinatorProps
       ReachableProps.

(** No event but Enter and the reply to the chat request enables or
    disables the input. *)
Lemma quiet_disabled (w : World) (e : Event) :
  is_ChatReply e = false ->
  is_Enter e = false ->
  userInput_disabled (term (step w e)) = userInput_disabled (term w).
Proof.
  intros He Hk.
  assert (Hco : forall t t', controller_only t t' ->
                  userInput_disabled t' = userInput_disabled t)
    by (unfold controller_only; now intros t t' ->).
  destruct e as [k|v| |i|ms|id|fid r|r|o]; simpl step; try discriminate.
  - destruct k; simpl; try discriminate.
    + apply Hco, controller_only_navigate.
    + apply Hco, controller_only_navigate.
    + now destruct (term w).
    + reflexivity.
  - unfold handleAutocomplete. simpl term.
    destruct (String.length _ <? 1); [world_refl w|].
    destruct (autocompleteTimeout _); world_refl w.
  - world_refl w.
  - unfold on_item_click.
    destruct (nth_error _ i) as [it|]; [|reflexivity]. world_refl w.
  - reflexivity.
  - unfold fire. destruct (find_timer id w) as [tm|]; [|reflexivity].
    destruct (timer_due tm <=? clock w); [|reflexivity].
    destruct (timer_callback tm) as [query|];
      [unfold run_callback; destruct (lone_surrogate query);
       [world_refl w|reflexivity]|].
    unfold run_callback. simpl term.
    destruct (negb (isProcessing (term w))); [|reflexivity].
    world_refl w.
  - unfold on_autocomplete_reply.
    destruct (existsb _ (fetches w)); [|reflexivity].
    pose proof (Hco _ _ (controller_only_autocomplete_end r (term w))) as H.
    now destruct (autocomplete_end r (term w)) as [t es].
  - unfold on_session_reply.
    destruct (session_pending w); [|reflexivity].
    pose proof (createSession_end_shape r (term w)) as H.
    destruct (createSession_end r (term w)) as [t es]. simpl in *.
    rewrite H. now destruct (term w).
Qed.

Lemma lock_ok_handleInput (w : World) :
  lock_ok (term w) = true -> lock_ok (term (handleInput w)) = true.
Proof.
  intros Hok. unfold handleInput.
  destruct (handleInput_begin (term w)) as [[t req]|] eqn:Hb; [|exact Hok].
  apply handleInput_begin_shape in Hb as (_ & _ & _ & ->). reflexivity.
Qed.

(** X8. The input is disabled exactly while the submission lock is taken:
    every event of the page keeps [userInput.disabled] equal to
    [isProcessing]. *)
Theorem input_is_disabled_while_locked (w : World) (e : Event) :
  lock_ok (term w) = true -> lock_ok (term (step w e)) = true.
Proof.
  intros Hok.
  destruct (is_ChatReply e) eqn:Hc.
  - destruct e; try discriminate. simpl step. unfold on_chat_reply.
    destruct (isProcessing (term w)); [|exact Hok].
    pose proof (handleInput_end_shape o (term w)) as Hs.
    destruct (handleInput_end o (term w)) as [t es]. simpl in *.
    now rewrite Hs.
  - destruct (is_Enter e) eqn:Hk.
    + destruct e as [k| | | | | | | |]; try discriminate.
      destruct k; try discriminate.
      simpl step. unfold on_keypress.
      destruct (negb (isProcessing (term w))); [|exact Hok].
      destruct (autocompleteList_show (term w));
        [|now apply lock_ok_handleInput].
      destruct (item_at _ _) as [it|]; [|exact Hok].
      apply lock_ok_handleInput.
      revert Hok. unfold lock_ok. now destruct (term w).
    + pose proof (quiet_step w e Hc Hk) as Hv.
      pose proof (quiet_disabled w e Hc Hk) as Hd.
      unfold submission_view in Hv. injection Hv as Hp _ _.
      unfold lock_ok in *. now rewrite Hd, Hp.
Qed.

Lemma input_is_disabled_while_locked_witness :
  lock_ok (term (step mona_selected (KeyPress Enter))) = true
  /\ userInput_disabled (term (step mona_selected (KeyPress Enter))) = true.
Proof.
  split.
  - apply (input_is_disabled_while_locked mona_selected (KeyPress Enter)).
    reflexivity.
  - reflexivity.
Defined.

(** What an event adds to the chat requests sent. *)
Lemma step_request (w : World) (e : Event) :
  chat_log (step w e) = chat_log w
  \/ (isProcessing (term w) = false
      /\ isProcessing (term (step w e)) = true
      /\ exists m, m <> ""
           /\ chat_log (step w e)
              = (chat_log w ++ [mkChatRequest m (sessionId (term w))])%list).
Proof.
  assert (Hin : forall w0,
            chat_log (handleInput w0) = chat_log w0
            \/ (isProcessing (term w0) = false
                /\ isProcessing (term (handleInput w0)) = true
                /\ exists m, m <> ""
                     /\ chat_log (handleInput w0)
                        = (chat_log w0
                           ++ [mkChatRequest m (sessionId (term w0))])%list)).
  { intros w0. unfold handleInput.
    destruct (handleInput_begin (term w0)) as [[t req]|] eqn:Hb; [|now left].
    right. apply handleInput_begin_shape in Hb as (Hne & Hp & -> & ->).
    split; [exact Hp|]. split; [reflexivity|].
    exists (trim (userInput_value (term w0))). now split. }
  destruct (is_ChatReply e) eqn:Hc.
  - left. destruct e; try discriminate. simpl step. unfold on_chat_reply.
    destruct (isProcessing (term w)) eqn:Hp; [|reflexivity].
    now destruct (handleInput_end o (term w)) as [t es].
  - destruct (is_Enter e) eqn:Hk.
    + destruct e as [k| | | | | | | |]; try discriminate.
      destruct k; try discriminate.
      simpl step. unfold on_keypress.
      destruct (isProcessing (term w)) eqn:Hp; [now left|]. simpl negb.
      cbv iota.
      destruct (autocompleteList_show (term w)); [|rewrite <- Hp at 1; apply Hin].
      destruct (item_at _ _) as [it|]; [|now left].
      destruct (Hin (with_term
                       (hideAutocomplete
                          (assign_userInput_value
                             (dataset_string (item_artwork_name it)) (term w)))
                       w)) as [H|(_ & H2 & m & Hm & H3)].
      * left. exact H.
      * right. split; [reflexivity|]. split; [exact H2|].
        exists m. split; [exact Hm|]. rewrite H3. now destruct (term w).
    + left. pose proof (quiet_step w e Hc Hk) as Hv.
      unfold submission_view in Hv. now injection Hv.
Qed.

(** X9. An event sends at most one chat request, and sends one only when
    the lock is free: the request takes the lock, carries the session
    handle of the terminal and a message that is not empty. While the lock
    is taken no event sends a request. *)
Theorem one_request_at_a_time (w : World) (e : Event) :
  (chat_log (step w e) = chat_log w
   \/ (isProcessing (term w) = false
       /\ isProcessing (term (step w e)) = true
       /\ exists m, m <> ""
            /\ chat_log (step w e)
               = (chat_log w ++ [mkChatRequest m (sessionId (term w))])%list))
  /\ (isProcessing (term w) = true -> chat_log (step w e) = chat_log w).
Proof.
  split; [apply step_request|].
  intros Hp. destruct (step_request w e) as [H|(Hf & _)]; [exact H|congruence].
Qed.

(** *** The entries of the log *)

Lemma settled_app (b c : list Line) :
  settled (b ++ c) = (settled b ++ settled c)%list.
Proof. apply filter_app. Qed.

Lemma settled_remove (b : list Line) :
  settled (remove_first_typing b) = settled b.
Proof.
  induction b as [|l b IH]; simpl; [reflexivity|].
  destruct (line_typing l) eqn:Hl; simpl; [reflexivity|].
  now rewrite Hl, IH.
Qed.

Lemma settled_update (text : string) (b : list Line) :
  settled (update_first_typing text b) = settled b.
Proof.
  induction b as [|l b IH]; simpl; [reflexivity|].
  destruct (line_typing l) eqn:Hl; simpl; [reflexivity|].
  now rewrite Hl, IH.
Qed.

Lemma settled_read_loop (chunks : list string) (a : Acc) (t : Terminal) :
  settled (terminalBody (snd (fst (read_loop chunks (a, t)))))
  = settled (terminalBody t).
Proof.
  rewrite <- settled_remove, read_loop_keeps_rest. apply settled_remove.
Qed.

Lemma addLine_body (text cls : string) (im : option json) (t t' : Terminal) :
  addLine text cls im t = Normal t' ->
  exists imgs,
    terminalBody t'
    = (terminalBody t
       ++ [mkLine false
             (if String.eqb cls "output user" then prompt_user else prompt_adam)
             cls text imgs])%list.
Proof.
  intros H. apply addLine_inv in H as [imgs ->].
  exists imgs. now destruct t.
Qed.

(** The [try] block adds the committed entry when it ends normally and no
    entry when it throws. *)
Lemma settled_try (o : ChatOutcome) (t : Terminal) :
  let r := handleInput_try o t in
  match try_thrown r with
  | Some _ => settled (terminalBody (try_state r)) = settled (terminalBody t)
  | None =>
      exists text imgs,
        settled (terminalBody (try_state r))
        = (settled (terminalBody t) ++ [committed_line text imgs])%list
  end.
Proof.
  unfold handleInput_try.
  destruct o as [m|status body]; [reflexivity|].
  destruct (negb (status_ok status)); [reflexivity|].
  destruct body as [b|]; [|reflexivity].
  pose proof (settled_read_loop (body_chunks b) acc0 t) as H.
  destruct (read_loop (body_chunks b) (acc0, t)) as [[a t1] n]. simpl in H.
  destruct (body_end b); [|exact H].
  assert (H2 : settled (terminalBody (removeTypingLine t1))
               = settled (terminalBody t)).
  { unfold removeTypingLine.
    replace (terminalBody (set_terminalBody
                             (remove_first_typing (terminalBody t1)) t1))
      with (remove_first_typing (terminalBody t1)) by now destruct t1.
    rewrite settled_remove. exact H. }
  destruct (length_throws _); [exact H2|].
  destruct (addLine _ _ _ _) as [t3|m] eqn:Ha; cbn [try_thrown try_state].
  - apply addLine_body in Ha as [imgs Ha]. simpl String.eqb in Ha.
    cbv iota in Ha. eexists _, imgs. rewrite Ha, settled_app, H2.
    reflexivity.
  - exact H2.
Qed.

(** Once the request has settled, [handleInput] adds exactly one entry, of
    the assistant: the committed entry or an error entry. *)
Lemma settled_handleInput_end (o : ChatOutcome) (t : Terminal) :
  exists answer,
    settled (terminalBody (fst (handleInput_end o t)))
    = (settled (terminalBody t) ++ [answer])%list
    /\ line_prompt answer = prompt_adam
    /\ (line_class answer = "output" \/ line_class answer = "output error").
Proof.
  unfold handleInput_end. pose proof (settled_try o t) as H. cbv zeta in H.
  destruct (try_thrown (handleInput_try o t)) as [m|]; simpl fst.
  - exists (error_line m). split; [|split; [reflexivity|now right]].
    unfold handleInput_finally, handleInput_catch.
    rewrite addLine_plain_body.
    transitivity (settled
                    (remove_first_typing
                       (terminalBody (try_state (handleInput_try o t)))
                     ++ [error_line m])).
    { now destruct (try_state (handleInput_try o t)). }
    now rewrite settled_app, settled_remove, H.
  - destruct H as (text & imgs & H). exists (committed_line text imgs).
    split; [|split; [reflexivity|now left]].
    rewrite <- H. now destruct (try_state (handleInput_try o t)).
Qed.

Lemma settled_step (w : World) (e : Event) :
  exists more,
    settled (terminalBody (term (step w e)))
    = (settled (terminalBody (term w)) ++ more)%list
    /\ List.length more <= 1.
Proof.
  assert (Hin : forall w0,
            exists more,
              settled (terminalBody (term (handleInput w0)))
              = (settled (terminalBody (term w0)) ++ more)%list
              /\ List.length more <= 1).
  { intros w0. unfold handleInput.
    destruct (handleInput_begin (term w0)) as [[t req]|] eqn:Hb.
    - apply handleInput_begin_shape in Hb as (_ & _ & _ & ->).
      exists [user_line (trim (userInput_value (term w0)))].
      split; [|simpl; lia]. simpl term. cbn [terminalBody].
      now rewrite settled_app.
    - exists []. split; [now rewrite app_nil_r|simpl; lia]. }
  destruct (is_ChatReply e) eqn:Hc.
  - destruct e; try discriminate. simpl step. unfold on_chat_reply.
    destruct (isProcessing (term w)) eqn:Hp.
    + destruct (settled_handleInput_end o (term w)) as (answer & H & _).
      exists [answer]. split; [|simpl; lia].
      now destruct (handleInput_end o (term w)) as [t es].
    + exists []. split; [now rewrite app_nil_r|simpl; lia].
  - destruct (is_Enter e) eqn:Hk.
    + destruct e as [k| | | | | | | |]; try discriminate.
      destruct k; try discriminate.
      simpl step. unfold on_keypress.
      destruct (negb (isProcessing (term w)));
        [|exists []; split; [now rewrite app_nil_r|simpl; lia]].
      destruct (autocompleteList_show (term w)); [|apply Hin].
      destruct (item_at _ _) as [it|];
        [|exists []; split; [now rewrite app_nil_r|simpl; lia]].
      destruct (Hin (with_term
                       (hideAutocomplete
                          (assign_userInput_value
                             (dataset_string (item_artwork_name it)) (term w)))
                       w)) as (more & H & Hl).
      exists more. split; [|exact Hl]. rewrite H. now destruct (term w).
    + exists []. split; [|simpl; lia]. rewrite app_nil_r.
      pose proof (quiet_step w e Hc Hk) as Hv.
      unfold submission_view in Hv. injection Hv as _ Hb _. now rewrite Hb.
Qed.

(** X10. The display log is append-only as far as its entries go: over any
    run of events the entries shown before (the lines other than the
    typing line) stay, in order and unchanged, at the head of the log, and
    each event adds one entry at most. *)
Theorem entries_are_only_appended (w : World) (es : list Event) :
  exists more,
    settled (terminalBody (term (run w es)))
    = (settled (terminalBody (term w)) ++ more)%list
    /\ List.length more <= List.length es.
Proof.
  revert w. induction es as [|e es IH]; intros w.
  - exists []. split; [now rewrite app_nil_r|simpl; lia].
  - destruct (settled_step w e) as (m1 & H1 & L1).
    destruct (IH (step w e)) as (m2 & H2 & L2).
    exists (m1 ++ m2)%list. split.
    + change (run w (e :: es)) with (run (step w e) es).
      rewrite H2, H1. now rewrite app_assoc.
    + rewrite length_app. simpl. lia.
Qed.

(** X11. Every submission gets one answer. A call of [handleInput] that
    passes its guard adds the message of the user to the entries;
    whatever else happens on the page meanwhile, when the request settles,
    in whichever way, exactly one more entry follows it, an entry of the
    assistant that is the committed answer or an error. *)
Theorem every_submission_gets_one_answer
    (w : World) (t : Terminal) (req : ChatRequest)
    (es : list Event) (o : ChatOutcome) :
  handleInput_begin (term w) = Some (t, req) ->
  existsb is_ChatReply es = false ->
  let w' := run (handleInput w) (es ++ [ChatReply o]) in
  exists answer,
    settled (terminalBody (term w'))
    = (settled (terminalBody (term w))
       ++ [user_line (req_message req); answer])%list
    /\ line_prompt answer = prompt_adam
    /\ (line_class answer = "output" \/ line_class answer = "output error")
    /\ (forall m, failure_of o = Some m -> answer = error_line m).
Proof.
  intros Hb Hes w'.
  destruct (handleInput_sends w t req Hb) as (Hsv & _ & _).
  pose proof Hsv as Hp. unfold submission_view in Hp. injection Hp as Hp _ _.
  pose proof (in_flight_run (handleInput w) es Hp Hes) as Hrun.
  rewrite Hsv in Hrun. unfold submission_view in Hrun.
  injection Hrun as Hp' Hbody Hlog.
  subst w'. rewrite run_app. simpl run.
  set (w1 := run (handleInput w) es) in *.
  destruct (term_on_chat_reply o w1 Hp') as [-> _].
  destruct (settled_handleInput_end o (term w1)) as (answer & H & Hpr & Hcl).
  exists answer. split; [|split; [exact Hpr|split; [exact Hcl|]]].
  - rewrite H, Hbody, settled_app. simpl settled at 2.
    now rewrite <- app_assoc.
  - intros m Hf.
    assert (He : settled (terminalBody (fst (handleInput_end o (term w1))))
                 = (settled (terminalBody (term w1)) ++ [error_line m])%list).
    { unfold handleInput_end.
      destruct (try_failure o (term w1) m Hf) as [-> Hrest].
      simpl fst. unfold handleInput_finally, handleInput_catch.
      rewrite addLine_plain_body.
      transitivity (settled
                      (remove_first_typing
                         (terminalBody (try_state (handleInput_try o (term w1))))
                       ++ [error_line m])).
      { now destruct (try_state (handleInput_try o (term w1))). }
      now rewrite Hrest, settled_app, !settled_remove. }
    rewrite He in H. apply app_inv_head in H. now injection H.
Qed.

Lemma every_submission_gets_one_answer_witness :
  let w' := run (step mona_selected (KeyPress Enter))
                [Blur; ChatReply (Responded 500 None)] in
  exists answer,
    settled (terminalBody (term w')) = [user_line "Mona Lisa"; answer]
    /\ line_prompt answer = prompt_adam
    /\ (line_class answer = "output" \/ line_class answer = "output error")
    /\ (forall m, failure_of (Responded 500 None) = Some m ->
        answer = error_line m).
Proof.
  refine (every_submission_gets_one_answer
            (with_term
               (hideAutocomplete
                  (set_userInput_value "Mona Lisa" (term mona_selected)))
               mona_selected)
            _ (mkChatRequest "Mona Lisa" null)
            [Blur] (Responded 500 None) _ _); vm_compute; reflexivity.
Defined.

End LogProps.

(** ** Rendering the stream *)

Module RenderingProps.
Import StreamProps Frames CoordinatorProps LogProps.

Lemma typing_text_update (text : string) (b : list Line) :
  typing_text (update_first_typing text b)
  = if existsb line_typing b then Some text else None.
Proof.
  induction b as [|l b IH]; simpl; [reflexivity|].
  destruct (line_typing l) eqn:Hl; simpl; [reflexivity|].
  now rewrite Hl.
Qed.

Lemma existsb_typing_update (text : string) (b : list Line) :
  existsb line_typing (update_first_typing text b) = existsb line_typing b.
Proof.
  induction b as [|l b IH]; simpl; [reflexivity|].
  destruct (line_typing l) eqn:Hl; simpl; [reflexivity|].
  now rewrite Hl, IH.
Qed.

Lemma tokens_text_app (es fs : list StreamEvent) :
  tokens_text (es ++ fs) = (tokens_text es ++ tokens_text fs)%string.
Proof.
  induction es as [|e es IH]; simpl; [reflexivity|].
  destruct e; simpl; rewrite IH; [|reflexivity|reflexivity].
  now rewrite append_assoc.
Qed.

(** What the typing line shows after a run of events. *)
Lemma aggregate_typing_text (es : list StreamEvent) (a : Acc) (t : Terminal) :
  existsb line_typing (terminalBody t) = true ->
  typing_text (terminalBody (snd (aggregate es (a, t))))
  = if existsb is_Token es
    then Some (fullResponse a ++ tokens_text es)%string
    else typing_text (terminalBody t).
Proof.
  revert a t. induction es as [|e es IH]; intros a t Ht; [reflexivity|].
  unfold aggregate in *. simpl fold_left.
  destruct e as [text|v|]; simpl aggregate_event;
    [|now rewrite (IH _ _ Ht)|now rewrite (IH _ _ Ht)].
  assert (Ht' : existsb line_typing
                  (terminalBody (updateTypingLine (fullResponse a ++ text) t))
                = true).
  { unfold updateTypingLine.
    replace (terminalBody (set_terminalBody _ t))
      with (update_first_typing (fullResponse a ++ text) (terminalBody t))
      by now destruct t.
    now rewrite existsb_typing_update. }
  rewrite (IH _ _ Ht'). cbn [fullResponse existsb is_Token orb tokens_text].
  destruct (existsb is_Token es) eqn:Hes.
  - now rewrite append_assoc.
  - rewrite (existsb_Token_tokens_text es Hes), append_empty_r.
    unfold updateTypingLine.
    replace (terminalBody (set_terminalBody _ t))
      with (update_first_typing (fullResponse a ++ text) (terminalBody t))
      by now destruct t.
    now rewrite typing_text_update, Ht.
Qed.

(** X12. The answer is rendered as it arrives. Once a chunk has brought a
    token, the typing line shows the texts of all the tokens read so far,
    put end to end; the chunks read later only add to the end of what is
    shown. *)
Theorem typing_line_shows_the_text_so_far
    (chunks more : list string) (t : Terminal) :
  existsb line_typing (terminalBody t) = true ->
  existsb is_Token (stream_events chunks) = true ->
  let shown (cs : list string) :=
    typing_text (terminalBody (snd (fst (read_loop cs (acc0, t))))) in
  shown chunks = Some (tokens_text (stream_events chunks))
  /\ shown (chunks ++ more)%list
     = Some (tokens_text (stream_events chunks)
             ++ tokens_text (stream_events more))%string.
Proof.
  intros Ht Hes shown. subst shown. cbv beta.
  rewrite !read_loop_events. cbn [fst].
  rewrite !(aggregate_typing_text _ acc0 t Ht), Hes.
  split; [reflexivity|].
  unfold stream_events in *. rewrite flat_map_app, existsb_app, Hes.
  cbn [orb acc0 fullResponse]. now rewrite tokens_text_app.
Qed.

Lemma typing_line_shows_the_text_so_far_witness :
  let c1 := (jsrc "data: {'token':'Mona '}" ++ nl)%string in
  let c2 := (jsrc "data: {'token':'Lisa'}" ++ nl)%string in
  let shown (cs : list string) :=
    typing_text
      (terminalBody (snd (fst (read_loop cs (acc0, awaiting_reply))))) in
  shown [c1] = Some "Mona " /\ shown [c1; c2] = Some "Mona Lisa".
Proof.
  intros c1 c2 shown.
  refine (typing_line_shows_the_text_so_far [c1] [c2] awaiting_reply _ _);
    vm_compute; reflexivity.
Defined.

(** X13. A line that is no record is skipped without a trace: whether it
    lacks the [data: ] prefix or carries text that is no JSON, the loop
    over the lines of a chunk ends in the state it would have reached
    without that line. *)
Theorem lines_that_are_no_records_are_skipped
    (before after : list string) (junk : string) (s : Acc * Terminal) :
  startsWith "data: " junk = false \/ JSON_parse (slice 6 junk) = None ->
  process_lines (before ++ junk :: after) s
  = process_lines (before ++ after)%list s.
Proof.
  intros Hj.
  assert (Hl : forall s0, process_line junk s0 = (s0, false)).
  { intros s0. unfold process_line.
    destruct Hj as [-> | ->]; [reflexivity|].
    destruct (startsWith _ _); [|reflexivity].
    now destruct (negb _). }
  revert s. induction before as [|l before IH]; intros s; simpl.
  - now rewrite Hl.
  - destruct (process_line l s) as [s' stop]. destruct stop; [reflexivity|].
    apply IH.
Qed.

Lemma lines_that_are_no_records_are_skipped_witness :
  let l1 := jsrc "data: {'token':'Mona '}" in
  let l2 := jsrc "data: {'token':'Lisa'}" in
  process_lines [l1; ": keep-alive"; l2] (acc0, awaiting_reply)
  = process_lines [l1; l2] (acc0, awaiting_reply)
  /\ process_lines [l1; jsrc "data: {'token':"; l2] (acc0, awaiting_reply)
     = process_lines [l1; l2] (acc0, awaiting_reply).
Proof.
  intros l1 l2. split.
  - apply (lines_that_are_no_records_are_skipped
             [l1] [l2] ": keep-alive" (acc0, awaiting_reply)).
    left. reflexivity.
  - apply (lines_that_are_no_records_are_skipped
             [l1] [l2] (jsrc "data: {'token':") (acc0, awaiting_reply)).
    right. vm_compute. reflexivity.
Defined.

Lemma settled_aggregate (es : list StreamEvent) (a : Acc) (t : Terminal) :
  settled (terminalBody (snd (aggregate es (a, t)))) = settled (terminalBody t).
Proof.
  destruct (aggregate_terminal es a t) as [H _].
  now rewrite <- settled_remove, H, settled_remove.
Qed.

(** X14. When the last [images] member of a successful stream is a
    non-empty string in place of a list, committing the answer throws:
    the entry added is an error entry saying that [images.forEach] is no
    function, the error is logged, and the text streamed is not among the
    entries. *)
Theorem text_for_images_loses_the_answer
    (chunks : list string) (url : string) (t : Terminal) :
  last_images (stream_events chunks) (JArr []) = JStr url ->
  url <> "" ->
  let r := handleInput_end (streamed chunks) t in
  settled (terminalBody (fst r))
  = (settled (terminalBody t)
     ++ [error_line (forEach_not_function "images")])%list
  /\ snd r = [(label_error, forEach_not_function "images")].
Proof.
  intros Him Hurl r. subst r.
  unfold handleInput_end, handleInput_try, streamed.
  cbn [status_ok Nat.leb andb negb body_chunks body_end].
  rewrite read_loop_events.
  pose proof (aggregate_acc (stream_events chunks) acc0 t) as Ha.
  pose proof (settled_aggregate (stream_events chunks) acc0 t) as Hs.
  destruct (aggregate (stream_events chunks) (acc0, t)) as [a t1].
  cbn [fst snd acc0 imageUrls] in Ha, Hs. rewrite Him in Ha. subst a.
  cbn [imageUrls fullResponse].
  assert (Hlen : length_gt0 (JStr url) = true)
    by (destruct url; [congruence|reflexivity]).
  assert (Htr : truthy (JStr url) = true)
    by (destruct url; [congruence|reflexivity]).
  change (length_throws (JStr url)) with false. cbv iota.
  rewrite Hlen. unfold addLine. rewrite Htr.
  change (length_throws (JStr url)) with false. rewrite Hlen.
  cbn [andb try_thrown try_state fst snd]. split; [|reflexivity].
  unfold handleInput_finally, handleInput_catch. rewrite addLine_plain_body.
  transitivity (settled
                  (remove_first_typing (remove_first_typing (terminalBody t1))
                   ++ [error_line (forEach_not_function "images")])).
  { now destruct t1. }
  now rewrite settled_app, !settled_remove, Hs.
Qed.

Lemma text_for_images_loses_the_answer_witness :
  let c := (jsrc "data: {'token':'Mona Lisa','images':'lisa.png'}" ++ nl)%string in
  let r := handleInput_end (streamed [c]) awaiting_reply in
  settled (terminalBody (fst r))
  = [error_line (forEach_not_function "images")]
  /\ snd r = [(label_error, forEach_not_function "images")].
Proof.
  intros c.
  refine (text_for_images_loses_the_answer [c] "lisa.png" awaiting_reply _ _).
  - vm_compute. reflexivity.
  - discriminate.
Defined.

End RenderingProps.

(** ** The session handle and the state of the page *)

Module HandleProps.
Import StreamProps Frames AutocompleteProps DebounceProps CoordinatorProps
       ReachableProps NavigationProps LogProps.

(** Only the reply to the session request, while it is awaited, changes
    the session handle. *)
Lemma session_step (w : World) (e : Event) :
  negb (session_pending w) || negb (is_SessionReply e) = true ->
  sessionId (term (step w e)) = sessionId (term w)
  /\ session_pending (step w e) = session_pending w.
Proof.
  intros Hq.
  assert (Hco : forall t t', controller_only t t' -> sessionId t' = sessionId t)
    by (unfold controller_only; now intros t t' ->).
  assert (Hin : forall w0,
            sessionId (term (handleInput w0)) = sessionId (term w0)
            /\ session_pending (handleInput w0) = session_pending w0).
  { intros w0. unfold handleInput.
    destruct (handleInput_begin (term w0)) as [[t req]|] eqn:Hb; [|now split].
    apply handleInput_begin_shape in Hb as (_ & _ & _ & ->). now split. }
  destruct e as [k|v| |i|ms|id|fid r|r|o]; simpl step.
  - destruct k; simpl.
    + destruct (negb (isProcessing (term w))); [|now split].
      destruct (autocompleteList_show (term w)); [|apply Hin].
      destruct (item_at _ _) as [it|]; [|now split].
      destruct (Hin (with_term
                       (hideAutocomplete
                          (assign_userInput_value
                             (dataset_string (item_artwork_name it)) (term w)))
                       w)) as [-> ->].
      split; [now destruct (term w)|reflexivity].
    + split; [apply Hco, controller_only_navigate|reflexivity].
    + split; [apply Hco, controller_only_navigate|reflexivity].
    + split; [now destruct (term w)|reflexivity].
    + now split.
  - unfold handleAutocomplete. simpl term.
    destruct (String.length _ <? 1); [split; world_refl w|].
    destruct (autocompleteTimeout _); split; world_refl w.
  - split; world_refl w.
  - unfold on_item_click.
    destruct (nth_error _ i) as [it|]; [|now split]. split; world_refl w.
  - now split.
  - unfold fire. destruct (find_timer id w) as [tm|]; [|now split].
    destruct (timer_due tm <=? clock w); [|now split].
    destruct (timer_callback tm) as [query|];
      [unfold run_callback; destruct (lone_surrogate query);
       [split; world_refl w|now split]|].
    unfold run_callback. simpl term.
    destruct (negb (isProcessing (term w))); [|now split].
    split; world_refl w.
  - unfold on_autocomplete_reply.
    destruct (existsb _ (fetches w)); [|now split].
    pose proof (Hco _ _ (controller_only_autocomplete_end r (term w))) as H.
    destruct (autocomplete_end r (term w)) as [t es]. now split.
  - unfold on_session_reply.
    destruct (session_pending w) eqn:Hsp; [discriminate Hq|now split].
  - unfold on_chat_reply.
    destruct (isProcessing (term w)); [|now split].
    pose proof (handleInput_end_shape o (term w)) as Hs.
    destruct (handleInput_end o (term w)) as [t es]. simpl in *.
    rewrite Hs. now split.
Qed.

(** Over a run in which the session handle is not set, every chat request
    sent carries the handle the run started with. *)
Lemma session_run (w : World) (es : list Event) :
  negb (session_pending w) || negb (existsb is_SessionReply es) = true ->
  sessionId (term (run w es)) = sessionId (term w)
  /\ session_pending (run w es) = session_pending w
  /\ exists more,
       chat_log (run w es) = (chat_log w ++ more)%list
       /\ Forall (fun q => req_session_id q = sessionId (term w)) more.
Proof.
  revert w. induction es as [|e es IH]; intros w Hq.
  - split; [reflexivity|]. split; [reflexivity|].
    exists []. split; [now rewrite app_nil_r|constructor].
  - change (run w (e :: es)) with (run (step w e) es).
    assert (Hq1 : negb (session_pending w) || negb (is_SessionReply e) = true).
    { simpl in Hq. destruct (session_pending w); [|reflexivity].
      simpl in *. now destruct (is_SessionReply e). }
    destruct (session_step w e Hq1) as [Hid Hpend].
    assert (Hq2 : negb (session_pending (step w e))
                  || negb (existsb is_SessionReply es) = true).
    { rewrite Hpend. simpl in Hq. destruct (session_pending w); [|reflexivity].
      simpl in *. destruct (is_SessionReply e); [discriminate|exact Hq]. }
    destruct (IH (step w e) Hq2) as (H1 & H2 & more & H3 & H4).
    split; [now rewrite H1|]. split; [now rewrite H2|].
    rewrite Hid in H4.
    destruct (step_request w e) as [Hs|(_ & _ & m & _ & Hs)].
    + exists more. split; [now rewrite H3, Hs|exact H4].
    + exists (mkChatRequest m (sessionId (term w)) :: more). split.
      * rewrite H3, Hs, <- app_assoc. reflexivity.
      * constructor; [reflexivity|exact H4].
Qed.

(** X15. Once the reply to the session request has been handled, the
    session handle stays as it is whatever happens on the page, and every
    chat request sent from then on carries it. *)
Theorem handle_is_fixed_after_the_session_reply (w : World) (es : list Event) :
  session_pending w = false ->
  sessionId (term (run w es)) = sessionId (term w)
  /\ exists more,
       chat_log (run w es) = (chat_log w ++ more)%list
       /\ Forall (fun q => req_session_id q = sessionId (term w)) more.
Proof.
  intros Hp.
  destruct (session_run w es) as (H1 & _ & H2); [now rewrite Hp|].
  now split.
Qed.

Lemma handle_is_fixed_after_the_session_reply_witness :
  let w := step new_World (SessionReply (Replied 200 (jsrc "{'session_id':'s1'}"))) in
  let es := [InputEdit "hi"; SessionReply (Replied 200 (jsrc "{'session_id':'s2'}"));
             KeyPress Enter] in
  sessionId (term w) = Some (JStr "s1")
  /\ chat_log (run w es) = [mkChatRequest "hi" (Some (JStr "s1"))]
  /\ (sessionId (term (run w es)) = sessionId (term w)
      /\ exists more,
           chat_log (run w es) = (chat_log w ++ more)%list
           /\ Forall (fun q => req_session_id q = sessionId (term w)) more).
Proof.
  intros w es. split; [reflexivity|]. split; [reflexivity|].
  apply (handle_is_fixed_after_the_session_reply w es). reflexivity.
Defined.

(** X16. The page does not wait for the session: [init] starts
    [createSession] and goes on. Until the reply to the session request is
    handled the handle is [null], and every chat request sent by then
    carries [null] as its [session_id]. *)
Theorem requests_before_the_session_reply_carry_null (es : list Event) :
  existsb is_SessionReply es = false ->
  let w := run new_World es in
  sessionId (term w) = null
  /\ session_pending w = true
  /\ Forall (fun q => req_session_id q = null) (chat_log w).
Proof.
  intros Hes w. subst w.
  destruct (session_run new_World es) as (H1 & H2 & more & H3 & H4).
  { rewrite Hes. apply orb_true_r. }
  split; [exact H1|]. split; [exact H2|].
  rewrite H3. exact H4.
Qed.

Lemma requests_before_the_session_reply_carry_null_witness :
  let w := run new_World [InputEdit "hi"; KeyPress Enter] in
  chat_log w = [mkChatRequest "hi" null]
  /\ (sessionId (term w) = null
      /\ session_pending w = true
      /\ Forall (fun q => req_session_id q = null) (chat_log w)).
Proof.
  intros w. split; [reflexivity|].
  apply (requests_before_the_session_reply_carry_null
           [InputEdit "hi"; KeyPress Enter]).
  reflexivity.
Defined.

End HandleProps.

(** ** The log against the requests sent *)

Module AccountingProps.
Import StreamProps Frames CoordinatorProps ReachableProps LogProps.

Lemma entries_ok_spec (w : World) :
  entries_ok w = true <->
  List.length (settled (terminalBody (term w)))
  + (if isProcessing (term w) then 1 else 0)
  = 2 * List.length (chat_log w).
Proof. unfold entries_ok. apply Nat.eqb_eq. Qed.

Lemma entries_ok_handleInput (w : World) :
  entries_ok w = true -> entries_ok (handleInput w) = true.
Proof.
  intros Hok. destruct (handleInput_begin (term w)) as [[t req]|] eqn:Hb.
  - destruct (handleInput_sends w t req Hb) as (Hsv & _ & _).
    destruct (handleInput_begin_shape _ _ _ Hb) as (_ & Hp & _ & _).
    apply entries_ok_spec in Hok. rewrite Hp in Hok.
    apply entries_ok_spec. unfold submission_view in Hsv.
    injection Hsv as -> -> ->. rewrite settled_app, !length_app.
    simpl. lia.
  - unfold handleInput. now rewrite Hb.
Qed.

(** Every event keeps the entries of the log in step with the requests
    sent. *)
Lemma entries_ok_step (w : World) (e : Event) :
  entries_ok w = true -> entries_ok (step w e) = true.
Proof.
  intros Hok.
  destruct (is_ChatReply e) eqn:Hc.
  - destruct e; try discriminate. simpl step.
    destruct (isProcessing (term w)) eqn:Hp;
      [|unfold on_chat_reply; now rewrite Hp].
    destruct (term_on_chat_reply o w Hp) as [Ht Hl].
    apply entries_ok_spec in Hok. rewrite Hp in Hok.
    apply entries_ok_spec. rewrite Ht, Hl.
    destruct (settled_handleInput_end o (term w)) as (answer & -> & _).
    rewrite handleInput_end_shape. cbn [isProcessing].
    rewrite length_app. simpl. lia.
  - destruct (is_Enter e) eqn:Hk.
    + destruct e as [k| | | | | | | |]; try discriminate.
      destruct k; try discriminate.
      simpl step. unfold on_keypress.
      destruct (negb (isProcessing (term w))); [|exact Hok].
      destruct (autocompleteList_show (term w));
        [|now apply entries_ok_handleInput].
      destruct (item_at _ _) as [it|]; [|exact Hok].
      apply entries_ok_handleInput.
      revert Hok. unfold entries_ok. now destruct (term w).
    + pose proof (quiet_step w e Hc Hk) as Hv.
      unfold submission_view in Hv. injection Hv as Hp Hb Hl.
      unfold entries_ok in *. now rewrite Hp, Hb, Hl.
Qed.

(** X17. Whatever happens on the page after it has loaded, the log stays
    in step with the chat requests: it holds a typing line exactly while a
    request is in flight, and two entries for each request sent, the
    message and the answer, less the answer that is still awaited. *)
Theorem log_accounts_for_every_request (es : list Event) :
  let w := run new_World es in
  let awaited := if isProcessing (term w) then 1 else 0 in
  typing_lines (terminalBody (term w)) = awaited
  /\ List.length (settled (terminalBody (term w))) + awaited
     = 2 * List.length (chat_log w).
Proof.
  intros w awaited. subst awaited.
  assert (H : log_ok w = true /\ entries_ok w = true).
  { subst w.
    generalize new_World (eq_refl : log_ok new_World = true)
               (eq_refl : entries_ok new_World = true).
    induction es as [|e es IH]; intros w0 H1 H2; [now split|].
    change (run w0 (e :: es)) with (run (step w0 e) es).
    apply IH; [now apply log_ok_step|now apply entries_ok_step]. }
  destruct H as [H1 H2]. split.
  - now apply log_ok_spec.
  - now apply entries_ok_spec.
Qed.

End AccountingProps.

(** ** The pending timers *)

Module TimerProps.
Import DebounceProps.

(** Dropping pending timers keeps the ids of the others distinct. *)
Lemma distinct_filter (keep : Timer -> bool) (l : list Timer) :
  NoDup (map timer_id l) -> NoDup (map timer_id (filter keep l)).
Proof.
  induction l as [|tm l IH]; simpl; intros H; [constructor|].
  apply NoDup_cons_iff in H as [Hnin Hnd].
  destruct (keep tm); [|now apply IH].
  simpl. apply NoDup_cons; [|now apply IH].
  intros Hin. apply Hnin. apply in_map_iff in Hin as (z & Hz & Hin).
  apply filter_In in Hin as [Hin _]. apply in_map_iff. now exists z.
Qed.

Lemma NoDup_ids_snoc (l : list Timer) (new : Timer) :
  NoDup (map timer_id l) ->
  (forall tm, In tm l -> timer_id tm < timer_id new) ->
  NoDup (map timer_id (l ++ [new])).
Proof.
  intros Hnd Hlt. rewrite map_app. simpl.
  apply NoDup_app; [exact Hnd|repeat constructor; intros []|].
  intros i Hin [<-|[]].
  apply in_map_iff in Hin as (tm & Heq & Hin).
  specialize (Hlt tm Hin). lia.
Qed.

Lemma distinct_cleared (o : option nat) (w : World) :
  distinct_ids w -> distinct_ids (clearTimeout o w).
Proof.
  unfold distinct_ids. destruct o as [i|]; simpl; [|trivial].
  apply distinct_filter.
Qed.

(** Every event keeps the ids of the pending timers distinct. *)
Lemma distinct_ids_step (w : World) (e : Event) :
  timers_ok w = true -> distinct_ids w -> distinct_ids (step w e).
Proof.
  intros Hok Hnd. apply timers_ok_spec in Hok as (Hlt & _ & _).
  unfold distinct_ids in *.
  destruct (step_timers w e) as [Hv|query Hv|Hv|id tm Hf Hv];
    unfold timer_view in Hv; injection Hv as -> _ _ _.
  - exact Hnd.
  - apply NoDup_ids_snoc.
    + now apply distinct_cleared.
    + intros tm Hin. apply in_cleared in Hin as [Hin _]. now apply Hlt.
  - apply NoDup_ids_snoc; [exact Hnd|exact Hlt].
  - now apply distinct_filter.
Qed.

Lemma NoDup_all_equal (i : nat) (l : list nat) :
  NoDup l -> (forall x, In x l -> x = i) -> List.length l <= 1.
Proof.
  intros Hnd Hall. destruct l as [|x [|y l]]; simpl; try lia.
  exfalso. inversion Hnd as [|? ? Hnin _]; subst. apply Hnin.
  rewrite (Hall x), (Hall y); simpl; auto.
Qed.

(** X18. Debouncing leaves one timer at most: whatever the user does
    after the page has loaded, and however fast, at most one timer that
    is to fetch suggestions is pending, and it is the one whose id
    [autocompleteTimeout] holds. *)
Theorem at_most_one_debounce_timer (es : list Event) :
  let w := run new_World es in
  List.length (filter is_debounce (timers w)) <= 1
  /\ (forall tm, In tm (filter is_debounce (timers w)) ->
      autocompleteTimeout (term w) = Some (timer_id tm)).
Proof.
  intros w.
  assert (H : timers_ok w = true /\ distinct_ids w).
  { subst w.
    assert (H0 : distinct_ids new_World) by constructor.
    generalize new_World timers_ok_new_World H0.
    induction es as [|e es IH]; intros w0 H1 H2; [now split|].
    change (run w0 (e :: es)) with (run (step w0 e) es).
    apply IH; [now apply timers_ok_step|now apply distinct_ids_step]. }
  destruct H as [Hok Hnd]. apply timers_ok_spec in Hok as (_ & _ & Hdeb).
  assert (Hheld : forall tm, In tm (filter is_debounce (timers w)) ->
                    autocompleteTimeout (term w) = Some (timer_id tm)).
  { intros tm Hin. apply filter_In in Hin as [Hin Hd]. now apply Hdeb. }
  split; [|exact Hheld].
  destruct (autocompleteTimeout (term w)) as [i|] eqn:Hat.
  - rewrite <- (length_map timer_id). apply (NoDup_all_equal i).
    + now apply distinct_filter.
    + intros x Hin. apply in_map_iff in Hin as (tm & <- & Hin).
      specialize (Hheld tm Hin). congruence.
  - destruct (filter is_debounce (timers w)) as [|tm l]; simpl; [lia|].
    specialize (Hheld tm (or_introl eq_refl)). discriminate.
Qed.

End TimerProps.

(** ** Moving the cursor back and forth *)

Module ArrowProps.
Import Frames AutocompleteProps NavigationProps.

Lemma labels_set_selected (i : nat) (b : bool) (items : list Item) :
  item_labels (set_selected i b items) = item_labels items.
Proof.
  revert i. induction items as [|x r IH]; intros [|i]; simpl; try reflexivity.
  now rewrite IH.
Qed.

(** [navigateAutocomplete] changes the highlight of the items only. *)
Lemma labels_navigate (d : Z) (t : Terminal) :
  item_labels (autocompleteList_items (navigateAutocomplete d t))
  = item_labels (autocompleteList_items t).
Proof.
  unfold navigateAutocomplete.
  remember (Z.of_nat (List.length (autocompleteList_items t))) as len.
  destruct (len =? 0)%Z; [reflexivity|]. cbv zeta.
  match goal with
  | |- context [autocompleteList_items (set_selectedIndex ?i (set_items ?l ?u))] =>
      change (autocompleteList_items (set_selectedIndex i (set_items l u))) with l
  end.
  rewrite labels_set_selected.
  destruct ((0 <=? selectedIndex t) && (selectedIndex t <? len))%Z;
    [apply labels_set_selected|reflexivity].
Qed.

Lemma labels_length (l1 l2 : list Item) :
  item_labels l1 = item_labels l2 -> List.length l1 = List.length l2.
Proof.
  intros H. apply (f_equal (@List.length _)) in H.
  unfold item_labels in H. now rewrite !length_map in H.
Qed.

(** Items are told apart by what they show and by their highlight. *)
Lemma items_eq (k : nat) (c : Z) (l1 l2 : list Item) :
  item_labels l1 = item_labels l2 ->
  marks_from k c l1 = true ->
  marks_from k c l2 = true ->
  l1 = l2.
Proof.
  revert k l2. induction l1 as [|x r IH]; intros k [|y r2]; simpl;
    try discriminate; [reflexivity|].
  intros [= Hn Hi Hl] H1 H2.
  apply andb_true_iff in H1 as [Hx H1]. apply andb_true_iff in H2 as [Hy H2].
  apply Bool.eqb_prop in Hx, Hy.
  f_equal; [|now apply (IH (S k))].
  destruct x, y; simpl in *; congruence.
Qed.

Lemma there_and_back (d : Z) (t : Terminal) :
  marks_from 0 (selectedIndex t) (autocompleteList_items t) = true ->
  selectedIndex (navigateAutocomplete (- d) (navigateAutocomplete d t))
  = selectedIndex t ->
  navigateAutocomplete (- d) (navigateAutocomplete d t) = t.
Proof.
  intros Hm Hsel.
  set (t2 := navigateAutocomplete (- d) (navigateAutocomplete d t)) in *.
  assert (Hco : controller_only t t2).
  { eapply controller_only_trans; apply controller_only_navigate. }
  assert (Hshow : autocompleteList_show t2 = autocompleteList_show t).
  { subst t2. now rewrite !navigate_show. }
  assert (Hitems : autocompleteList_items t2 = autocompleteList_items t).
  { apply (items_eq 0 (selectedIndex t)).
    - subst t2. now rewrite !labels_navigate.
    - rewrite <- Hsel. subst t2. now apply navigate_marks, navigate_marks.
    - exact Hm. }
  unfold controller_only in Hco. rewrite Hco, Hshow, Hitems, Hsel.
  now destruct t.
Qed.

(** X19. ArrowDown and ArrowUp undo each other. With the cursor on an
    item and the highlight on that item only, pressing one key and then
    the other leaves the terminal exactly as it was: the same cursor, the
    same highlight, at the ends of the list too, where the cursor wraps
    around. *)
Theorem arrows_undo_each_other (t : Terminal) :
  (0 <= selectedIndex t
     <= Z.of_nat (List.length (autocompleteList_items t)) - 1)%Z ->
  marks_from 0 (selectedIndex t) (autocompleteList_items t) = true ->
  navigateAutocomplete (-1) (navigateAutocomplete 1 t) = t
  /\ navigateAutocomplete 1 (navigateAutocomplete (-1) t) = t.
Proof.
  intros Hr Hm.
  assert (Hne : autocompleteList_items t <> []).
  { intros He. rewrite He in Hr. simpl in Hr. lia. }
  assert (Hback : forall d, (d = 1 \/ d = -1)%Z ->
            selectedIndex (navigateAutocomplete (- d) (navigateAutocomplete d t))
            = selectedIndex t).
  { intros d Hd.
    assert (Hne1 : autocompleteList_items (navigateAutocomplete d t) <> []).
    { intros He. apply Hne.
      pose proof (labels_length _ _ (labels_navigate d t)) as Hl.
      rewrite He in Hl. now destruct (autocompleteList_items t). }
    rewrite (navigate_cursor (- d) _ Hne1). cbv zeta.
    rewrite (labels_length _ _ (labels_navigate d t)).
    rewrite (navigate_cursor d t Hne). cbv zeta.
    remember (Z.of_nat (List.length (autocompleteList_items t))) as len.
    remember (selectedIndex t) as sel.
    rewrite !Z.geb_leb.
    destruct Hd as [-> | ->].
    - destruct (Z.ltb_spec (sel + 1) 0); destruct (Z.leb_spec len (sel + 1));
        repeat match goal with
               | |- context [(?a <? ?b)%Z] => destruct (Z.ltb_spec a b)
               | |- context [(?a <=? ?b)%Z] => destruct (Z.leb_spec a b)
               end; lia.
    - destruct (Z.ltb_spec (sel + -1) 0); destruct (Z.leb_spec len (sel + -1));
        repeat match goal with
               | |- context [(?a <? ?b)%Z] => destruct (Z.ltb_spec a b)
               | |- context [(?a <=? ?b)%Z] => destruct (Z.leb_spec a b)
               end; lia. }
  split.
  - apply (there_and_back 1 t Hm). apply (Hback 1%Z). now left.
  - apply (there_and_back (-1) t Hm). apply (Hback (-1)%Z). now right.
Qed.

Lemma arrows_undo_each_other_witness :
  navigateAutocomplete (-1) (navigateAutocomplete 1 (term mona_selected))
  = term mona_selected
  /\ navigateAutocomplete 1 (navigateAutocomplete (-1) (term mona_selected))
     = term mona_selected.
Proof.
  apply (arrows_undo_each_other (term mona_selected)).
  - vm_compute. split; discriminate.
  - vm_compute. reflexivity.
Defined.

End ArrowProps.
